(** * carla-multiplayer: the streaming pipeline and the control-state relay

    A shallow embedding of [carla_multiplayer/controller.py],
    [carla_multiplayer/controller_gamepad.py] and
    [carla_multiplayer/sensor.py], and the properties their design
    document states about them.

    Python values are modelled as follows.
    - [float] is IEEE binary64: Rocq's primitive [float], with the
      comparisons [<=?] and [=?] of the hardware.
    - [dict] is stdpp's [gmap]; a missing key on a subscript is [KeyError].
    - [queue.Queue] is a list of items with its [maxsize].
    - An exception is a value of [exn]; a call that can raise returns
      [result].
    - [int()] converts a decimal literal of at most 4300 digits, the
      default limit of the interpreter, and raises [ValueError] on a
      longer one. *)

From Stdlib Require Import ZArith List Bool Lia Ascii String.
From Stdlib Require Import Floats DecimalString.
From stdpp Require Import base option gmap strings.
Import ListNotations.

Set Warnings "-inexact-float".
Local Open Scope Z_scope.

(** ** Exceptions *)

Inductive exn : Type :=
| Full          (* queue.Full *)
| Empty         (* queue.Empty *)
| KeyError
| TypeError
| ValueError
| JSONDecodeError
| OtherError.

Inductive result (A : Type) : Type :=
| Ok (a : A)
| Raise (e : exn).
Arguments Ok {A} a.
Arguments Raise {A} e.

(** ** queue.Queue *)

Module Queue.

Record t (A : Type) : Type := mk { maxsize : Z; items : list A }.
Arguments mk {A} maxsize items.
Arguments maxsize {A} _.
Arguments items {A} _.

(** [Queue(maxsize=n)]. *)
Definition new {A} (n : Z) : t A := mk n [].

Definition qsize {A} (q : t A) : Z := Z.of_nat (length (items q)).

(** [Queue.full]: [0 < maxsize <= qsize]; a queue with [maxsize <= 0] is
    unbounded. *)
Definition full {A} (q : t A) : bool :=
  (0 <? maxsize q) && (maxsize q <=? qsize q).

(** [put_nowait]: append on the right, or [Full]. *)
Definition put_nowait {A} (q : t A) (x : A) : result (t A) :=
  if full q then Raise Full else Ok (mk (maxsize q) (items q ++ [x])).

(** The last [n] elements of a list: what a queue of capacity [n] is to
    keep of the items pushed. *)
Definition lastn {A} (n : nat) (l : list A) : list A := skipn (length l - n) l.

(** [get_nowait]: pop on the left, or [Empty]. *)
Definition get_nowait {A} (q : t A) : result (A * t A) :=
  match items q with
  | [] => Raise Empty
  | x :: rest => Ok (x, mk (maxsize q) rest)
  end.

End Queue.

(** ** The state-and-exception monad of a method body

    A method reads and assigns attributes of [self] and may raise: a
    computation over the object state [S] returns the new state together
    with a value or the exception.  An assignment made before a [raise]
    stays made. *)

Definition M (S A : Type) : Type := S -> S * result A.

Definition ret {S A} (a : A) : M S A := fun s => (s, Ok a).

Definition bind {S A B} (c : M S A) (k : A -> M S B) : M S B :=
  fun s =>
    match c s with
    | (s', Ok a) => k a s'
    | (s', Raise e) => (s', Raise e)
    end.

Definition raise {S A} (e : exn) : M S A := fun s => (s, Raise e).

Definition lift {S A} (r : result A) : M S A := fun s => (s, r).

Definition gets {S A} (f : S -> A) : M S A := fun s => (s, Ok (f s)).

Definition modify {S} (f : S -> S) : M S unit := fun s => (f s, Ok tt).

Declare Scope py_scope.
Delimit Scope py_scope with py.
Notation "x <- c ;; k" := (bind c (fun x => k))
  (at level 100, c at next level, right associativity) : py_scope.
Notation "c ;;; k" := (bind c (fun _ => k))
  (at level 100, right associativity) : py_scope.

(** [d[k]]: the value, or [KeyError]. *)
Definition subscript {V} (d : gmap Z V) (k : Z) : result V :=
  match d !! k with
  | Some v => Ok v
  | None => Raise KeyError
  end.

(** ** Python floats *)

Module PyFloat.

(** [a / b] rounded to the nearest integer, ties to the even one
    ([0 < b], [0 <= a]). *)
Definition round_half_even_div (a b : Z) : Z :=
  let q := a / b in
  let r := a mod b in
  match 2 * r ?= b with
  | Lt => q
  | Gt => q + 1
  | Eq => if Z.even q then q else q + 1
  end.

(** [m * 2^e * 100] rounded to the nearest integer, ties to even: the
    digits that correctly rounded decimal conversion to two places keeps. *)
Definition hundredths (m : positive) (e : Z) : Z :=
  if 0 <=? e then Zpos m * 2 ^ e * 100
  else round_half_even_div (Zpos m * 100) (2 ^ (- e)).

Definition SF_of_Z (s : bool) (n : Z) : spec_float :=
  match n with
  | Zpos p => S754_finite s p 0
  | _ => S754_zero s
  end.

(** The binary64 value nearest to [(-1)^s * n / 100]: what reading the
    decimal string back gives. *)
Definition nearest_hundredth (s : bool) (n : Z) : float :=
  SF2Prim (SFdiv prec emax (SF_of_Z s n) (S754_finite false 100 0)).

(** [round(x, 2)] on a float.  CPython rounds the exact binary value of
    [x] to two decimal places, half to even, and converts the decimal back
    to the nearest float; zeros, infinities and NaN round to themselves. *)
Definition round2 (x : float) : float :=
  match Prim2SF x with
  | S754_finite s m e => nearest_hundredth s (hundredths m e)
  | _ => x
  end.

(** The interface precondition on an axis value: [-1 <= x <= 1]. *)
Definition normalized (x : float) : bool := ((-1 <=? x) && (x <=? 1))%float.

(** The floats [k/100] and [-k/100] for [k = 0 .. 100]. *)
Definition normalized_grid : list float :=
  flat_map
    (fun k => [nearest_hundredth false (Z.of_nat k); nearest_hundredth true (Z.of_nat k)])
    (seq 0 101).

(** [round(v, 2)] is [v] itself, bit for bit, and [v] meets the interface
    precondition. *)
Definition round2_fixed (v : float) : bool :=
  PrimFloat.Leibniz.eqb (round2 v) v && normalized v.

End PyFloat.

(** ** json.dumps and json.loads

    The part of the [json] module that a flat record needs: an object whose
    keys are plain names and whose values are numbers, booleans or [null].
    A text is a [string] of 8-bit characters; the writer produces ASCII
    only.  [float.__repr__] and [float()] are parameters of the section:
    the reader hands [float()] exactly the characters that the number
    pattern of the scanner matched. *)

Module Json.
Local Open Scope string_scope.

Inductive value : Type :=
| JFloat (f : float)
| JInt (n : Z)
| JBool (b : bool)
| JNull.

(** What a scanning function answers: the value read and the text after
    it, [JSONDecodeError], another exception that leaves the scanner, or a
    text outside the part of JSON read here (nested containers, string
    values, escapes in keys). *)
Inductive parse (A : Type) : Type :=
| Parsed (a : A) (rest : string)
| Malformed
| Raised (e : exn)
| Unmodelled.
Arguments Parsed {A} a rest.
Arguments Malformed {A}.
Arguments Raised {A} e.
Arguments Unmodelled {A}.

(** The four characters of [WHITESPACE]: space, tab, line feed, carriage
    return. *)
Definition is_ws (c : ascii) : bool :=
  ((c =? " ") || (c =? "009") || (c =? "010") || (c =? "013"))%char.

Fixpoint skip_ws (s : string) : string :=
  match s with
  | String c s' => if is_ws c then skip_ws s' else s
  | EmptyString => s
  end.

Definition is_digit (c : ascii) : bool :=
  ((48 <=? nat_of_ascii c) && (nat_of_ascii c <=? 57))%nat.

(** The longest prefix of digits, and what follows it. *)
Fixpoint span_digits (s : string) : string * string :=
  match s with
  | String c s' =>
      if is_digit c then let (ds, rest) := span_digits s' in (String c ds, rest)
      else (EmptyString, s)
  | EmptyString => (EmptyString, s)
  end.

(** [NUMBER_RE], group 1: an optional minus sign, then either a single
    zero or a nonzero digit followed by any digits. *)
Definition match_integer (s : string) : option (string * string) :=
  let (sign, s1) :=
    match s with
    | String "-" s' => ("-", s')
    | _ => (EmptyString, s)
    end in
  match s1 with
  | String c s2 =>
      if (c =? "0")%char then Some (sign ++ "0", s2)
      else if is_digit c then
        let (ds, s3) := span_digits s2 in Some (sign ++ String c ds, s3)
      else None
  | EmptyString => None
  end.

(** [NUMBER_RE], group 2, optional: a point and one digit or more. *)
Definition match_frac (s : string) : string * string :=
  match s with
  | String "." s1 =>
      match span_digits s1 with
      | (EmptyString, _) => (EmptyString, s)
      | (ds, s2) => (String "." ds, s2)
      end
  | _ => (EmptyString, s)
  end.

(** [NUMBER_RE], group 3, optional: [e] or [E], an optional sign, and one
    digit or more. *)
Definition match_exp (s : string) : string * string :=
  match s with
  | String c s1 =>
      if ((c =? "e") || (c =? "E"))%char then
        let (sign, s2) :=
          match s1 with
          | String d s' =>
              if ((d =? "-") || (d =? "+"))%char then (String d EmptyString, s')
              else (EmptyString, s1)
          | EmptyString => (EmptyString, s1)
          end in
        match span_digits s2 with
        | (EmptyString, _) => (EmptyString, s)
        | (ds, s3) => (String c (sign ++ ds), s3)
        end
      else (EmptyString, s)
  | EmptyString => (EmptyString, s)
  end.

(** [NUMBER_RE.match]: the three groups and the text after the match. *)
Definition match_number (s : string) : option (string * string * string * string) :=
  match match_integer s with
  | Some (integer, s1) =>
      let (frac, s2) := match_frac s1 in
      let (exp, s3) := match_exp s2 in
      Some (integer, frac, exp, s3)
  | None => None
  end.

Fixpoint digits_value (s : string) (acc : Z) : Z :=
  match s with
  | String c s' => digits_value s' (10 * acc + (Z.of_nat (nat_of_ascii c) - 48))
  | EmptyString => acc
  end.

(** [sys.int_info.default_max_str_digits]: the most digits that [int()]
    converts from a decimal string. *)
Definition int_max_str_digits : nat := 4300.

(** [int(s)] on group 1 of the number pattern: the value, or [ValueError]
    when the literal has more digits than the limit (the sign does not
    count). *)
Definition parse_int (s : string) : result Z :=
  let (negative, digits) :=
    match s with
    | String "-" s' => (true, s')
    | _ => (false, s)
    end in
  if (int_max_str_digits <? String.length digits)%nat then Raise ValueError
  else Ok (if negative then - digits_value digits 0 else digits_value digits 0).

(** [s[idx:idx + len(p)] == p], and the text after [p]. *)
Fixpoint strip_prefix (p s : string) : option string :=
  match p, s with
  | EmptyString, _ => Some s
  | String a p', String b s' => if (a =? b)%char then strip_prefix p' s' else None
  | String _ _, EmptyString => None
  end.

(** [str.isascii]. *)
Fixpoint isascii (s : string) : bool :=
  match s with
  | String c s' => (nat_of_ascii c <? 128)%nat && isascii s'
  | EmptyString => true
  end.

(** A number starts with a minus sign or a digit. *)
Definition number_start (c : ascii) : bool := ((c =? "-")%char || is_digit c).


Section Codec.

Variable float_repr : float -> string.
Variable float_of_string : string -> float.

(** What a round trip needs of [float.__repr__] and [float()] at a float
    [f]: the text is ASCII, the number pattern matches all of it, with a
    fraction or an exponent, when a comma follows, and [float()] reads [f]
    back from it. *)
Definition reads_back (f : float) : Prop :=
  isascii (float_repr f) = true
  /\ float_of_string (float_repr f) = f
  /\ exists integer frac exp,
       float_repr f = integer ++ frac ++ exp
       /\ (frac <> EmptyString \/ exp <> EmptyString)
       /\ forall rest,
            match_number (float_repr f ++ String "," rest)
            = Some (integer, frac, exp, String "," rest).

(** [floatstr] of the encoder: the three special values by name, the
    others by [float.__repr__]. *)
Definition floatstr (o : float) : string :=
  if negb (o =? o)%float then "NaN"
  else if (o =? infinity)%float then "Infinity"
  else if (o =? neg_infinity)%float then "-Infinity"
  else float_repr o.

Definition dumps_value (v : value) : string :=
  match v with
  | JFloat f => floatstr f
  | JInt n => NilZero.string_of_int (Z.to_int n)
  | JBool true => "true"
  | JBool false => "false"
  | JNull => "null"
  end.

(** One [key: value] item; the key is written between quotes as it is
    (a field name needs no escape). *)
Definition dumps_item (kv : string * value) : string :=
  String "034" (fst kv) ++ String "034" ": " ++ dumps_value (snd kv).

Fixpoint join_items (l : list (string * value)) : string :=
  match l with
  | [] => EmptyString
  | [kv] => dumps_item kv
  | kv :: l' => dumps_item kv ++ ", " ++ join_items l'
  end.

(** [json.dumps(d)] for a dict [d] given by its items in insertion order,
    with the default separators. *)
Definition dumps (d : list (string * value)) : string :=
  "{" ++ join_items d ++ "}".

(** [scan_once] at a value: [null], [true], [false], a number, then the
    three names of the special floats; [Malformed] is its
    [StopIteration], which every caller turns into [JSONDecodeError]. *)
Definition scan_once (s : string) : parse value :=
  match s with
  | EmptyString => Malformed
  | String c _ =>
      if ((c =? "034") || (c =? "{") || (c =? "["))%char then Unmodelled
      else
        match (if (c =? "n")%char then strip_prefix "null" s else None),
              (if (c =? "t")%char then strip_prefix "true" s else None),
              (if (c =? "f")%char then strip_prefix "false" s else None) with
        | Some r, _, _ => Parsed JNull r
        | None, Some r, _ => Parsed (JBool true) r
        | None, None, Some r => Parsed (JBool false) r
        | None, None, None =>
            match match_number s with
            | Some (integer, frac, exp, r) =>
                match frac, exp with
                | EmptyString, EmptyString =>
                    match parse_int integer with
                    | Ok n => Parsed (JInt n) r
                    | Raise e => Raised e
                    end
                | _, _ => Parsed (JFloat (float_of_string (integer ++ frac ++ exp))) r
                end
            | None =>
                match strip_prefix "NaN" s, strip_prefix "Infinity" s,
                      strip_prefix "-Infinity" s with
                | Some r, _, _ => Parsed (JFloat nan) r
                | None, Some r, _ => Parsed (JFloat infinity) r
                | None, None, Some r => Parsed (JFloat neg_infinity) r
                | None, None, None => Malformed
                end
            end
        end
  end.

(** [scanstring] from just after the opening quote: the characters up to
    the closing quote.  A control character is an error; a backslash
    starts an escape, which is not read here. *)
Fixpoint scanstring (s : string) : parse string :=
  match s with
  | EmptyString => Malformed
  | String c s' =>
      if (c =? "034")%char then Parsed EmptyString s'
      else if (c =? "\")%char then Unmodelled
      else if (nat_of_ascii c <? 32)%nat then Malformed
      else
        match scanstring s' with
        | Parsed k rest => Parsed (String c k) rest
        | Malformed => Malformed
        | Raised e => Raised e
        | Unmodelled => Unmodelled
        end
  end.

(** The [while True] loop of [JSONObject], entered just after the opening
    quote of a key.  Every turn reads at least one character, so fuel equal
    to the length of the text is never used up. *)
Fixpoint members (fuel : nat) (s : string) (pairs : list (string * value))
  : parse (list (string * value)) :=
  match fuel with
  | O => Malformed
  | S fuel' =>
      match scanstring s with
      | Parsed key s1 =>
          match skip_ws s1 with
          | String ":" s2 =>
              match scan_once (skip_ws s2) with
              | Parsed v s3 =>
                  match skip_ws s3 with
                  | String "}" s4 => Parsed (pairs ++ [(key, v)])%list s4
                  | String "," s4 =>
                      match skip_ws s4 with
                      | String "034" s5 => members fuel' s5 (pairs ++ [(key, v)])%list
                      | _ => Malformed
                      end
                  | _ => Malformed
                  end
              | Malformed => Malformed
              | Raised e => Raised e
              | Unmodelled => Unmodelled
              end
          | _ => Malformed
          end
      | Malformed => Malformed
      | Raised e => Raised e
      | Unmodelled => Unmodelled
      end
  end.

(** [JSONObject] from just after the opening brace. *)
Definition JSONObject (s : string) : parse (list (string * value)) :=
  match skip_ws s with
  | String "}" s1 => Parsed [] s1
  | String "034" s1 => members (String.length s) s1 []
  | _ => Malformed
  end.

(** [json.loads(s)]: for a text that holds one object, the pairs in the
    order read; text after the object other than whitespace is an error.
    A text that starts otherwise goes to [scan_once] as well: where that
    finds no value the text is an error, and a text that holds a value of
    another kind is not read here. *)
Definition loads (s : string) : parse (list (string * value)) :=
  match skip_ws s with
  | String "{" s1 =>
      match JSONObject s1 with
      | Parsed d rest =>
          match skip_ws rest with
          | EmptyString => Parsed d EmptyString
          | _ => Malformed
          end
      | r => r
      end
  | EmptyString => Malformed
  | s1 =>
      match scan_once s1 with
      | Malformed => Malformed
      | Raised e => Raised e
      | _ => Unmodelled
      end
  end.

End Codec.

(** A key that [scanstring] reads as it is written. *)
Definition plain_key (k : string) : Prop :=
  forall rest, scanstring (k ++ String "034" rest) = Parsed k rest.

(** [dict(pairs)]: a later pair with the same key replaces an earlier one. *)
Definition dict (pairs : list (string * value)) : gmap string value :=
  foldl (fun m kv => <[fst kv := snd kv]> m) ∅ pairs.

End Json.

(** ** controller.py *)

Module controller.
Import Json.

Local Open Scope py_scope.

(** [class ControllerState(NamedTuple)]. *)
Record ControllerState : Type := {
  throttle : float;
  brake : float;
  steer : float;
  hand_brake : bool;
  reverse : bool;
  reset : bool
}.

(** [a == b] on two [ControllerState] tuples: field by field, floats by the
    IEEE comparison (the tuples compared in this file are built from
    freshly rounded floats, so the identity shortcut of tuple comparison
    never decides a NaN field). *)
Definition ControllerState_eqb (a b : ControllerState) : bool :=
  (throttle a =? throttle b)%float && (brake a =? brake b)%float
  && (steer a =? steer b)%float && Bool.eqb (hand_brake a) (hand_brake b)
  && Bool.eqb (reverse a) (reverse b) && Bool.eqb (reset a) (reset b).

(** [controller_state == last] where [last] may be [None]. *)
Definition eq_optional (a : ControllerState) (last : option ControllerState) : bool :=
  match last with
  | Some b => ControllerState_eqb a b
  | None => false
  end.

Definition handle_steer_deadzone (steer : float) : float :=
  if ((-0.16 <=? steer) && (steer <=? 0.16))%float then 0%float else steer.

(** The floats of a state in their documented ranges: throttle and brake
    from 0 to 1, steer from -1 to 1. *)
Definition in_range (s : ControllerState) : bool :=
  ((0 <=? throttle s) && (throttle s <=? 1) && (0 <=? brake s) && (brake s <=? 1)
   && (-1 <=? steer s) && (steer s <=? 1))%float.

(** *** The wire record *)

Definition field_names : list string :=
  ["throttle"; "brake"; "steer"; "hand_brake"; "reverse"; "reset"]%string.

(** [controller_state._asdict()], in field order. *)
Definition _asdict (s : ControllerState) : list (string * value) :=
  [ ("throttle", JFloat (throttle s)); ("brake", JFloat (brake s));
    ("steer", JFloat (steer s)); ("hand_brake", JBool (hand_brake s));
    ("reverse", JBool (reverse s)); ("reset", JBool (reset s)) ]%string.

(** What [deserialize_controller_state] answers: the tuple, an exception,
    or a payload this embedding does not read (bytes outside ASCII, JSON
    outside [Json.loads], fields of another type than the record's). *)
Inductive decoded : Type :=
| Decoded (s : ControllerState)
| DecodeRaises (e : exn)
| DecodeUnmodelled.

(** [ControllerState( **d )]: a key that is no field, or a field without a
    key, is a [TypeError]. *)
Definition ControllerState_of_kwargs (pairs : list (string * value)) : decoded :=
  let d := dict pairs in
  if negb (forallb (fun kv => bool_decide (fst kv ∈ field_names)) pairs)
  then DecodeRaises TypeError
  else
    match d !! "throttle"%string, d !! "brake"%string, d !! "steer"%string,
          d !! "hand_brake"%string, d !! "reverse"%string, d !! "reset"%string with
    | Some t, Some b, Some s, Some h, Some rv, Some rs =>
        match t, b, s, h, rv, rs with
        | JFloat t, JFloat b, JFloat s, JBool h, JBool rv, JBool rs =>
            Decoded {| throttle := t; brake := b; steer := s;
                       hand_brake := h; reverse := rv; reset := rs |}
        | _, _, _, _, _, _ => DecodeUnmodelled
        end
    | _, _, _, _, _, _ => DecodeRaises TypeError
    end.

Section Wire.

Variable float_repr : float -> string.
Variable float_of_string : string -> float.

(** [json.dumps(controller_state._asdict()).encode('utf-8')]: the text
    is ASCII, which UTF-8 encodes byte for byte. *)
Definition serialize_controller_state (controller_state : ControllerState) : string :=
  dumps float_repr (_asdict controller_state).

(** [ControllerState( **json.loads(data.decode('utf-8')) )]. *)
Definition deserialize_controller_state (data : string) : decoded :=
  if negb (isascii data) then DecodeUnmodelled
  else
    match loads float_of_string data with
    | Parsed pairs _ => ControllerState_of_kwargs pairs
    | Malformed => DecodeRaises JSONDecodeError
    | Raised e => DecodeRaises e
    | Unmodelled => DecodeUnmodelled
    end.

End Wire.

(** *** Raw device state and the event handler *)

(** [class RawControllerState(NamedTuple)]. *)
Record RawControllerState : Type := {
  axis_data : gmap Z (option float);
  button_data : gmap Z bool;
  hat_data : gmap Z (Z * Z)
}.

(** The pygame events the handler looks at; any other type is [OtherEvent]. *)
Inductive event : Type :=
| JOYAXISMOTION (axis : Z) (value : float)
| JOYBUTTONDOWN (button : Z)
| JOYBUTTONUP (button : Z)
| JOYHATMOTION (hat : Z) (value : Z * Z)
| OtherEvent.

(** The three dicts of [ControllerEventHandler]. *)
Record ControllerEventHandler : Type := {
  _axis_data : gmap Z (option float);
  _button_data : gmap Z bool;
  _hat_data : gmap Z (Z * Z)
}.

(** [{i: v for i in range(0, n)}]. *)
Definition dict_of_range {V} (n : nat) (v : V) : gmap Z V :=
  list_to_map (map (fun i => (Z.of_nat i, v)) (seq 0 n)).

(** [ControllerEventHandler.__init__] for a joystick with the given
    numbers of axes, buttons and hats. *)
Definition ControllerEventHandler_init (numaxes numbuttons numhats : nat)
  : ControllerEventHandler :=
  {| _axis_data := dict_of_range numaxes None;
     _button_data := dict_of_range numbuttons false;
     _hat_data := dict_of_range numhats (0, 0) |}.

(** The first half of [ControllerEventHandler.handle_event]: the dict
    assignment of the event, or [None] on the early [return]. *)
Definition store_event (h : ControllerEventHandler) (ev : event)
  : option ControllerEventHandler :=
  match ev with
  | JOYAXISMOTION axis value =>
      Some {| _axis_data := <[axis := Some (PyFloat.round2 value)]> (_axis_data h);
              _button_data := _button_data h; _hat_data := _hat_data h |}
  | JOYBUTTONDOWN button =>
      Some {| _axis_data := _axis_data h;
              _button_data := <[button := true]> (_button_data h);
              _hat_data := _hat_data h |}
  | JOYBUTTONUP button =>
      Some {| _axis_data := _axis_data h;
              _button_data := <[button := false]> (_button_data h);
              _hat_data := _hat_data h |}
  | JOYHATMOTION hat value =>
      Some {| _axis_data := _axis_data h; _button_data := _button_data h;
              _hat_data := <[hat := value]> (_hat_data h) |}
  | OtherEvent => None
  end.

(** The [RawControllerState] the handler passes to its callback. *)
Definition raw_state (h : ControllerEventHandler) : RawControllerState :=
  {| axis_data := _axis_data h; button_data := _button_data h;
     hat_data := _hat_data h |}.

(** *** The input adapter [_GamepadController]

    [D] is the state of whatever the callback acts on; a callback is a
    function on it, and [None] stands for an object that is not callable. *)

Section Adapter.

Context {D : Type}.

Record _GamepadController : Type := {
  _callback : option (ControllerState -> D -> D);
  _handler : ControllerEventHandler;
  _reverse : bool;
  _last_controller_state : option ControllerState
}.

Definition with_reverse (b : bool) (self : _GamepadController) : _GamepadController :=
  {| _callback := _callback self; _handler := _handler self;
     _reverse := b; _last_controller_state := _last_controller_state self |}.

(** [self._reverse = b]. *)
Definition set_reverse (b : bool) : M _GamepadController unit :=
  modify (with_reverse b).

Definition set_last_controller_state (s : ControllerState) (self : _GamepadController)
  : _GamepadController :=
  {| _callback := _callback self; _handler := _handler self;
     _reverse := _reverse self; _last_controller_state := Some s |}.

Definition set_handler (h : ControllerEventHandler) (self : _GamepadController)
  : _GamepadController :=
  {| _callback := _callback self; _handler := h;
     _reverse := _reverse self; _last_controller_state := _last_controller_state self |}.

(** [_GamepadController.__init__]. *)
Definition _GamepadController_init (numaxes numbuttons numhats : nat)
  (callback : option (ControllerState -> D -> D)) : _GamepadController :=
  {| _callback := callback;
     _handler := ControllerEventHandler_init numaxes numbuttons numhats;
     _reverse := false;
     _last_controller_state := None |}.

(** [if not callable(self._callback): raise TypeError(...)].  The message
    is built with [str.format] from a template that holds a single closing
    brace, so building it raises [ValueError] before [TypeError] is made. *)
Definition check_callable : M _GamepadController unit :=
  cb <- gets _callback ;;
  match cb with
  | Some _ => ret tt
  | None => raise ValueError
  end.

Definition _handle_callback (controller_state : RawControllerState)
  : M _GamepadController ControllerState :=
  a5 <- lift (subscript (axis_data controller_state) 5) ;;
  let throttle :=
    match a5 with
    | Some v => PyFloat.round2 ((v + 1.0) / 2.0)
    | None => 0%float
    end in
  a4 <- lift (subscript (axis_data controller_state) 4) ;;
  let brake :=
    match a4 with
    | Some v => PyFloat.round2 ((v + 1.0) / 2.0)
    | None => 0%float
    end in
  a0 <- lift (subscript (axis_data controller_state) 0) ;;
  let steer :=
    match a0 with
    | Some v => PyFloat.round2 v
    | None => 0%float
    end in
  hand_brake <- lift (subscript (button_data controller_state) 0) ;;
  select_forward <- lift (subscript (button_data controller_state) 11) ;;
  select_reverse <- lift (subscript (button_data controller_state) 12) ;;
  (if select_forward then set_reverse false
   else if select_reverse then set_reverse true
   else ret tt) ;;;
  reset <- lift (subscript (button_data controller_state) 6) ;;
  check_callable ;;;
  rev <- gets _reverse ;;
  ret {| throttle := throttle; brake := brake;
         steer := handle_steer_deadzone steer;
         hand_brake := hand_brake; reverse := rev; reset := reset |}.

(** [_callback_wrapper]: the state is the adapter together with what the
    callback acts on. *)
Definition _callback_wrapper (raw_controller_state : RawControllerState)
  : M (_GamepadController * D) unit :=
  fun '(self, d) =>
    match _handle_callback raw_controller_state self with
    | (self, Raise e) => ((self, d), Raise e)
    | (self, Ok controller_state) =>
        if eq_optional controller_state (_last_controller_state self)
        then ((self, d), Ok tt)
        else
          match _callback self with
          | Some callback =>
              ((set_last_controller_state controller_state self,
                callback controller_state d), Ok tt)
          | None => ((self, d), Raise TypeError)
          end
    end.

(** [_GamepadController.handle_event]: the handler stores the event and
    calls [_callback_wrapper] (a bound method, hence callable) with the
    three dicts. *)
Definition handle_event (ev : event) : M (_GamepadController * D) unit :=
  fun '(self, d) =>
    match store_event (_handler self) ev with
    | None => ((self, d), Ok tt)
    | Some h => _callback_wrapper (raw_state h) (set_handler h self, d)
    end.

(** The loop of the main program, [for e in pygame.event.get():
    _controller.handle_event(e)]: an exception ends it. *)
Fixpoint handle_events (evs : list event) : M (_GamepadController * D) unit :=
  match evs with
  | [] => ret tt
  | ev :: rest => handle_event ev ;;; handle_events rest
  end.

End Adapter.

Arguments _GamepadController D : clear implicits.

(** Modelled from the spec: [clamp01] of the derivation rules, which no
    source file defines: the value brought into the interval from 0 to 1. *)
Definition clamp01 (x : float) : float :=
  if (x <? 0)%float then 0%float else if (1 <? x)%float then 1%float else x.

(** An axis event whose value meets the interface precondition
    [-1 <= value <= 1]; the other events carry no float. *)
Definition normalized_event (ev : event) : bool :=
  match ev with
  | JOYAXISMOTION _ value => PyFloat.normalized value
  | _ => true
  end.

(** *** The fixed-rate publisher [GamepadController] *)

(** The calls made to [Sender.send_datagram], oldest first. *)
Definition Sender : Type := list (string * (string * Z)).

Record GamepadController : Type := {
  _host : string;
  _port : Z;
  _gamepad_controller : _GamepadController (option ControllerState);
  _controller_state : option ControllerState
}.

(** [_set_controller_state], as the adapter's callback sees it: a function
    on the attribute [_controller_state]. *)
Definition _set_controller_state (controller_state : ControllerState)
  (_ : option ControllerState) : option ControllerState :=
  Some controller_state.

(** [GamepadController.__init__]. *)
Definition GamepadController_init (host : string) (port : Z)
  (numaxes numbuttons numhats : nat) : GamepadController :=
  {| _host := host; _port := port;
     _gamepad_controller :=
       _GamepadController_init numaxes numbuttons numhats (Some _set_controller_state);
     _controller_state := None |}.

Section Publisher.

Variable float_repr : float -> string.

(** [_work], one tick of [TimedLooper].  [answer] is what
    [send_datagram] does when it is called: it returns, or it raises. *)
Definition _work (self : GamepadController) (answer : result unit)
  : M Sender unit :=
  match _controller_state self with
  | None => ret tt
  | Some controller_state =>
      fun sender =>
        let sender :=
          (sender ++ [(serialize_controller_state float_repr controller_state,
                       (_host self, _port self))])%list in
        match answer with
        | Ok _ => (sender, Ok tt)
        | Raise Empty => (sender, Ok tt)
        | Raise e => (sender, Raise e)
        end
  end.

(** Ticks in a row, one answer of the sender for each; a tick is run
    whatever the tick before did. *)
Fixpoint ticks (self : GamepadController) (answers : list (result unit))
  (sender : Sender) : Sender :=
  match answers with
  | [] => sender
  | answer :: rest => ticks self rest (fst (_work self answer sender))
  end.

End Publisher.

(** [GamepadController.handle_event]. *)
Definition GamepadController_handle_event (ev : event) : M GamepadController unit :=
  fun self =>
    match handle_event ev (_gamepad_controller self, _controller_state self) with
    | ((adapter, state), r) =>
        ({| _host := _host self; _port := _port self;
            _gamepad_controller := adapter; _controller_state := state |}, r)
    end.

(** *** Notions the properties are stated with *)

(** For an axis value [v]: half the shifted value needs no clamping, and
    its rounding lies between 0 and 1. *)
Definition throttle_in_unit (v : float) : bool :=
  let h := ((v + 1.0) / 2.0)%float in
  (negb (h <? 0) && negb (1 <? h)
   && (0 <=? PyFloat.round2 h) && (PyFloat.round2 h <=? 1))%float.

(** For an axis value [v]: the throttle and the steer derived from it are
    equal to themselves under [==]. *)
Definition derived_self_equal (v : float) : bool :=
  let t := PyFloat.round2 ((v + 1.0) / 2.0) in
  let s := handle_steer_deadzone (PyFloat.round2 v) in
  ((t =? t) && (s =? s))%float.

(** The axis values a handler holds are [None] or on the grid. *)
Definition axes_on_grid (h : ControllerEventHandler) : Prop :=
  forall k v, _axis_data h !! k = Some (Some v) -> In v PyFloat.normalized_grid.

(** What holds of an adapter between two events: its axis values are on
    the grid, and once it has emitted, deriving from what its handler holds
    returns a state equal to the last one emitted and changes nothing. *)
Definition settled {D} (self : _GamepadController D) : Prop :=
  axes_on_grid (_handler self)
  /\ (_last_controller_state self = None
      \/ exists cs,
           _handle_callback (raw_state (_handler self)) self = (self, Ok cs)
           /\ eq_optional cs (_last_controller_state self) = true).

(** An event that the handler stores. *)
Definition stored (ev : event) : bool :=
  match ev with
  | OtherEvent => false
  | _ => true
  end.

(** A callback that records the states it is called with, oldest first. *)
Definition recording (controller_state : ControllerState) (log : list ControllerState)
  : list ControllerState :=
  (log ++ [controller_state])%list.

(** No state of the list equals, under [==], the one before it. *)
Fixpoint adjacent_differ (log : list ControllerState) : Prop :=
  match log with
  | a :: (b :: _) as rest => ControllerState_eqb b a = false /\ adjacent_differ rest
  | _ => True
  end.

(** One of the seven entries that the derivation subscripts is missing. *)
Definition missing_entry (raw : RawControllerState) : Prop :=
  axis_data raw !! 5 = None \/ axis_data raw !! 4 = None \/ axis_data raw !! 0 = None
  \/ button_data raw !! 0 = None \/ button_data raw !! 11 = None
  \/ button_data raw !! 12 = None \/ button_data raw !! 6 = None.

(** For an axis value [v]: the throttle (or brake) and the steer derived
    from it lie in their documented ranges, and the steer is zero or
    beyond the deadzone. *)
Definition derived_in_range (v : float) : bool :=
  let t := PyFloat.round2 ((v + 1.0) / 2.0) in
  let s := handle_steer_deadzone (PyFloat.round2 v) in
  ((0 <=? t) && (t <=? 1) && (-1 <=? s) && (s <=? 1)
   && ((s =? 0) || (s <? -0.16) || (0.16 <? s)))%float.

(** For two axis values [a] and [b]: if [a <= b], the throttle derived
    from [a] is at most the one derived from [b]. *)
Definition throttle_ordered (a b : float) : bool :=
  implb (a <=? b)%float
        (PyFloat.round2 ((a + 1.0) / 2.0) <=? PyFloat.round2 ((b + 1.0) / 2.0))%float.

(** The steer of a state is zero or beyond the deadzone. *)
Definition steer_clear_of_deadzone (s : ControllerState) : bool :=
  ((steer s =? 0) || (steer s <? -0.16) || (0.16 <? steer s))%float.

(** The loop of the main program over the publisher. *)
Fixpoint GamepadController_handle_events (evs : list event) : M GamepadController unit :=
  match evs with
  | [] => ret tt
  | ev :: rest =>
      GamepadController_handle_event ev ;;; GamepadController_handle_events rest
  end.

(** *** Examples *)

(** A callback that counts its calls. *)
Definition counting (_ : ControllerState) (calls : nat) : nat := S calls.

(** A new adapter for a joystick with six axes, thirteen buttons and one
    hat, and the state its handler passes on before any event. *)
Definition new_adapter {D} (callback : ControllerState -> D -> D) : _GamepadController D :=
  _GamepadController_init 6 13 1 (Some callback).

Definition rest_state : RawControllerState :=
  raw_state (ControllerEventHandler_init 6 13 1).

(** The state derived from [rest_state]. *)
Definition neutral : ControllerState :=
  {| throttle := 0; brake := 0; steer := 0;
     hand_brake := false; reverse := false; reset := false |}.

(** What the handler of that joystick holds with the given buttons down. *)
Definition pressed (buttons : list Z) : RawControllerState :=
  raw_state
    (fold_left (fun h button =>
                  match store_event h (JOYBUTTONDOWN button) with
                  | Some h' => h'
                  | None => h
                  end)
               buttons (ControllerEventHandler_init 6 13 1)).

(** What the handler of that joystick holds after one axis event. *)
Definition after_axis_event (axis : Z) (value : float) : RawControllerState :=
  match store_event (ControllerEventHandler_init 6 13 1) (JOYAXISMOTION axis value) with
  | Some h => raw_state h
  | None => raw_state (ControllerEventHandler_init 6 13 1)
  end.

(** A codec for the three floats of one state, to try [reads_back] on. *)
Definition table_repr (f : float) : string :=
  if (f =? 0.5)%float then "0.5"%string
  else if (f =? -0.25)%float then "-0.25"%string else "0.0"%string.

Definition table_float (s : string) : float :=
  if String.eqb s "0.5" then 0.5%float
  else if String.eqb s "-0.25" then (-0.25)%float else 0%float.

End controller.

(** ** controller_gamepad.py

    The stand-alone adapter.  Its class [GamepadController] has the four
    attributes of [controller._GamepadController], whose record it reuses;
    its two methods are translated from this file. *)

Module controller_gamepad.
Import controller.

Local Open Scope py_scope.

Section Adapter.

Context {D : Type}.

Abbreviation GamepadController := (_GamepadController D).

Definition _handle_callback (controller_state : RawControllerState)
  : M GamepadController ControllerState :=
  a5 <- lift (subscript (axis_data controller_state) 5) ;;
  let throttle :=
    match a5 with
    | Some v => PyFloat.round2 ((v + 1.0) / 2.0)
    | None => 0%float
    end in
  a4 <- lift (subscript (axis_data controller_state) 4) ;;
  let brake :=
    match a4 with
    | Some v => PyFloat.round2 ((v + 1.0) / 2.0)
    | None => 0%float
    end in
  a0 <- lift (subscript (axis_data controller_state) 0) ;;
  let steer :=
    match a0 with
    | Some v => PyFloat.round2 v
    | None => 0%float
    end in
  hand_brake <- lift (subscript (button_data controller_state) 0) ;;
  select_forward <- lift (subscript (button_data controller_state) 11) ;;
  select_reverse <- lift (subscript (button_data controller_state) 12) ;;
  (if select_forward then set_reverse false
   else if select_reverse then set_reverse true
   else ret tt) ;;;
  reset <- lift (subscript (button_data controller_state) 6) ;;
  check_callable ;;;
  rev <- gets _reverse ;;
  ret {| throttle := throttle; brake := brake;
         steer := handle_steer_deadzone steer;
         hand_brake := hand_brake; reverse := rev; reset := reset |}.

Definition _callback_wrapper (raw_controller_state : RawControllerState)
  : M (GamepadController * D) unit :=
  fun '(self, d) =>
    match _handle_callback raw_controller_state self with
    | (self, Raise e) => ((self, d), Raise e)
    | (self, Ok controller_state) =>
        if eq_optional controller_state (_last_controller_state self)
        then ((self, d), Ok tt)
        else
          match _callback self with
          | Some callback =>
              ((set_last_controller_state controller_state self,
                callback controller_state d), Ok tt)
          | None => ((self, d), Raise TypeError)
          end
    end.

End Adapter.

End controller_gamepad.

(** ** sensor.py *)

Module sensor.

(** The loop that both the frame callback and the encode stage run on
    their queue:
<<
    while not self._stop_event.is_set():
        try:
            q.put_nowait(x)
            break
        except Full:
            try:
                q.get_nowait()
            except Empty:
                pass
>>
    [put_nowait] raises nothing but [Full] and [get_nowait] nothing but
    [Empty].  The flag and the queue are those of a run without any other
    thread; [None] is a run that used up its fuel. *)
Fixpoint put_dropping_oldest {A} (fuel : nat) (stop : bool) (q : Queue.t A) (x : A)
  : option (Queue.t A) :=
  match fuel with
  | O => None
  | S fuel' =>
      if stop then Some q
      else
        match Queue.put_nowait q x with
        | Ok q' => Some q'
        | Raise _ =>
            match Queue.get_nowait q with
            | Ok (_, q') => put_dropping_oldest fuel' stop q' x
            | Raise _ => put_dropping_oldest fuel' stop q x
            end
        end
  end.

(** The same loop, one statement at a time, for runs in which other
    threads act between two statements. *)
Inductive put_pc : Type :=
| AtWhile     (* about to test the flag *)
| AtPut       (* about to call put_nowait *)
| AtEvict.    (* about to call get_nowait *)

(** One statement of the loop; [None] when the loop is left. *)
Definition put_step {A} (stop : bool) (q : Queue.t A) (x : A) (pc : put_pc)
  : Queue.t A * option put_pc :=
  match pc with
  | AtWhile => if stop then (q, None) else (q, Some AtPut)
  | AtPut =>
      match Queue.put_nowait q x with
      | Ok q' => (q', None)
      | Raise _ => (q, Some AtEvict)
      end
  | AtEvict =>
      match Queue.get_nowait q with
      | Ok (_, q') => (q', Some AtWhile)
      | Raise _ => (q, Some AtWhile)
      end
  end.

(** Statements of the loop in a row, with no other thread in between. *)
Fixpoint put_steps {A} (n : nat) (stop : bool) (q : Queue.t A) (x : A) (pc : option put_pc)
  : Queue.t A * option put_pc :=
  match n, pc with
  | S n', Some pc => let (q', pc') := put_step stop q x pc in put_steps n' stop q' x pc'
  | _, _ => (q, pc)
  end.

(** [get_nowait] until [Empty]: the items in the order a consumer gets
    them. *)
Fixpoint drain {A} (fuel : nat) (q : Queue.t A) : list A :=
  match fuel with
  | O => []
  | S fuel' =>
      match Queue.get_nowait q with
      | Ok (x, q') => x :: drain fuel' q'
      | Raise _ => []
      end
  end.

(** *** The pixel transforms *)

(** What the transforms read of a [carla.Image]: its size and its buffer,
    four bytes (blue, green, red, alpha) for each pixel, row after row. *)
Record carla_Image : Type := {
  width : nat;
  height : nat;
  raw_data : list Byte.byte
}.

(** [count] slices of [n] elements each, from the front of [l]. *)
Fixpoint chunks {A} (n count : nat) (l : list A) : list (list A) :=
  match count with
  | O => []
  | S count' => firstn n l :: chunks n count' (skipn n l)
  end.

(** [numpy.reshape(array, (d0, d1, d2))] of a flat array, in row-major
    order; [ValueError] when the sizes do not match. *)
Definition reshape3 {A} (d0 d1 d2 : nat) (array : list A)
  : result (list (list (list A))) :=
  if (length array =? d0 * d1 * d2)%nat
  then Ok (map (chunks d2 d1) (chunks (d1 * d2) d0 array))
  else Raise ValueError.

(** [numpy.frombuffer(image.raw_data, uint8)] is the buffer byte for
    byte. *)
Definition _carla_image_to_bgra_array (image : carla_Image)
  : result (list (list (list Byte.byte))) :=
  reshape3 (height image) (width image) 4 (raw_data image).

(** [array[:, :, :3]] keeps three channels of each pixel and
    [array[:, :, ::-1]] reverses them. *)
Definition _carla_image_to_rgb_array (image : carla_Image)
  : result (list (list (list Byte.byte))) :=
  match _carla_image_to_bgra_array image with
  | Ok array => Ok (map (map (fun pixel => rev (firstn 3 pixel))) array)
  | Raise e => Raise e
  end.

Section Sensor.

Context {Image Webp : Type}.

(** The codec, [_carla_image_to_webp_bytes]: numpy and PIL do the work. *)
Variable _carla_image_to_webp_bytes : Image -> Webp.

Record Sensor : Type := {
  _queue_size : Z;
  _host : string;
  _port : Z;
  _stop_event : bool;
  _carla_images : Queue.t Image;
  _webp_bytes : Queue.t Webp
}.

(** [Sensor.__init__]; the event of [Threader] starts cleared. *)
Definition Sensor_init (queue_size : Z) (host : string) (port : Z) : Sensor :=
  {| _queue_size := queue_size; _host := host; _port := port;
     _stop_event := false;
     _carla_images := Queue.new queue_size;
     _webp_bytes := Queue.new queue_size |}.

Definition set_carla_images (q : Queue.t Image) (self : Sensor) : Sensor :=
  {| _queue_size := _queue_size self; _host := _host self; _port := _port self;
     _stop_event := _stop_event self; _carla_images := q;
     _webp_bytes := _webp_bytes self |}.

Definition set_webp_bytes (q : Queue.t Webp) (self : Sensor) : Sensor :=
  {| _queue_size := _queue_size self; _host := _host self; _port := _port self;
     _stop_event := _stop_event self; _carla_images := _carla_images self;
     _webp_bytes := q |}.

Definition set_stop_event (self : Sensor) : Sensor :=
  {| _queue_size := _queue_size self; _host := _host self; _port := _port self;
     _stop_event := true; _carla_images := _carla_images self;
     _webp_bytes := _webp_bytes self |}.

(** The frame callback, run with no other thread. *)
Definition _add_image_to_carla_images_queue (fuel : nat) (self : Sensor) (image : Image)
  : option Sensor :=
  match put_dropping_oldest fuel (_stop_event self) (_carla_images self) image with
  | Some q => Some (set_carla_images q self)
  | None => None
  end.

(** The frame source delivers [images] one after the other. *)
Fixpoint deliver (fuel : nat) (self : Sensor) (images : list Image) : option Sensor :=
  match images with
  | [] => Some self
  | image :: rest =>
      match _add_image_to_carla_images_queue fuel self image with
      | Some self' => deliver fuel self' rest
      | None => None
      end
  end.

(** *** The three threads, statement by statement *)

(** The thread of the frame source. *)
Inductive callback_pc : Type :=
| CallbackIdle
| InCallback (pc : put_pc) (image : Image).

(** [_fill_webp_bytes_queue_from_carla_images_queue]. *)
Inductive fill_pc : Type :=
| FillWhile                                  (* about to test the flag *)
| FillGet                                    (* in get(timeout=1) *)
| FillConvert (carla_image : Image)          (* about to encode *)
| FillPut (pc : put_pc) (webp_bytes : Webp)  (* in the inner loop *)
| FillReturned.

(** [_send_datagrams_from_webp_bytes_queue]. *)
Inductive send_pc : Type :=
| SendWhile                                  (* about to test the flag *)
| SendGet                                    (* in get(timeout=1) *)
| SendCall (webp_bytes : Webp)               (* about to call send_datagram *)
| SendReturned
| SendDied (e : exn).                        (* an exception left the method *)

(** The sensor, its threads, and the two effects on the outside: the
    images encoded and the calls of [send_datagram], oldest first. *)
Record pipeline : Type := {
  self : Sensor;
  callback_thread : callback_pc;
  fill_thread : fill_pc;
  send_thread : send_pc;
  converted : list Image;
  datagrams : list (Webp * (string * Z))
}.

(** A started sensor: both workers at the head of their loop. *)
Definition started (s : Sensor) : pipeline :=
  {| self := s; callback_thread := CallbackIdle; fill_thread := FillWhile;
     send_thread := SendWhile; converted := []; datagrams := [] |}.

(** What happens next: [stop()] sets the event, the frame source calls the
    callback with a frame (it waits for the call before to return), or one
    of the three threads runs its next statement.  [answer] is what
    [send_datagram] does if the statement is the call. *)
Inductive action : Type :=
| SetStop
| Listen (image : Image)
| RunCallback
| RunFill
| RunSend (answer : result unit).

Definition run_callback (p : pipeline) : pipeline :=
  match callback_thread p with
  | CallbackIdle => p
  | InCallback pc image =>
      let (q, pc') := put_step (_stop_event (self p)) (_carla_images (self p)) image pc in
      {| self := set_carla_images q (self p);
         callback_thread :=
           match pc' with
           | Some pc' => InCallback pc' image
           | None => CallbackIdle
           end;
         fill_thread := fill_thread p; send_thread := send_thread p;
         converted := converted p; datagrams := datagrams p |}
  end.

Definition set_fill (s : Sensor) (pc : fill_pc) (done : list Image) (p : pipeline)
  : pipeline :=
  {| self := s; callback_thread := callback_thread p; fill_thread := pc;
     send_thread := send_thread p; converted := done; datagrams := datagrams p |}.

(** [Queue.get(timeout=1)] at the moment it returns: the oldest item, or
    [Empty] when the second went by with the queue empty.  The codec is a
    function: a call of it that raises ends the thread at [FillConvert],
    which is a schedule that gives the thread no turn from there on. *)
Definition run_fill (p : pipeline) : pipeline :=
  match fill_thread p with
  | FillWhile =>
      set_fill (self p) (if _stop_event (self p) then FillReturned else FillGet)
               (converted p) p
  | FillGet =>
      match Queue.get_nowait (_carla_images (self p)) with
      | Ok (carla_image, q) =>
          set_fill (set_carla_images q (self p)) (FillConvert carla_image) (converted p) p
      | Raise _ => set_fill (self p) FillWhile (converted p) p
      end
  | FillConvert carla_image =>
      set_fill (self p) (FillPut AtWhile (_carla_image_to_webp_bytes carla_image))
               (converted p ++ [carla_image]) p
  | FillPut pc webp_bytes =>
      let (q, pc') := put_step (_stop_event (self p)) (_webp_bytes (self p)) webp_bytes pc in
      set_fill (set_webp_bytes q (self p))
               match pc' with
               | Some pc' => FillPut pc' webp_bytes
               | None => FillWhile
               end
               (converted p) p
  | FillReturned => p
  end.

Definition set_send (s : Sensor) (pc : send_pc) (sent : list (Webp * (string * Z)))
  (p : pipeline) : pipeline :=
  {| self := s; callback_thread := callback_thread p; fill_thread := fill_thread p;
     send_thread := pc; converted := converted p; datagrams := sent |}.

Definition run_send (answer : result unit) (p : pipeline) : pipeline :=
  match send_thread p with
  | SendWhile =>
      set_send (self p) (if _stop_event (self p) then SendReturned else SendGet)
               (datagrams p) p
  | SendGet =>
      match Queue.get_nowait (_webp_bytes (self p)) with
      | Ok (webp_bytes, q) =>
          set_send (set_webp_bytes q (self p)) (SendCall webp_bytes) (datagrams p) p
      | Raise _ => set_send (self p) SendWhile (datagrams p) p
      end
  | SendCall webp_bytes =>
      set_send (self p)
               match answer with
               | Ok _ => SendWhile
               | Raise Full => SendWhile
               | Raise e => SendDied e
               end
               (datagrams p ++ [(webp_bytes, (_host (self p), _port (self p)))]) p
  | SendReturned => p
  | SendDied _ => p
  end.

Definition step (a : action) (p : pipeline) : pipeline :=
  match a with
  | SetStop =>
      {| self := set_stop_event (self p); callback_thread := callback_thread p;
         fill_thread := fill_thread p; send_thread := send_thread p;
         converted := converted p; datagrams := datagrams p |}
  | Listen image =>
      match callback_thread p with
      | CallbackIdle =>
          {| self := self p; callback_thread := InCallback AtWhile image;
             fill_thread := fill_thread p; send_thread := send_thread p;
             converted := converted p; datagrams := datagrams p |}
      | InCallback _ _ => p
      end
  | RunCallback => run_callback p
  | RunFill => run_fill p
  | RunSend answer => run_send answer p
  end.

(** A schedule, first action first. *)
Definition run (schedule : list action) (p : pipeline) : pipeline :=
  fold_left (fun p a => step a p) schedule p.

(** *** Notions the properties of the running pipeline are stated with *)

(** The frames a schedule hands to the callback, in order. *)
Fixpoint listened (schedule : list action) : list Image :=
  match schedule with
  | [] => []
  | Listen image :: rest => image :: listened rest
  | _ :: rest => listened rest
  end.

(** The frames inside the first stage, oldest first: those encoded, the
    one about to be, those in the queue, the one the callback holds. *)
Definition frames_in_flight (p : pipeline) : list Image :=
  converted p
  ++ match fill_thread p with
     | FillConvert carla_image => [carla_image]
     | _ => []
     end
  ++ Queue.items (_carla_images (self p))
  ++ match callback_thread p with
     | InCallback _ image => [image]
     | CallbackIdle => []
     end.

(** The payloads inside the second stage, oldest first: those handed to
    the sender, the one about to be, those in the queue, the one the
    encode stage holds. *)
Definition payloads_in_flight (p : pipeline) : list Webp :=
  map fst (datagrams p)
  ++ match send_thread p with
     | SendCall webp_bytes => [webp_bytes]
     | _ => []
     end
  ++ Queue.items (_webp_bytes (self p))
  ++ match fill_thread p with
     | FillPut _ webp_bytes => [webp_bytes]
     | _ => []
     end.

(** Both queues have capacity [n] and hold at most [n] items. *)
Definition queues_bounded (n : nat) (p : pipeline) : Prop :=
  Queue.maxsize (_carla_images (self p)) = Z.of_nat n
  /\ Queue.maxsize (_webp_bytes (self p)) = Z.of_nat n
  /\ (length (Queue.items (_carla_images (self p))) <= n)%nat
  /\ (length (Queue.items (_webp_bytes (self p))) <= n)%nat.

(** Every datagram goes to the given host and port, which are those of
    the sensor. *)
Definition addressed (host : string) (port : Z) (p : pipeline) : Prop :=
  _host (self p) = host /\ _port (self p) = port
  /\ Forall (fun d => snd d = (host, port)) (datagrams p).

(** Whether a schedule sets the flag. *)
Definition sets_stop (schedule : list action) : bool :=
  existsb (fun a => match a with SetStop => true | _ => false end) schedule.

(** *** Notions the shutdown property is stated with *)

Definition stopped (p : pipeline) : Prop := _stop_event (self p) = true.

(** How many of its own statements a worker still runs once the flag is
    set, at most. *)
Definition fill_rank (pc : fill_pc) : nat :=
  match pc with
  | FillReturned => 0
  | FillWhile => 1
  | FillPut AtWhile _ => 2
  | FillPut AtEvict _ => 3
  | FillPut AtPut _ => 4
  | FillConvert _ => 3
  | FillGet => 4
  end.

Definition send_rank (pc : send_pc) : nat :=
  match pc with
  | SendReturned | SendDied _ => 0
  | SendWhile => 1
  | SendCall _ => 2
  | SendGet => 3
  end.

(** How many encodes, and how many sends, a worker can still make once
    the flag is set: one when it is past the test of the flag and before
    the effect, none otherwise. *)
Definition fill_pending (pc : fill_pc) : nat :=
  match pc with
  | FillGet | FillConvert _ => 1
  | _ => 0
  end.

Definition send_pending (pc : send_pc) : nat :=
  match pc with
  | SendGet | SendCall _ => 1
  | _ => 0
  end.

(** The callback thread is not between the test of the flag and the end
    of the loop. *)
Definition callback_at_head (pc : callback_pc) : bool :=
  match pc with
  | CallbackIdle | InCallback AtWhile _ => true
  | InCallback _ _ => false
  end.

(** The turns a schedule gives to each worker. *)
Definition fill_turns (schedule : list action) : nat :=
  length (List.filter (fun a => match a with RunFill => true | _ => false end) schedule).

Definition send_turns (schedule : list action) : nat :=
  length (List.filter (fun a => match a with RunSend _ => true | _ => false end) schedule).

End Sensor.

Arguments Sensor : clear implicits.
Arguments pipeline : clear implicits.
Arguments action : clear implicits.
Arguments callback_pc : clear implicits.
Arguments fill_pc : clear implicits.
Arguments send_pc : clear implicits.

(** A sensor with queues of two, for a codec that is the identity. *)
Definition sensor2 : Sensor nat nat := Sensor_init 2 "host" 9000.

End sensor.

(** * Properties *)

(** ** The drop-oldest queue *)

Section QueueFacts.

Context {A : Type}.
Implicit Types (q : Queue.t A) (x : A) (l : list A).

Import Queue.

Lemma lastn_all (n : nat) l : (length l <= n)%nat -> lastn n l = l.
Proof. intros H. unfold lastn. replace (length l - n)%nat with 0%nat by lia. reflexivity. Qed.

Lemma lastn_app (n : nat) l1 l2 :
  (n <= length l2)%nat -> lastn n (l1 ++ l2) = lastn n l2.
Proof.
  intros H. unfold lastn. rewrite length_app, skipn_app, skipn_all2 by lia.
  simpl. f_equal. lia.
Qed.

Lemma lastn_lastn_app (n : nat) l1 l2 :
  lastn n (lastn n l1 ++ l2) = lastn n (l1 ++ l2).
Proof.
  destruct (le_lt_dec (length l1) n) as [Hle | Hgt].
  - rewrite (lastn_all n l1) by exact Hle. reflexivity.
  - unfold lastn. rewrite !length_app, length_skipn.
    replace (length l1 - (length l1 - n) + length l2 - n)%nat with (length l2) by lia.
    replace (length l1 + length l2 - n)%nat with (length l2 + (length l1 - n))%nat by lia.
    rewrite <- skipn_skipn. f_equal.
    rewrite skipn_app. replace (length l1 - n - length l1)%nat with 0%nat by lia.
    reflexivity.
Qed.

Lemma length_lastn (n : nat) l : (length (lastn n l) <= n)%nat.
Proof. unfold lastn. rewrite length_skipn. lia. Qed.

(** One run of the loop with the flag clear: the item goes in, after the
    oldest one has gone out when the queue was full. *)
Lemma put_dropping_oldest_clear (fuel : nat) (n : nat) q x :
  (1 <= n)%nat -> Queue.maxsize q = Z.of_nat n -> (length (Queue.items q) <= n)%nat ->
  sensor.put_dropping_oldest (S (S fuel)) false q x
  = Some (Queue.mk (Queue.maxsize q) (lastn n (Queue.items q ++ [x]))).
Proof.
  intros Hn Hmax Hlen. destruct q as [m l]. simpl in *. subst m.
  unfold Queue.put_nowait, Queue.full, Queue.qsize. simpl.
  destruct (Z.of_nat n <=? Z.of_nat (length l)) eqn:Hfull.
  - apply Z.leb_le in Hfull. assert (length l = n) by lia.
    replace (0 <? Z.of_nat n) with true by (symmetry; apply Z.ltb_lt; lia). simpl.
    unfold Queue.get_nowait. simpl. destruct l as [|y l']; [simpl in *; lia|].
    simpl. replace (0 <? Z.of_nat n) with true by (symmetry; apply Z.ltb_lt; lia).
    replace (Z.of_nat n <=? Z.of_nat (length l')) with false
      by (symmetry; apply Z.leb_gt; simpl in *; lia).
    simpl. f_equal. f_equal. unfold lastn. simpl length. rewrite length_app. simpl in *.
    replace (S (length l' + 1) - n)%nat with 1%nat by lia. reflexivity.
  - apply Z.leb_gt in Hfull. rewrite andb_false_r. f_equal. f_equal.
    symmetry. apply lastn_all. rewrite length_app. simpl. lia.
Qed.

End QueueFacts.

Section SensorQueue.

Context {Image Webp : Type}.
Implicit Types (self : sensor.Sensor Image Webp) (images : list Image).

Lemma deliver_clear (fuel n : nat) images self :
  (1 <= n)%nat ->
  sensor._stop_event self = false ->
  Queue.maxsize (sensor._carla_images self) = Z.of_nat n ->
  (length (Queue.items (sensor._carla_images self)) <= n)%nat ->
  sensor.deliver (S (S fuel)) self images
  = Some (sensor.set_carla_images
            (Queue.mk (Z.of_nat n)
               (Queue.lastn n (Queue.items (sensor._carla_images self) ++ images)))
            self).
Proof.
  intros Hn. revert self. induction images as [|image rest IH]; intros self Hstop Hmax Hlen.
  - simpl. rewrite app_nil_r, lastn_all by exact Hlen.
    destruct self as [qs h p st [m l] w]. simpl in *. subst. reflexivity.
  - simpl. unfold sensor._add_image_to_carla_images_queue. rewrite Hstop.
    rewrite (put_dropping_oldest_clear fuel n) by assumption.
    rewrite IH; simpl; try assumption; try apply length_lastn.
    + unfold sensor.set_carla_images. simpl. f_equal. f_equal. f_equal.
      rewrite lastn_lastn_app, <- app_assoc. reflexivity.
Qed.

End SensorQueue.


Lemma drain_items {A} (q : Queue.t A) :
  sensor.drain (length (Queue.items q)) q = Queue.items q.
Proof.
  destruct q as [m l]. simpl. induction l as [|x l IH]; simpl; [reflexivity|].
  unfold Queue.get_nowait. simpl. f_equal. exact IH.
Qed.

(** C1. Pushing at least [N >= 1] frames, with the stop flag clear and no
    consumer running, into a raw-image queue of capacity [N] that holds at
    most [N] items makes every push return and leaves exactly the last [N]
    frames pushed, oldest first; frames 1, 2, 3 pushed into an empty queue
    of capacity 2 drain as [2; 3]. *)
Theorem C1_drop_oldest_keeps_last_N {Image Webp : Type} (N fuel : nat)
  (self : sensor.Sensor Image Webp) (images : list Image) :
  (1 <= N)%nat ->
  sensor._stop_event self = false ->
  Queue.maxsize (sensor._carla_images self) = Z.of_nat N ->
  (length (Queue.items (sensor._carla_images self)) <= N)%nat ->
  (N <= length images)%nat ->
  (2 <= fuel)%nat ->
  (exists self',
     sensor.deliver fuel self images = Some self'
     /\ Queue.items (sensor._carla_images self') = Queue.lastn N images
     /\ sensor.drain N (sensor._carla_images self') = Queue.lastn N images
     /\ Queue.maxsize (sensor._carla_images self') = Z.of_nat N
     /\ sensor._webp_bytes self' = sensor._webp_bytes self)
  /\ option_map (fun s => sensor.drain 2 (sensor._carla_images s))
       (sensor.deliver 2 (sensor.Sensor_init (Webp := unit) 2 "host" 9000)
          [1%nat; 2%nat; 3%nat])
     = Some [2%nat; 3%nat].
Proof.
  intros HN Hstop Hmax Hlen Himg Hfuel. split.
  - destruct fuel as [|[|fuel]]; try lia.
    eexists. split; [apply (deliver_clear fuel N); assumption|].
    simpl. rewrite lastn_app by exact Himg.
    assert (HlenN : length (Queue.lastn N images) = N).
    { unfold Queue.lastn. rewrite length_skipn. lia. }
    repeat split.
    pose proof (drain_items (Queue.mk (Z.of_nat N) (Queue.lastn N images))) as Hd.
    simpl in Hd. rewrite HlenN in Hd. exact Hd.
  - reflexivity.
Qed.

Lemma C1_witness :
  exists self',
    sensor.deliver 2 (sensor.Sensor_init (Image := nat) (Webp := unit) 2 "host" 9000)
      [1%nat; 2%nat; 3%nat] = Some self'
    /\ Queue.items (sensor._carla_images self') = [2%nat; 3%nat].
Proof.
  destruct (C1_drop_oldest_keeps_last_N 2 2
              (sensor.Sensor_init (Image := nat) (Webp := unit) 2 "host" 9000)
              [1%nat; 2%nat; 3%nat]) as [[self' (H1 & H2 & _)] _];
    [lia | reflexivity | reflexivity | simpl; lia | simpl; lia | lia |].
  exists self'. split; [exact H1 | exact H2].
Defined.


(** ** Floats *)

Lemma digits2_pos_bound (m : positive) : Zpos m < 2 ^ Zpos (digits2_pos m).
Proof.
  induction m as [m IH | m IH |]; simpl digits2_pos.
  - rewrite Pos2Z.inj_succ, Z.pow_succ_r by lia. lia.
  - rewrite Pos2Z.inj_succ, Z.pow_succ_r by lia. lia.
  - reflexivity.
Qed.

Lemma canonical_mantissa_bound (m : positive) (e : Z) :
  canonical_mantissa prec emax m e = true -> Zpos m < 2 ^ 53.
Proof.
  unfold canonical_mantissa, fexp, SpecFloat.emin, prec, emax. intros H.
  apply Z.eqb_eq in H.
  pose proof (digits2_pos_bound m) as Hd.
  assert (Hle : Zpos (digits2_pos m) <= 53) by lia.
  eapply Z.lt_le_trans; [exact Hd|].
  apply Z.pow_le_mono_r; lia.
Qed.

Lemma round_half_even_div_le (a b k : Z) :
  0 < b -> 0 <= a -> a <= k * b -> 0 <= PyFloat.round_half_even_div a b <= k.
Proof.
  intros Hb Ha Hk. unfold PyFloat.round_half_even_div.
  pose proof (Z.div_mod a b ltac:(lia)) as Hdm.
  pose proof (Z.mod_pos_bound a b Hb) as Hr.
  assert (Hq0 : 0 <= a / b) by (apply Z.div_pos; lia).
  assert (Hqk : a / b <= k) by (apply Z.div_le_upper_bound; lia).
  assert (Hstrict : a / b = k -> a mod b = 0) by nia.
  destruct (2 * (a mod b) ?= b) eqn:C.
  - apply Z.compare_eq in C. destruct (Z.even (a / b)); [lia|].
    split; [lia|]. destruct (Z.eq_dec (a / b) k) as [E|E]; [specialize (Hstrict E)|]; lia.
  - lia.
  - apply Z.compare_gt_iff in C. split; [lia|].
    destruct (Z.eq_dec (a / b) k) as [E|E]; [specialize (Hstrict E)|]; lia.
Qed.

Lemma Prim2SF_one : Prim2SF 1%float = S754_finite false 4503599627370496 (-52).
Proof. reflexivity. Qed.
Lemma Prim2SF_minus_one : Prim2SF (-1)%float = S754_finite true 4503599627370496 (-52).
Proof. reflexivity. Qed.

Lemma hundredths_unit (m : positive) (e : Z) :
  canonical_mantissa prec emax m e = true ->
  (e < -52 \/ (e = -52 /\ Zpos m <= 4503599627370496)) ->
  0 <= PyFloat.hundredths m e <= 100.
Proof.
  intros Hc Hle. apply canonical_mantissa_bound in Hc.
  unfold PyFloat.hundredths. destruct (0 <=? e) eqn:E0; [apply Z.leb_le in E0; lia|].
  apply round_half_even_div_le; [apply Z.pow_pos_nonneg; lia | lia |].
  destruct Hle as [Hlt | [-> Hm]].
  - assert (2 ^ 53 <= 2 ^ (- e)) by (apply Z.pow_le_mono_r; lia). nia.
  - change (2 ^ (- -52)) with 4503599627370496. lia.
Qed.

Lemma compare_cont_le (m k : positive) :
  match Pos.compare_cont Eq m k with Gt => false | _ => true end = true ->
  Zpos m <= Zpos k.
Proof.
  intros H. apply Pos2Z.pos_le_pos. unfold Pos.le, Pos.compare.
  destruct (Pos.compare_cont Eq m k); [discriminate | discriminate | discriminate H].
Qed.

Lemma compare_cont_ge (m k : positive) :
  match CompOpp (Pos.compare_cont Eq k m) with Gt => false | _ => true end = true ->
  Zpos m <= Zpos k.
Proof.
  rewrite Pos.compare_cont_antisym. simpl CompOpp. apply compare_cont_le.
Qed.

Lemma normalized_hundredths (x : float) (s : bool) (m : positive) (e : Z) :
  PyFloat.normalized x = true -> Prim2SF x = S754_finite s m e ->
  0 <= PyFloat.hundredths m e <= 100.
Proof.
  unfold PyFloat.normalized. rewrite andb_true_iff, !FloatAxioms.leb_spec, Prim2SF_one, Prim2SF_minus_one.
  intros [Hlo Hhi] E. pose proof (Prim2SF_valid x) as Hv. rewrite E in *.
  simpl in Hv. unfold bounded in Hv. apply andb_true_iff in Hv as [Hc _].
  apply hundredths_unit; [exact Hc|].
  unfold SFleb, SFcompare in Hlo, Hhi. destruct s.
  - clear Hhi. destruct (-52 ?= e) eqn:Ce; try discriminate.
    + apply Z.compare_eq in Ce. right. split; [lia|].
      apply compare_cont_ge.
      destruct (CompOpp (Pos.compare_cont Eq 4503599627370496 m));
        [reflexivity | reflexivity | discriminate].
    + left. apply Z.compare_gt_iff. exact Ce.
  - clear Hlo. destruct (e ?= -52) eqn:Ce; try discriminate.
    + apply Z.compare_eq in Ce. right. split; [lia|].
      apply compare_cont_le.
      destruct (Pos.compare_cont Eq m 4503599627370496); [reflexivity | reflexivity | discriminate].
    + left. apply Z.compare_lt_iff. exact Ce.
Qed.

Lemma nearest_hundredth_grid (s : bool) (n : Z) :
  0 <= n <= 100 -> In (PyFloat.nearest_hundredth s n) PyFloat.normalized_grid.
Proof.
  intros Hn. unfold PyFloat.normalized_grid. apply in_flat_map.
  exists (Z.to_nat n). split; [apply in_seq; lia|].
  rewrite Z2Nat.id by lia. destruct s; [right; left | left]; reflexivity.
Qed.

Lemma py_round2_normalized (x : float) :
  PyFloat.normalized x = true -> In (PyFloat.round2 x) PyFloat.normalized_grid.
Proof.
  intros Hn. unfold PyFloat.round2. destruct (Prim2SF x) as [s | s | | s m e] eqn:E.
  - rewrite <- (SF2Prim_Prim2SF x), E.
    destruct s; [apply (nearest_hundredth_grid true 0) | apply (nearest_hundredth_grid false 0)]; lia.
  - unfold PyFloat.normalized in Hn. rewrite andb_true_iff, !FloatAxioms.leb_spec, E in Hn.
    destruct Hn as [H1 H2]. destruct s; discriminate.
  - unfold PyFloat.normalized in Hn. rewrite andb_true_iff, !FloatAxioms.leb_spec, E in Hn.
    destruct Hn as [H1 H2]. discriminate.
  - apply nearest_hundredth_grid. eapply normalized_hundredths; eauto.
Qed.

(** [==] on floats is symmetric and transitive. *)
Lemma SFeqb_finite (s1 s2 : bool) (m1 m2 : positive) (e1 e2 : Z) :
  SFeqb (S754_finite s1 m1 e1) (S754_finite s2 m2 e2) = true ->
  s1 = s2 /\ m1 = m2 /\ e1 = e2.
Proof.
  unfold SFeqb, SFcompare.
  destruct s1, s2; try discriminate;
    destruct (Z.compare_spec e1 e2) as [He | He | He]; try discriminate;
    destruct (Pos.compare_cont Eq m1 m2) eqn:C; try discriminate;
    intros _; apply Pos.compare_eq in C; auto.
Qed.

Lemma SFeqb_sym (x y : spec_float) : SFeqb x y = true -> SFeqb y x = true.
Proof.
  destruct x as [s1 | s1 | | s1 m1 e1], y as [s2 | s2 | | s2 m2 e2];
    try (destruct s1; discriminate); try (destruct s2; discriminate);
    try discriminate; try reflexivity.
  - destruct s1, s2; try discriminate; reflexivity.
  - intros H. pose proof (SFeqb_finite _ _ _ _ _ _ H) as (-> & -> & ->). exact H.
Qed.

Lemma SFeqb_trans (x y z : spec_float) :
  SFeqb x y = true -> SFeqb y z = true -> SFeqb x z = true.
Proof.
  destruct x as [s1 | s1 | | s1 m1 e1], y as [s2 | s2 | | s2 m2 e2];
    try (destruct s1; discriminate); try (destruct s2; discriminate);
    try discriminate.
  - destruct z as [s3 | s3 | | s3 m3 e3]; try discriminate; try (destruct s3; discriminate).
    reflexivity.
  - destruct s1, s2; try discriminate; auto.
  - intros H. pose proof (SFeqb_finite _ _ _ _ _ _ H) as (-> & -> & ->). auto.
Qed.

Lemma float_eqb_sym (x y : float) : (x =? y)%float = true -> (y =? x)%float = true.
Proof. rewrite !FloatAxioms.eqb_spec. apply SFeqb_sym. Qed.

Lemma float_eqb_trans (x y z : float) :
  (x =? y)%float = true -> (y =? z)%float = true -> (x =? z)%float = true.
Proof. rewrite !FloatAxioms.eqb_spec. apply SFeqb_trans. Qed.


Section ControllerProofs.

Import controller.
Local Open Scope py_scope.


Lemma ControllerState_eqb_sym (a b : ControllerState) :
  ControllerState_eqb a b = true -> ControllerState_eqb b a = true.
Proof.
  unfold ControllerState_eqb. rewrite !andb_true_iff.
  intros (((((H1 & H2) & H3) & H4) & H5) & H6).
  apply Bool.eqb_prop in H4, H5, H6. rewrite H4, H5, H6, !Bool.eqb_reflx.
  repeat split; apply float_eqb_sym; assumption.
Qed.

Lemma ControllerState_eqb_trans (a b c : ControllerState) :
  ControllerState_eqb a b = true -> ControllerState_eqb b c = true ->
  ControllerState_eqb a c = true.
Proof.
  unfold ControllerState_eqb. rewrite !andb_true_iff.
  intros (((((H1 & H2) & H3) & H4) & H5) & H6) (((((G1 & G2) & G3) & G4) & G5) & G6).
  apply Bool.eqb_prop in H4, H5, H6. rewrite H4, H5, H6.
  repeat split; try assumption; eapply float_eqb_trans; eassumption.
Qed.

(** ** The steer deadzone *)

(** C4. A steer value [x] with [-0.16 <= x <= 0.16] becomes exactly [0.0];
    any other value, [0.17] and [-0.17] among them, is returned unchanged. *)
Theorem C4_steer_deadzone (x : float) :
  ((-0.16 <=? x)%float = true -> (x <=? 0.16)%float = true ->
   handle_steer_deadzone x = 0%float)
  /\ ((-0.16 <=? x)%float = false \/ (x <=? 0.16)%float = false ->
      handle_steer_deadzone x = x)
  /\ handle_steer_deadzone 0.17 = 0.17%float
  /\ handle_steer_deadzone (-0.17) = (-0.17)%float
  /\ handle_steer_deadzone 0.16 = 0%float
  /\ handle_steer_deadzone (-0.16) = 0%float.
Proof.
  unfold handle_steer_deadzone. repeat split.
  - intros -> ->. reflexivity.
  - intros [-> | ->]; [reflexivity | rewrite andb_false_r; reflexivity].
Qed.

Lemma C4_witness :
  handle_steer_deadzone 0.1 = 0%float /\ handle_steer_deadzone 0.5 = 0.5%float.
Proof.
  split.
  - apply (C4_steer_deadzone 0.1); reflexivity.
  - apply (C4_steer_deadzone 0.5). right. reflexivity.
Defined.

(** ** The input adapter *)

Section AdapterFacts.

Context {D : Type}.
Implicit Types (self : _GamepadController D) (raw : RawControllerState).

(** With the seven entries that the derivation subscripts present and a
    callable callback, the derivation returns; this is its result. *)
Lemma _handle_callback_ok raw self (a5 a4 a0 : option float) (b0 b11 b12 b6 : bool) cb :
  axis_data raw !! 5 = Some a5 -> axis_data raw !! 4 = Some a4 ->
  axis_data raw !! 0 = Some a0 ->
  button_data raw !! 0 = Some b0 -> button_data raw !! 11 = Some b11 ->
  button_data raw !! 12 = Some b12 -> button_data raw !! 6 = Some b6 ->
  _callback self = Some cb ->
  let rev := if b11 then false else if b12 then true else _reverse self in
  _handle_callback raw self
  = (with_reverse rev self,
     Ok {| throttle := match a5 with
                       | Some v => PyFloat.round2 ((v + 1.0) / 2.0)
                       | None => 0%float
                       end;
           brake := match a4 with
                    | Some v => PyFloat.round2 ((v + 1.0) / 2.0)
                    | None => 0%float
                    end;
           steer := handle_steer_deadzone match a0 with
                                          | Some v => PyFloat.round2 v
                                          | None => 0%float
                                          end;
           hand_brake := b0; reverse := rev; reset := b6 |}).
Proof.
  intros H5 H4 H0 G0 G11 G12 G6 Hcb.
  unfold _handle_callback, bind, lift, subscript.
  rewrite H5, H4, H0, G0, G11, G12, G6.
  destruct self as [c h r l]. simpl in *. subst c.
  destruct b11, b12; reflexivity.
Qed.

(** The two adapter classes run the same derivation and the same wrapper. *)
Lemma controller_gamepad_handle_callback raw self :
  controller_gamepad._handle_callback raw self = _handle_callback raw self.
Proof. reflexivity. Qed.

Lemma controller_gamepad_callback_wrapper raw (w : _GamepadController D * D) :
  controller_gamepad._callback_wrapper raw w = _callback_wrapper raw w.
Proof. reflexivity. Qed.

(** The derivation reads the axes and the buttons, never the hats. *)
Lemma _handle_callback_hats raw1 raw2 self :
  axis_data raw1 = axis_data raw2 -> button_data raw1 = button_data raw2 ->
  _handle_callback raw1 self = _handle_callback raw2 self.
Proof.
  destruct raw1, raw2. simpl. intros -> ->. reflexivity.
Qed.

(** The derivation changes [_reverse] only, and what it returns reads
    nothing else of the adapter than [_reverse] and whether the callback is
    callable. *)
Lemma _handle_callback_state raw self self' r :
  _handle_callback raw self = (self', r) ->
  exists b, self' = with_reverse b self.
Proof.
  destruct self as [cb h rv l].
  unfold _handle_callback, bind, lift, subscript.
  repeat match goal with
         | |- context [ match ?d !! ?k with _ => _ end ] => destruct (d !! k)
         end.
  all: repeat match goal with
         | |- context [ if ?b then _ else _ ] => destruct b
         end.
  all: destruct cb; cbv [check_callable bind gets ret raise set_reverse modify
                         with_reverse _callback _handler _reverse
                         _last_controller_state].
  all: intros H; inversion H; subst; eexists; reflexivity.
Qed.

End AdapterFacts.

(** C5. With the entries it reads present, the derivation returns a state
    whose [reverse] is false when button 11 is pressed (button 12 pressed
    or not), true when button 12 alone is pressed, and the value the update
    before left in [_reverse] otherwise; that value is what it leaves in
    [_reverse] for the next update.  Both adapter classes do so. *)
Theorem C5_reverse_sticky {D : Type} (raw : RawControllerState)
  (self : _GamepadController D) (a5 a4 a0 : option float) (b0 b11 b12 b6 : bool) cb :
  axis_data raw !! 5 = Some a5 -> axis_data raw !! 4 = Some a4 ->
  axis_data raw !! 0 = Some a0 ->
  button_data raw !! 0 = Some b0 -> button_data raw !! 11 = Some b11 ->
  button_data raw !! 12 = Some b12 -> button_data raw !! 6 = Some b6 ->
  _callback self = Some cb ->
  exists cs self',
    _handle_callback raw self = (self', Ok cs)
    /\ controller_gamepad._handle_callback raw self = (self', Ok cs)
    /\ reverse cs = (if b11 then false else if b12 then true else _reverse self)
    /\ _reverse self' = reverse cs.
Proof.
  intros H5 H4 H0 G0 G11 G12 G6 Hcb.
  pose proof (_handle_callback_ok raw self _ _ _ _ _ _ _ _ H5 H4 H0 G0 G11 G12 G6 Hcb) as H.
  cbv zeta in H. do 2 eexists.
  split; [exact H|]. split; [exact H|]. split; reflexivity.
Qed.

Lemma C5_witness :
  let self0 := new_adapter _set_controller_state in
  let self1 := fst (_handle_callback (pressed [12]) self0) in
  let self2 := fst (_handle_callback (pressed []) self1) in
  (exists cs self',
      _handle_callback (pressed [12]) self0 = (self', Ok cs)
      /\ reverse cs = true /\ _reverse self' = true)
  /\ (exists cs self',
         _handle_callback (pressed []) self1 = (self', Ok cs)
         /\ reverse cs = true /\ _reverse self' = true)
  /\ (exists cs self',
         _handle_callback (pressed [11; 12]) self2 = (self', Ok cs)
         /\ reverse cs = false /\ _reverse self' = false)
  /\ (exists cs self',
         _handle_callback (pressed [11]) self2 = (self', Ok cs)
         /\ reverse cs = false /\ _reverse self' = false).
Proof.
  intros self0 self1 self2. split; [|split; [|split]].
  - destruct (C5_reverse_sticky (pressed [12]) self0
                None None None false false true false _set_controller_state)
      as (cs & self' & H1 & _ & H3 & H4); try reflexivity.
    exists cs, self'. rewrite H4, H3. auto.
  - destruct (C5_reverse_sticky (pressed []) self1
                None None None false false false false _set_controller_state)
      as (cs & self' & H1 & _ & H3 & H4); try reflexivity.
    exists cs, self'. rewrite H4, H3. auto.
  - destruct (C5_reverse_sticky (pressed [11; 12]) self2
                None None None false true true false _set_controller_state)
      as (cs & self' & H1 & _ & H3 & H4); try reflexivity.
    exists cs, self'. rewrite H4, H3. auto.
  - destruct (C5_reverse_sticky (pressed [11]) self2
                None None None false true false false _set_controller_state)
      as (cs & self' & H1 & _ & H3 & H4); try reflexivity.
    exists cs, self'. rewrite H4, H3. auto.
Defined.

(** ** Throttle *)

Lemma grid_throttle_in_unit :
  forallb throttle_in_unit PyFloat.normalized_grid = true.
Proof. vm_compute. reflexivity. Qed.

Lemma throttle_of_normalized (v0 : float) :
  PyFloat.normalized v0 = true ->
  let v := PyFloat.round2 v0 in
  let t := PyFloat.round2 ((v + 1.0) / 2.0) in
  t = PyFloat.round2 (clamp01 ((v + 1.0) / 2.0))
  /\ (0 <=? t)%float = true /\ (t <=? 1)%float = true.
Proof.
  intros Hn v t. pose proof (py_round2_normalized v0 Hn) as Hin.
  pose proof grid_throttle_in_unit as Hall. rewrite forallb_forall in Hall.
  specialize (Hall _ Hin). unfold throttle_in_unit in Hall. fold v in Hall.
  cbv zeta in Hall. rewrite !andb_true_iff, !negb_true_iff in Hall.
  destruct Hall as (((H1 & H2) & H3) & H4).
  subst t. unfold clamp01. rewrite H1, H2. auto.
Qed.

(** C8. With the entries it reads present, the derivation returns, and
    its throttle is [0.0] when axis 5 holds [None].  When the axis holds a
    value that the event handler stored from an event value between -1 and
    1, the throttle is [clamp01((axis + 1)/2)] rounded to two decimals; in
    both cases it lies between 0 and 1.  The code computes
    [round((axis + 1.0) / 2.0, 2)] and has no clamp of its own: within the
    interface half the shifted value is never outside 0 to 1. *)
Theorem C8_throttle {D : Type} (raw : RawControllerState)
  (self : _GamepadController D) (a5 a4 a0 : option float) (b0 b11 b12 b6 : bool) cb :
  axis_data raw !! 5 = Some a5 -> axis_data raw !! 4 = Some a4 ->
  axis_data raw !! 0 = Some a0 ->
  button_data raw !! 0 = Some b0 -> button_data raw !! 11 = Some b11 ->
  button_data raw !! 12 = Some b12 -> button_data raw !! 6 = Some b6 ->
  _callback self = Some cb ->
  exists cs self',
    _handle_callback raw self = (self', Ok cs)
    /\ (a5 = None ->
        throttle cs = 0%float
        /\ (0 <=? throttle cs)%float = true /\ (throttle cs <=? 1)%float = true)
    /\ (forall v, a5 = Some v -> throttle cs = PyFloat.round2 ((v + 1.0) / 2.0))
    /\ (forall v0, a5 = Some (PyFloat.round2 v0) -> PyFloat.normalized v0 = true ->
        throttle cs = PyFloat.round2 (clamp01 ((PyFloat.round2 v0 + 1.0) / 2.0))
        /\ (0 <=? throttle cs)%float = true /\ (throttle cs <=? 1)%float = true).
Proof.
  intros H5 H4 H0 G0 G11 G12 G6 Hcb.
  pose proof (_handle_callback_ok raw self _ _ _ _ _ _ _ _ H5 H4 H0 G0 G11 G12 G6 Hcb) as H.
  cbv zeta in H. do 2 eexists. split; [exact H|]. simpl.
  split; [intros ->; repeat split|]. split; [intros v ->; reflexivity|].
  intros v0 -> Hn. apply throttle_of_normalized. exact Hn.
Qed.

Lemma C8_witness :
  (exists cs self',
      _handle_callback (after_axis_event 5 0.5)
        (_GamepadController_init 6 13 1 (Some _set_controller_state)) = (self', Ok cs)
      /\ throttle cs = 0.75%float
      /\ throttle cs = PyFloat.round2 (clamp01 ((PyFloat.round2 0.5 + 1.0) / 2.0))
      /\ (0 <=? throttle cs)%float = true /\ (throttle cs <=? 1)%float = true)
  /\ (exists cs self',
         _handle_callback (after_axis_event 5 (-1))
           (_GamepadController_init 6 13 1 (Some _set_controller_state)) = (self', Ok cs)
         /\ throttle cs = 0%float)
  /\ (exists cs self',
         _handle_callback (after_axis_event 5 1)
           (_GamepadController_init 6 13 1 (Some _set_controller_state)) = (self', Ok cs)
         /\ throttle cs = 1%float).
Proof.
  split; [|split].
  - destruct (C8_throttle (after_axis_event 5 0.5)
                (_GamepadController_init 6 13 1 (Some _set_controller_state))
                (Some (PyFloat.round2 0.5)) None None false false false false
                _set_controller_state)
      as (cs & self' & H1 & _ & H3 & H4); try reflexivity.
    exists cs, self'. split; [exact H1|]. split.
    + rewrite (H3 _ eq_refl). reflexivity.
    + apply (H4 0.5%float); reflexivity.
  - destruct (C8_throttle (after_axis_event 5 (-1))
                (_GamepadController_init 6 13 1 (Some _set_controller_state))
                (Some (PyFloat.round2 (-1))) None None false false false false
                _set_controller_state)
      as (cs & self' & H1 & _ & _ & H4); try reflexivity.
    exists cs, self'. split; [exact H1|].
    destruct (H4 (-1)%float eq_refl eq_refl) as [-> _]. reflexivity.
  - destruct (C8_throttle (after_axis_event 5 1)
                (_GamepadController_init 6 13 1 (Some _set_controller_state))
                (Some (PyFloat.round2 1)) None None false false false false
                _set_controller_state)
      as (cs & self' & H1 & _ & _ & H4); try reflexivity.
    exists cs, self'. split; [exact H1|].
    destruct (H4 1%float eq_refl eq_refl) as [-> _]. reflexivity.
Defined.

(** Outside the interface nothing clamps: an axis value of 3.0 gives the
    throttle 2.0. *)
Lemma throttle_outside_interface :
  throttle_in_unit 3 = false
  /\ snd (_handle_callback (after_axis_event 5 3)
            (_GamepadController_init 6 13 1 (Some _set_controller_state)))
     = Ok {| throttle := 2; brake := 0; steer := 0;
             hand_brake := false; reverse := false; reset := false |}.
Proof. split; vm_compute; reflexivity. Qed.

(** ** Deduplication *)

Section Dedup.

Context {D : Type}.
Implicit Types (self : _GamepadController D) (raw : RawControllerState) (d : D).

(** A derivation that returned found the seven entries and a callable
    callback. *)
Lemma _handle_callback_inv raw self self' cs :
  _handle_callback raw self = (self', Ok cs) ->
  exists (a5 a4 a0 : option float) (b0 b11 b12 b6 : bool) cb,
    axis_data raw !! 5 = Some a5 /\ axis_data raw !! 4 = Some a4
    /\ axis_data raw !! 0 = Some a0
    /\ button_data raw !! 0 = Some b0 /\ button_data raw !! 11 = Some b11
    /\ button_data raw !! 12 = Some b12 /\ button_data raw !! 6 = Some b6
    /\ _callback self = Some cb.
Proof.
  intros H.
  destruct (axis_data raw !! 5) as [a5|] eqn:H5;
    [|unfold _handle_callback, bind, lift, subscript in H; rewrite H5 in H; discriminate].
  destruct (axis_data raw !! 4) as [a4|] eqn:H4;
    [|unfold _handle_callback, bind, lift, subscript in H; rewrite H5, H4 in H; discriminate].
  destruct (axis_data raw !! 0) as [a0|] eqn:H0;
    [|unfold _handle_callback, bind, lift, subscript in H; rewrite H5, H4, H0 in H; discriminate].
  destruct (button_data raw !! 0) as [b0|] eqn:G0;
    [|unfold _handle_callback, bind, lift, subscript in H;
      rewrite H5, H4, H0, G0 in H; discriminate].
  destruct (button_data raw !! 11) as [b11|] eqn:G11;
    [|unfold _handle_callback, bind, lift, subscript in H;
      rewrite H5, H4, H0, G0, G11 in H; discriminate].
  destruct (button_data raw !! 12) as [b12|] eqn:G12;
    [|unfold _handle_callback, bind, lift, subscript in H;
      rewrite H5, H4, H0, G0, G11, G12 in H; discriminate].
  destruct (button_data raw !! 6) as [b6|] eqn:G6;
    [|unfold _handle_callback, bind, lift, subscript in H;
      rewrite H5, H4, H0, G0, G11, G12, G6 in H;
      destruct b11, b12; discriminate].
  destruct (_callback self) as [cb|] eqn:Hcb.
  - exists a5, a4, a0, b0, b11, b12, b6, cb. repeat split; reflexivity.
  - unfold _handle_callback, bind, lift, subscript in H.
    rewrite H5, H4, H0, G0, G11, G12, G6 in H.
    destruct self as [c h r l]. simpl in Hcb. subst c.
    destruct b11, b12; discriminate.
Qed.

(** What the first of two updates does: nothing when the state derived
    equals the last one emitted, one call of the callback otherwise. *)
Lemma _callback_wrapper_first raw self d sa cs cb :
  _callback self = Some cb ->
  _handle_callback raw self = (sa, Ok cs) ->
  _callback_wrapper raw (self, d)
  = if eq_optional cs (_last_controller_state self)
    then ((sa, d), Ok tt)
    else ((set_last_controller_state cs sa, cb cs d), Ok tt).
Proof.
  intros Hcb H. unfold _callback_wrapper. rewrite H.
  destruct (_handle_callback_state _ _ _ _ H) as [b ->]. simpl. rewrite Hcb.
  reflexivity.
Qed.

End Dedup.

(** C6 (as the code has it). Of two consecutive raw updates whose derived
    states are equal, the second is always discarded: no callback, and the
    last state emitted stays.  The first calls the callback once and
    records its state when that state differs from the last one emitted
    (as it does on a new adapter, which has emitted none), and is itself
    discarded when it does not.  So the pair makes one call in the first
    case and none in the second. *)
Theorem C6_dedup {D : Type} (raw1 raw2 : RawControllerState)
  (self self1 sa sb : _GamepadController D) (d d1 : D) (r1 : result unit)
  (cs1 cs2 : ControllerState) cb :
  _callback self = Some cb ->
  _handle_callback raw1 self = (sa, Ok cs1) ->
  _callback_wrapper raw1 (self, d) = ((self1, d1), r1) ->
  _handle_callback raw2 self1 = (sb, Ok cs2) ->
  ControllerState_eqb cs1 cs2 = true ->
  r1 = Ok tt
  /\ (if eq_optional cs1 (_last_controller_state self)
      then d1 = d /\ _last_controller_state self1 = _last_controller_state self
      else d1 = cb cs1 d /\ _last_controller_state self1 = Some cs1)
  /\ (_last_controller_state self = None -> d1 = cb cs1 d)
  /\ _callback_wrapper raw2 (self1, d1) = ((sb, d1), Ok tt)
  /\ controller_gamepad._callback_wrapper raw2 (self1, d1) = ((sb, d1), Ok tt)
  /\ _last_controller_state sb = _last_controller_state self1.
Proof.
  intros Hcb H1 Hw1 H2 Heq.
  rewrite (_callback_wrapper_first _ _ _ _ _ _ Hcb H1) in Hw1.
  destruct (_handle_callback_state _ _ _ _ H1) as [b1 ->].
  destruct (_handle_callback_state _ _ _ _ H2) as [b2 ->].
  assert (Hlast2 : eq_optional cs2 (_last_controller_state self1) = true
                   /\ _callback self1 = Some cb).
  { destruct (eq_optional cs1 (_last_controller_state self)) eqn:E;
      injection Hw1 as <- <- <-; simpl; split; try exact Hcb.
    - unfold eq_optional in *. destruct (_last_controller_state self) as [l|]; [|discriminate].
      eapply ControllerState_eqb_trans; [apply ControllerState_eqb_sym; exact Heq | exact E].
    - apply ControllerState_eqb_sym. exact Heq. }
  destruct Hlast2 as [Hlast2 Hcb1].
  assert (Hw2 : _callback_wrapper raw2 (self1, d1) = ((with_reverse b2 self1, d1), Ok tt)).
  { rewrite (_callback_wrapper_first _ _ _ _ _ _ Hcb1 H2). simpl. rewrite Hlast2. reflexivity. }
  split; [destruct (eq_optional cs1 _); injection Hw1 as <- <- <-; reflexivity|].
  split; [destruct (eq_optional cs1 _); injection Hw1 as <- <- <-; simpl; auto|].
  split.
  { intros Hnone. rewrite Hnone in Hw1. simpl in Hw1. injection Hw1 as <- <- <-. reflexivity. }
  split; [exact Hw2|]. split; [exact Hw2|]. reflexivity.
Qed.

Lemma C6_witness :
  exists self1 self2,
    _callback_wrapper rest_state (new_adapter counting, 0%nat) = ((self1, 1%nat), Ok tt)
    /\ _callback_wrapper rest_state (self1, 1%nat) = ((self2, 1%nat), Ok tt).
Proof.
  destruct (_callback_wrapper rest_state (new_adapter counting, 0%nat))
    as [[self1 d1] r1] eqn:Hw.
  destruct (_handle_callback rest_state (new_adapter counting)) as [sa [cs1|e]] eqn:H1;
    [|vm_compute in H1; discriminate H1].
  destruct (_handle_callback rest_state self1) as [sb [cs2|e]] eqn:H2;
    [|vm_compute in Hw; injection Hw as <- _ _; vm_compute in H2; discriminate H2].
  assert (Heq : ControllerState_eqb cs1 cs2 = true).
  { vm_compute in Hw. injection Hw as <- _ _. vm_compute in H1, H2.
    injection H1 as _ <-. injection H2 as _ <-. reflexivity. }
  destruct (C6_dedup rest_state rest_state (new_adapter counting) self1 sa sb
              0%nat d1 r1 cs1 cs2 counting eq_refl H1 Hw H2 Heq)
    as (Hr & _ & Hd & Hw2 & _).
  specialize (Hd eq_refl). unfold counting in Hd. subst d1 r1.
  exists self1, sb. split; [reflexivity | exact Hw2].
Defined.

(** The claim as the spec words it, one call for every such pair, fails
    for a pair that follows an update with the same derived state: the
    first of the pair is discarded too. *)
Lemma C6_counterexample :
  ~ (forall (raw0 raw1 raw2 : RawControllerState)
            (self self1 self2 sa sb : _GamepadController nat)
            (d0 d d1 d2 : nat) (cs1 cs2 : ControllerState) cb,
        _callback_wrapper raw0 (new_adapter cb, d0) = ((self, d), Ok tt) ->
        _handle_callback raw1 self = (sa, Ok cs1) ->
        _callback_wrapper raw1 (self, d) = ((self1, d1), Ok tt) ->
        _handle_callback raw2 self1 = (sb, Ok cs2) ->
        ControllerState_eqb cs1 cs2 = true ->
        _callback_wrapper raw2 (self1, d1) = ((self2, d2), Ok tt) ->
        d2 = cb cs1 d).
Proof.
  intros H.
  pose (once := set_last_controller_state neutral (new_adapter counting)).
  specialize (H rest_state rest_state rest_state once once once once once
                0%nat 1%nat 1%nat 1%nat neutral neutral counting).
  assert (Hd : _handle_callback rest_state once = (once, Ok neutral))
    by (vm_compute; reflexivity).
  assert (Hw : _callback_wrapper rest_state (once, 1%nat) = ((once, 1%nat), Ok tt))
    by (vm_compute; reflexivity).
  assert (H0 : _callback_wrapper rest_state (new_adapter counting, 0%nat)
               = ((once, 1%nat), Ok tt))
    by (vm_compute; reflexivity).
  specialize (H H0 Hd Hw Hd eq_refl Hw). discriminate H.
Qed.

(** ** Hat events *)

Lemma dict_of_range_lookup {V} (n : nat) (v x : V) (k : Z) :
  dict_of_range n v !! k = Some x -> x = v.
Proof.
  unfold dict_of_range. intros H. apply elem_of_list_to_map_2 in H.
  apply list_elem_of_In, in_map_iff in H. destruct H as (i & [= _ <-] & _). reflexivity.
Qed.

Lemma grid_derived_self_equal :
  forallb derived_self_equal PyFloat.normalized_grid = true.
Proof. vm_compute. reflexivity. Qed.

Lemma axes_on_grid_init (na nb nh : nat) :
  axes_on_grid (ControllerEventHandler_init na nb nh).
Proof.
  intros k v H. simpl in H. apply dict_of_range_lookup in H. discriminate H.
Qed.

Lemma axes_on_grid_store (h h' : ControllerEventHandler) (ev : event) :
  axes_on_grid h -> normalized_event ev = true -> store_event h ev = Some h' ->
  axes_on_grid h'.
Proof.
  intros Hg Hn Hs k v. destruct ev; simpl in Hs; try discriminate Hs; injection Hs as <-; simpl; try apply Hg.
  rewrite lookup_insert. case_decide.
  - intros [= <-]. apply py_round2_normalized. exact Hn.
  - apply Hg.
Qed.

Section HatFacts.

Context {D : Type}.
Implicit Types (self : _GamepadController D) (raw : RawControllerState) (d : D).

Lemma derived_on_grid_self_equal raw self self' cs :
  (forall k v, axis_data raw !! k = Some (Some v) -> In v PyFloat.normalized_grid) ->
  _handle_callback raw self = (self', Ok cs) ->
  ControllerState_eqb cs cs = true.
Proof.
  intros Hg H.
  destruct (_handle_callback_inv _ _ _ _ H)
    as (a5 & a4 & a0 & b0 & b11 & b12 & b6 & cb & H5 & H4 & H0 & G0 & G11 & G12 & G6 & Hcb).
  rewrite (_handle_callback_ok _ _ _ _ _ _ _ _ _ _ H5 H4 H0 G0 G11 G12 G6 Hcb) in H.
  injection H as _ <-. unfold ControllerState_eqb. simpl.
  pose proof grid_derived_self_equal as Hall. rewrite forallb_forall in Hall.
  assert (Hgrid : forall k a, axis_data raw !! k = Some a ->
            match a with
            | Some v => derived_self_equal v = true
            | None => True
            end).
  { intros k [v|] Hk; [|exact I]. apply Hall, (Hg k). exact Hk. }
  pose proof (Hgrid _ _ H5) as E5. pose proof (Hgrid _ _ H4) as E4.
  pose proof (Hgrid _ _ H0) as E0.
  rewrite !Bool.eqb_reflx, !andb_true_r.
  unfold derived_self_equal in *.
  destruct a5 as [v5|], a4 as [v4|], a0 as [v0|];
    repeat match goal with
           | E : _ = true |- _ => cbv zeta in E; apply andb_true_iff in E; destruct E
           end;
    repeat (apply andb_true_iff; split); try assumption; reflexivity.
Qed.


(** Deriving again from the same entries, on an adapter with the same
    callback and the [_reverse] the first derivation left, changes nothing
    and returns the same state. *)
Lemma _handle_callback_idem raw self s1 s2 cs :
  _handle_callback raw self = (s1, Ok cs) ->
  _callback s2 = _callback s1 -> _reverse s2 = _reverse s1 ->
  _handle_callback raw s2 = (s2, Ok cs).
Proof.
  intros H Hc Hr.
  destruct (_handle_callback_inv _ _ _ _ H)
    as (a5 & a4 & a0 & b0 & b11 & b12 & b6 & cb & H5 & H4 & H0 & G0 & G11 & G12 & G6 & Hcb).
  rewrite (_handle_callback_ok _ _ _ _ _ _ _ _ _ _ H5 H4 H0 G0 G11 G12 G6 Hcb) in H.
  injection H as <- <-. simpl in Hc, Hr. rewrite Hcb in Hc.
  rewrite (_handle_callback_ok _ _ _ _ _ _ _ _ _ _ H5 H4 H0 G0 G11 G12 G6 Hc).
  rewrite Hr. destruct s2 as [c h r l]. simpl in *. subst r.
  destruct b11, b12; reflexivity.
Qed.

Lemma settled_init (na nb nh : nat) (cb : option (ControllerState -> D -> D)) :
  settled (_GamepadController_init na nb nh cb).
Proof. split; [apply axes_on_grid_init | left; reflexivity]. Qed.

Lemma settled_handle_event (ev : event) self d self' d' :
  settled self -> normalized_event ev = true ->
  handle_event ev (self, d) = ((self', d'), Ok tt) ->
  settled self'.
Proof.
  intros [Hg Hs] Hn H. unfold handle_event in H.
  destruct (store_event (_handler self) ev) as [h|] eqn:Hst;
    [|injection H as <- <-; split; assumption].
  pose proof (axes_on_grid_store _ _ _ Hg Hn Hst) as Hg'.
  unfold _callback_wrapper in H.
  destruct (_handle_callback (raw_state h) (set_handler h self)) as [s1 [cs|e]] eqn:Hd;
    [|discriminate H].
  destruct (_handle_callback_state _ _ _ _ Hd) as [b Hs1].
  assert (Hself : ControllerState_eqb cs cs = true)
    by (apply (derived_on_grid_self_equal (raw_state h) _ _ _ Hg' Hd)).
  destruct (eq_optional cs (_last_controller_state s1)) eqn:E.
  - injection H as <- <-. subst s1. split; [exact Hg'|]. right. exists cs. split; [|exact E].
    simpl. eapply _handle_callback_idem; [exact Hd | reflexivity | reflexivity].
  - destruct (_callback s1) as [cb|] eqn:Hcb; [|discriminate H].
    injection H as <- <-. subst s1. split; [exact Hg'|]. right. exists cs. split; [|exact Hself].
    simpl. eapply _handle_callback_idem; [exact Hd | reflexivity | reflexivity].
Qed.

Lemma settled_handle_events (evs : list event) self d self' d' :
  settled self -> forallb normalized_event evs = true ->
  handle_events evs (self, d) = ((self', d'), Ok tt) ->
  settled self'.
Proof.
  revert self d. induction evs as [|ev rest IH]; intros self d Hs Hn H.
  - injection H as <- <-. exact Hs.
  - simpl in Hn. apply andb_true_iff in Hn as [Hn1 Hn2].
    simpl in H. unfold bind in H.
    destruct (handle_event ev (self, d)) as [[s1 d1] [[]|e]] eqn:He; [|discriminate H].
    eapply IH; [|exact Hn2 | exact H].
    eapply settled_handle_event; [exact Hs | exact Hn1 | exact He].
Qed.

(** A hat event on a settled adapter that has emitted before is
    discarded. *)
Lemma settled_hat_event (hat : Z) (value : Z * Z) self d :
  settled self -> _last_controller_state self <> None ->
  exists h,
    store_event (_handler self) (JOYHATMOTION hat value) = Some h
    /\ handle_event (JOYHATMOTION hat value) (self, d) = ((set_handler h self, d), Ok tt).
Proof.
  intros [Hg [Hnone | (cs & Hd & E)]] Hlast; [contradiction|].
  eexists. split; [reflexivity|].
  unfold handle_event. simpl store_event. cbv iota beta.
  unfold _callback_wrapper.
  match goal with
  | |- context [ _handle_callback ?raw ?s ] =>
      assert (Hd' : _handle_callback raw s = (s, Ok cs))
  end.
  { rewrite (_handle_callback_hats _ (raw_state (_handler self))) by reflexivity.
    eapply _handle_callback_idem; [exact Hd | reflexivity | reflexivity]. }
  rewrite Hd'. simpl. rewrite E. reflexivity.
Qed.

End HatFacts.

(** C10. The derivation does not read the hats: on two raw states with the
    same axis and button entries, and the same adapter, it does the same
    and returns the same.  And on an adapter that has handled events whose
    axis values lie between -1 and 1 and has emitted a state, a hat event
    is stored and discarded: the callback is not called and the last state
    emitted stays. *)
Theorem C10_hat_independence {D : Type} (na nb nh : nat)
  (callback : option (ControllerState -> D -> D)) (evs : list event)
  (self : _GamepadController D) (d0 d : D) (hat : Z) (value : Z * Z) :
  forallb normalized_event evs = true ->
  handle_events evs (_GamepadController_init na nb nh callback, d0) = ((self, d), Ok tt) ->
  _last_controller_state self <> None ->
  (forall (raw1 raw2 : RawControllerState) (s : _GamepadController D),
      axis_data raw1 = axis_data raw2 -> button_data raw1 = button_data raw2 ->
      _handle_callback raw1 s = _handle_callback raw2 s
      /\ controller_gamepad._handle_callback raw1 s
         = controller_gamepad._handle_callback raw2 s)
  /\ exists self',
       handle_event (JOYHATMOTION hat value) (self, d) = ((self', d), Ok tt)
       /\ _last_controller_state self' = _last_controller_state self.
Proof.
  intros Hn Hrun Hlast. split.
  - intros raw1 raw2 s Ha Hb. split; apply _handle_callback_hats; assumption.
  - pose proof (settled_handle_events _ _ _ _ _ (settled_init na nb nh callback) Hn Hrun)
      as Hs.
    destruct (settled_hat_event hat value self d Hs Hlast) as (h & _ & H).
    eexists. split; [exact H | reflexivity].
Qed.

Lemma C10_witness :
  exists self',
    handle_event (JOYHATMOTION 0 (1, 0))
      (fst (handle_events [JOYAXISMOTION 0 0.5]
              (_GamepadController_init 6 13 1 (Some _set_controller_state), None)))
    = ((self', Some {| throttle := 0; brake := 0; steer := 0.5;
                       hand_brake := false; reverse := false; reset := false |}),
       Ok tt).
Proof.
  pose (w := fst (handle_events [JOYAXISMOTION 0 0.5]
                    (_GamepadController_init 6 13 1 (Some _set_controller_state), None))).
  destruct (C10_hat_independence 6 13 1 (Some _set_controller_state)
              [JOYAXISMOTION 0 0.5] (fst w) None (snd w) 0 (1, 0))
    as [_ (self' & H & _)].
  - reflexivity.
  - vm_compute. reflexivity.
  - vm_compute. discriminate.
  - exists self'. exact H.
Defined.

(** ** What handling an event emits *)

(** The wrapper, case by case, for a callable callback. *)
Lemma _callback_wrapper_cases {D} (raw : RawControllerState) (self self' : _GamepadController D)
  (d d' : D) (r : result unit) cb :
  _callback self = Some cb ->
  _callback_wrapper raw (self, d) = ((self', d'), r) ->
  _callback self' = Some cb /\ _handler self' = _handler self
  /\ ((d' = d /\ _last_controller_state self' = _last_controller_state self)
      \/ (exists cs, r = Ok tt /\ d' = cb cs d
                     /\ eq_optional cs (_last_controller_state self) = false
                     /\ _last_controller_state self' = Some cs)).
Proof.
  intros Hcb H. unfold _callback_wrapper in H.
  destruct (_handle_callback raw self) as [s1 [cs|e]] eqn:Hd;
    destruct (_handle_callback_state _ _ _ _ Hd) as [b ->]; simpl in H.
  - rewrite Hcb in H. destruct (eq_optional cs (_last_controller_state self)) eqn:E;
      injection H as <- <- <-; simpl; repeat split; try assumption; eauto 10.
  - injection H as <- <- <-. simpl. auto.
Qed.

Lemma handle_event_cases {D} (ev : event) (self self' : _GamepadController D)
  (d d' : D) (r : result unit) cb :
  _callback self = Some cb ->
  handle_event ev (self, d) = ((self', d'), r) ->
  _callback self' = Some cb
  /\ ((d' = d /\ _last_controller_state self' = _last_controller_state self)
      \/ (exists cs, r = Ok tt /\ stored ev = true /\ d' = cb cs d
                     /\ eq_optional cs (_last_controller_state self) = false
                     /\ _last_controller_state self' = Some cs)).
Proof.
  intros Hcb H. unfold handle_event in H.
  destruct (store_event (_handler self) ev) as [h|] eqn:Hst.
  - destruct (_callback_wrapper_cases _ (set_handler h self) _ _ _ _ cb Hcb H)
      as (H1 & _ & [H2 | (cs & H2)]).
    + auto.
    + split; [exact H1|]. right. exists cs.
      destruct H2 as (-> & -> & E & L). repeat split; try assumption.
      destruct ev; try reflexivity. discriminate Hst.
  - injection H as <- <- <-. auto.
Qed.

(** ** The fixed-rate publisher *)

Section PublisherFacts.

Variable float_repr : float -> string.

Lemma ticks_none (self : GamepadController) (answers : list (result unit)) (sender : Sender) :
  _controller_state self = None -> ticks float_repr self answers sender = sender.
Proof.
  intros H. induction answers as [|a rest IH]; simpl; [reflexivity|].
  unfold _work. rewrite H. exact IH.
Qed.

Lemma _work_some (self : GamepadController) (cs : ControllerState) (answer : result unit)
  (sender : Sender) :
  _controller_state self = Some cs ->
  fst (_work float_repr self answer sender)
  = (sender ++ [(serialize_controller_state float_repr cs, (_host self, _port self))])%list.
Proof.
  intros H. unfold _work. rewrite H. destruct answer as [u|[]]; reflexivity.
Qed.

Lemma ticks_some (self : GamepadController) (cs : ControllerState)
  (answers : list (result unit)) (sender : Sender) :
  _controller_state self = Some cs ->
  ticks float_repr self answers sender
  = (sender ++ repeat (serialize_controller_state float_repr cs, (_host self, _port self))
                      (length answers))%list.
Proof.
  intros H. revert sender. induction answers as [|a rest IH]; intros sender; simpl.
  - rewrite app_nil_r. reflexivity.
  - rewrite IH, (_work_some _ _ _ _ H), <- app_assoc. reflexivity.
Qed.

End PublisherFacts.

(** On a new publisher, an event that the handler stores and that is
    handled without exception sets the state. *)
Lemma first_event_sets_state (host : string) (port : Z) (na nb nh : nat) (ev : event)
  (self' : GamepadController) :
  ev <> OtherEvent ->
  GamepadController_handle_event ev (GamepadController_init host port na nb nh)
  = (self', Ok tt) ->
  exists cs, _controller_state self' = Some cs
             /\ _host self' = host /\ _port self' = port.
Proof.
  intros Hev H. unfold GamepadController_handle_event, handle_event in H. simpl in H.
  destruct (store_event (ControllerEventHandler_init na nb nh) ev) as [h|] eqn:Hst;
    [|destruct ev; try discriminate Hst; contradiction].
  unfold _callback_wrapper in H.
  match type of H with
  | context [ _handle_callback ?raw ?s ] =>
      destruct (_handle_callback raw s) as [s1 [cs|e]] eqn:Hd
  end; [|injection H as _ H; discriminate H].
  destruct (_handle_callback_state _ _ _ _ Hd) as [b ->]. simpl in H.
  injection H as <-. eexists. repeat split.
Qed.

(** What the publisher sends is what its adapter emitted last: the adapter
    calls [_set_controller_state] with every state it emits, and nothing
    else assigns [_controller_state]. *)
Lemma publisher_in_step (evs : list event) (s : GamepadController) :
  _callback (_gamepad_controller s) = Some _set_controller_state ->
  _controller_state s = _last_controller_state (_gamepad_controller s) ->
  let self := fst (GamepadController_handle_events evs s) in
  _callback (_gamepad_controller self) = Some _set_controller_state
  /\ _controller_state self = _last_controller_state (_gamepad_controller self)
  /\ _host self = _host s /\ _port self = _port s.
Proof.
  revert s. induction evs as [|ev rest IH]; intros s Hc Hl.
  - simpl. auto.
  - destruct (handle_event ev (_gamepad_controller s, _controller_state s))
      as [[a1 st1] r1] eqn:He.
    assert (Hstep : GamepadController_handle_event ev s
                    = ({| _host := _host s; _port := _port s;
                          _gamepad_controller := a1; _controller_state := st1 |}, r1))
      by (unfold GamepadController_handle_event; rewrite He; reflexivity).
    cbn [GamepadController_handle_events]. unfold bind. rewrite Hstep.
    destruct (handle_event_cases _ _ _ _ _ _ _set_controller_state Hc He)
      as (Hc1 & Hcase).
    assert (Hl1 : st1 = _last_controller_state a1).
    { destruct Hcase as [[-> E] | (cs & _ & _ & -> & _ & E)].
      - rewrite E. exact Hl.
      - rewrite E. reflexivity. }
    destruct r1 as [[]|e].
    + match goal with
      | |- context [ GamepadController_handle_events rest ?s1 ] =>
          specialize (IH s1 Hc1 Hl1)
      end.
      cbv zeta in IH. simpl in IH. exact IH.
    + simpl. auto.
Qed.

(** One event on such a publisher: the state derived from what the handler
    holds after the event replaces the state to send, unless the two are
    equal. *)
Lemma publisher_event (ev : event) (s : GamepadController) (h : ControllerEventHandler)
  (a' : _GamepadController (option ControllerState)) (cs : ControllerState) :
  _callback (_gamepad_controller s) = Some _set_controller_state ->
  _controller_state s = _last_controller_state (_gamepad_controller s) ->
  store_event (_handler (_gamepad_controller s)) ev = Some h ->
  _handle_callback (raw_state h) (set_handler h (_gamepad_controller s)) = (a', Ok cs) ->
  let self := fst (GamepadController_handle_event ev s) in
  _controller_state self
  = (if eq_optional cs (_controller_state s) then _controller_state s else Some cs)
  /\ _host self = _host s /\ _port self = _port s.
Proof.
  intros Hc Hl Hst Hd.
  unfold GamepadController_handle_event, handle_event. rewrite Hst.
  unfold _callback_wrapper. rewrite Hd.
  destruct (_handle_callback_state _ _ _ _ Hd) as [b ->]. simpl.
  rewrite <- Hl, Hc. destruct (eq_optional cs (_controller_state s)); simpl; auto.
Qed.

(** C7. A tick with no state set sends nothing and changes nothing, and so
    do any number of them.  A tick with a state set calls [send_datagram]
    once, with the serialization of that state and the configured host and
    port, whatever the sender then does; [n] ticks make [n] such calls.
    After the first input event on a new publisher a state is set, so every
    tick from then on sends.  The state sent is the one set last: a call of
    [_set_controller_state] replaces it; after any run of events it is the
    state the adapter emitted last; and an event whose derived state
    differs from the state being sent makes every tick from then on send
    the derived state. *)
Theorem C7_fixed_rate_publisher (float_repr : float -> string)
  (self : GamepadController) (answer : result unit) (answers : list (result unit))
  (sender : Sender) :
  (_controller_state self = None ->
   _work float_repr self answer sender = (sender, Ok tt)
   /\ ticks float_repr self answers sender = sender)
  /\ (forall cs, _controller_state self = Some cs ->
      fst (_work float_repr self answer sender)
      = (sender ++ [(serialize_controller_state float_repr cs,
                     (_host self, _port self))])%list
      /\ ticks float_repr self answers sender
         = (sender ++ repeat (serialize_controller_state float_repr cs,
                              (_host self, _port self)) (length answers))%list)
  /\ (forall host port na nb nh ev self',
      ev <> OtherEvent ->
      GamepadController_handle_event ev (GamepadController_init host port na nb nh)
      = (self', Ok tt) ->
      ticks float_repr (GamepadController_init host port na nb nh) answers [] = []
      /\ exists cs,
           _controller_state self' = Some cs
           /\ ticks float_repr self' answers []
              = repeat (serialize_controller_state float_repr cs, (host, port))
                       (length answers))
  /\ (forall cs,
      ticks float_repr
        {| _host := _host self; _port := _port self;
           _gamepad_controller := _gamepad_controller self;
           _controller_state := _set_controller_state cs (_controller_state self) |}
        answers sender
      = (sender ++ repeat (serialize_controller_state float_repr cs,
                           (_host self, _port self)) (length answers))%list)
  /\ (forall host port na nb nh evs,
      let self' := fst (GamepadController_handle_events evs
                          (GamepadController_init host port na nb nh)) in
      ticks float_repr self' answers sender
      = (sender
         ++ match _last_controller_state (_gamepad_controller self') with
            | Some cs => repeat (serialize_controller_state float_repr cs, (host, port))
                                (length answers)
            | None => []
            end)%list)
  /\ (forall host port na nb nh evs ev h a' cs,
      let self1 := fst (GamepadController_handle_events evs
                          (GamepadController_init host port na nb nh)) in
      let self2 := fst (GamepadController_handle_event ev self1) in
      store_event (_handler (_gamepad_controller self1)) ev = Some h ->
      _handle_callback (raw_state h) (set_handler h (_gamepad_controller self1))
      = (a', Ok cs) ->
      (eq_optional cs (_controller_state self1) = false ->
       ticks float_repr self2 answers sender
       = (sender ++ repeat (serialize_controller_state float_repr cs, (host, port))
                           (length answers))%list)
      /\ (eq_optional cs (_controller_state self1) = true ->
          _controller_state self2 = _controller_state self1)).
Proof.
  split; [|split; [|split; [|split; [|split]]]].
  - intros H. split; [unfold _work; rewrite H; reflexivity | apply ticks_none; exact H].
  - intros cs H. split; [apply _work_some; exact H | apply ticks_some; exact H].
  - intros host port na nb nh ev self' Hev H. split; [apply ticks_none; reflexivity|].
    destruct (first_event_sets_state _ _ _ _ _ _ _ Hev H) as (cs & Hcs & Hh & Hp).
    exists cs. split; [exact Hcs|]. rewrite (ticks_some _ _ _ _ _ Hcs), Hh, Hp. reflexivity.
  - intros cs. rewrite (ticks_some _ _ cs); reflexivity.
  - intros host port na nb nh evs self'.
    destruct (publisher_in_step evs (GamepadController_init host port na nb nh)
                eq_refl eq_refl) as (_ & Hl & Hh & Hp).
    fold self' in Hl, Hh, Hp. simpl in Hh, Hp.
    destruct (_last_controller_state (_gamepad_controller self')) as [cs|].
    + rewrite (ticks_some _ _ cs _ _ Hl), Hh, Hp. reflexivity.
    + rewrite (ticks_none _ _ _ _ Hl), app_nil_r. reflexivity.
  - intros host port na nb nh evs ev h a' cs self1 self2 Hst Hd.
    destruct (publisher_in_step evs (GamepadController_init host port na nb nh)
                eq_refl eq_refl) as (Hc & Hl & Hh & Hp).
    fold self1 in Hc, Hl, Hh, Hp. simpl in Hh, Hp.
    destruct (publisher_event ev self1 h a' cs Hc Hl Hst Hd) as (Hs & Hh2 & Hp2).
    fold self2 in Hs, Hh2, Hp2. split; intros E; rewrite E in Hs.
    + rewrite (ticks_some _ _ cs _ _ Hs), Hh2, Hp2, Hh, Hp. reflexivity.
    + exact Hs.
Qed.

Lemma C7_witness :
  ticks table_repr (GamepadController_init "host" 9000 6 13 1)
    [Ok tt; Raise Full; Ok tt] [] = []
  /\ length (ticks table_repr
               {| _host := "host"; _port := 9000;
                  _gamepad_controller := new_adapter _set_controller_state;
                  _controller_state := Some neutral |}
               [Ok tt; Raise Full; Ok tt] []) = 3%nat
  /\ ticks table_repr
       (fst (GamepadController_handle_events
               [JOYBUTTONDOWN 0; JOYBUTTONUP 0; JOYBUTTONDOWN 12]
               (GamepadController_init "host" 9000 6 13 1)))
       [Ok tt; Raise Full; Ok tt] []
     = repeat (serialize_controller_state table_repr
                 {| throttle := 0; brake := 0; steer := 0;
                    hand_brake := false; reverse := true; reset := false |},
               ("host"%string, 9000)) 3
  /\ ticks table_repr
       (fst (GamepadController_handle_event (JOYBUTTONDOWN 0)
               (fst (GamepadController_handle_events
                       [JOYBUTTONDOWN 12; JOYAXISMOTION 0 0.1]
                       (GamepadController_init "host" 9000 6 13 1)))))
       [Ok tt; Ok tt] []
     = repeat (serialize_controller_state table_repr
                 {| throttle := 0; brake := 0; steer := 0;
                    hand_brake := true; reverse := true; reset := false |},
               ("host"%string, 9000)) 2.
Proof.
  split; [|split; [|split]].
  - destruct (C7_fixed_rate_publisher table_repr
                (GamepadController_init "host" 9000 6 13 1) (Ok tt)
                [Ok tt; Raise Full; Ok tt] []) as [H _].
    apply H. reflexivity.
  - destruct (C7_fixed_rate_publisher table_repr
                {| _host := "host"; _port := 9000;
                   _gamepad_controller := new_adapter _set_controller_state;
                   _controller_state := Some neutral |} (Ok tt)
                [Ok tt; Raise Full; Ok tt] []) as [_ [H _]].
    destruct (H neutral eq_refl) as [_ ->]. reflexivity.
  - destruct (C7_fixed_rate_publisher table_repr
                (GamepadController_init "host" 9000 6 13 1) (Ok tt)
                [Ok tt; Raise Full; Ok tt] []) as (_ & _ & _ & _ & H & _).
    rewrite (H "host"%string 9000 6%nat 13%nat 1%nat
               [JOYBUTTONDOWN 0; JOYBUTTONUP 0; JOYBUTTONDOWN 12]).
    vm_compute. reflexivity.
  - destruct (C7_fixed_rate_publisher table_repr
                (GamepadController_init "host" 9000 6 13 1) (Ok tt)
                [Ok tt; Ok tt] []) as (_ & _ & _ & _ & _ & H).
    destruct (H "host"%string 9000 6%nat 13%nat 1%nat
                [JOYBUTTONDOWN 12; JOYAXISMOTION 0 0.1] (JOYBUTTONDOWN 0)
                _ _ _ eq_refl eq_refl) as [Hnew _].
    apply Hnew. vm_compute. reflexivity.
Defined.

(** C2, on the code: a [Full] raised by [send_datagram] leaves [_work],
    which catches [Empty] only; the send stage of the sensor catches
    [Full] at its own call of [send_datagram] and goes on. *)
Theorem C2_full_leaves_work (float_repr : float -> string) (host : string) (port : Z)
  (adapter : _GamepadController (option ControllerState)) (cs : ControllerState)
  (sender : Sender) :
  let self := {| _host := host; _port := port; _gamepad_controller := adapter;
                 _controller_state := Some cs |} in
  snd (_work float_repr self (Raise Full) sender) = Raise Full
  /\ snd (_work float_repr self (Raise Empty) sender) = Ok tt
  /\ (forall (p : sensor.pipeline nat nat) w,
        sensor.send_thread p = sensor.SendCall w ->
        sensor.send_thread (sensor.run_send (Raise Full) p) = sensor.SendWhile).
Proof.
  repeat split. intros p w H. unfold sensor.run_send. rewrite H. reflexivity.
Qed.

End ControllerProofs.


Section WireProofs.

Import controller Json.
Local Open Scope string_scope.

(** ** The wire record *)

Lemma number_start_tests (c : ascii) :
  number_start c = true ->
  is_ws c = false
  /\ ((c =? "034") || (c =? "{") || (c =? "["))%char = false
  /\ (c =? "n")%char = false /\ (c =? "t")%char = false /\ (c =? "f")%char = false.
Proof.
  destruct c as [[] [] [] [] [] [] [] []]; vm_compute; intros H;
    first [discriminate H | repeat split].
Qed.

Lemma match_integer_start (c : ascii) (s : string) r :
  match_integer (String c s) = Some r -> number_start c = true.
Proof.
  unfold match_integer, number_start.
  destruct (c =? "-")%char eqn:E; [reflexivity|]. simpl.
  assert (Hs : match String c s with
               | String "-" s' => ("-", s')
               | _ => (EmptyString, String c s)
               end = (EmptyString, String c s)).
  { destruct c as [[] [] [] [] [] [] [] []]; try reflexivity. discriminate E. }
  rewrite Hs.
  destruct (c =? "0")%char eqn:E0.
  - apply Ascii.eqb_eq in E0. subst c. reflexivity.
  - destruct (is_digit c); [reflexivity | discriminate].
Qed.

Section WireFacts.

Variable float_repr : float -> string.
Variable float_of_string : string -> float.

Lemma scan_once_float (f : float) (rest : string) :
  reads_back float_repr float_of_string f ->
  skip_ws (float_repr f ++ String "," rest) = float_repr f ++ String "," rest
  /\ scan_once float_of_string (float_repr f ++ String "," rest)
     = Parsed (JFloat f) (String "," rest).
Proof.
  intros (_ & Hback & integer & frac & exp & Htext & Hfloat & Hmatch).
  specialize (Hmatch rest).
  destruct (float_repr f ++ String "," rest) as [|c s] eqn:E.
  { unfold match_number, match_integer in Hmatch. discriminate Hmatch. }
  assert (Hstart : number_start c = true).
  { unfold match_number in Hmatch.
    destruct (match_integer (String c s)) as [r|] eqn:Hi; [|discriminate Hmatch].
    eapply match_integer_start. exact Hi. }
  destruct (number_start_tests c Hstart) as (Hws & Hq & Hn & Ht & Hf).
  split; [simpl; rewrite Hws; reflexivity|].
  unfold scan_once. rewrite Hq, Hn, Ht, Hf, Hmatch, <- Htext, Hback.
  destruct frac, exp; try reflexivity. destruct Hfloat; contradiction.
Qed.


(** One turn of the loop of [JSONObject] over a float item that another
    item follows. *)
Lemma members_float (fuel : nat) (k : string) (f : float) (rest : string)
  (pairs : list (string * value)) :
  plain_key k -> reads_back float_repr float_of_string f ->
  members float_of_string (S fuel)
    (k ++ String "034" (String ":" (String " "
       (float_repr f ++ String "," (String " " (String "034" rest))))))
    pairs
  = members float_of_string fuel rest (pairs ++ [(k, JFloat f)])%list.
Proof.
  intros Hk Hf. cbn [members]. rewrite Hk.
  destruct (scan_once_float f (String " " (String "034" rest)) Hf) as [Hws Hscan].
  cbn [skip_ws is_ws Ascii.eqb Bool.eqb orb]. rewrite Hws, Hscan. reflexivity.
Qed.

(** The same over a boolean item. *)
Lemma members_bool (fuel : nat) (k : string) (b : bool) (rest : string)
  (pairs : list (string * value)) :
  plain_key k ->
  members float_of_string (S fuel)
    (k ++ String "034" (String ":" (String " "
       (dumps_value float_repr (JBool b) ++ String "," (String " " (String "034" rest))))))
    pairs
  = members float_of_string fuel rest (pairs ++ [(k, JBool b)])%list.
Proof.
  intros Hk. cbn [members]. rewrite Hk. destruct b; reflexivity.
Qed.

(** The last turn: a boolean item and the closing brace. *)
Lemma members_bool_last (fuel : nat) (k : string) (b : bool) (rest : string)
  (pairs : list (string * value)) :
  plain_key k ->
  members float_of_string (S fuel)
    (k ++ String "034" (String ":" (String " "
       (dumps_value float_repr (JBool b) ++ String "}" rest))))
    pairs
  = Parsed (pairs ++ [(k, JBool b)])%list rest.
Proof.
  intros Hk. cbn [members]. rewrite Hk. destruct b; reflexivity.
Qed.

Lemma string_app_assoc (a b c : string) : (a ++ b) ++ c = a ++ (b ++ c).
Proof.
  induction a as [|x a IH]; [reflexivity|].
  change (String x ((a ++ b) ++ c) = String x (a ++ b ++ c)). rewrite IH. reflexivity.
Qed.

Lemma string_app_nil_r (a : string) : a ++ EmptyString = a.
Proof.
  induction a as [|x a IH]; [reflexivity|].
  change (String x (a ++ EmptyString) = String x a). rewrite IH. reflexivity.
Qed.

Lemma isascii_app (a b : string) : isascii (a ++ b) = isascii a && isascii b.
Proof.
  induction a as [|c a IH]; [reflexivity|]. simpl. rewrite IH, andb_assoc. reflexivity.
Qed.

End WireFacts.

(** A float between two of -1, 0 and 1 is written by [float.__repr__]. *)
Lemma floatstr_in_range (float_repr : float -> string) (f : float) :
  ((-1 <=? f) || (0 <=? f))%float = true -> (f <=? 1)%float = true ->
  floatstr float_repr f = float_repr f.
Proof.
  unfold floatstr. rewrite !FloatAxioms.leb_spec, !FloatAxioms.eqb_spec.
  change (Prim2SF (-1)) with (S754_finite true 4503599627370496 (-52)).
  change (Prim2SF 0) with (S754_zero false).
  change (Prim2SF 1) with (S754_finite false 4503599627370496 (-52)).
  change (Prim2SF infinity) with (S754_infinity false).
  change (Prim2SF neg_infinity) with (S754_infinity true).
  destruct (Prim2SF f) as [s | s | | s m e]; intros Hlo Hhi.
  - destruct s; reflexivity.
  - destruct s; [|discriminate Hhi]. apply orb_true_iff in Hlo as [H|H]; discriminate H.
  - discriminate Hhi.
  - assert (Hrefl : SFeqb (S754_finite s m e) (S754_finite s m e) = true).
    { unfold SFeqb, SFcompare. rewrite Z.compare_refl.
      change (Pos.compare_cont Eq m m) with (Pos.compare m m). rewrite Pos.compare_refl.
      destruct s; reflexivity. }
    rewrite Hrefl. destruct s; reflexivity.
Qed.

Lemma float_eqb_refl_in_range (f : float) :
  ((-1 <=? f) || (0 <=? f))%float = true -> (f <=? 1)%float = true ->
  (f =? f)%float = true.
Proof.
  rewrite !FloatAxioms.leb_spec, !FloatAxioms.eqb_spec.
  change (Prim2SF (-1)) with (S754_finite true 4503599627370496 (-52)).
  change (Prim2SF 0) with (S754_zero false).
  change (Prim2SF 1) with (S754_finite false 4503599627370496 (-52)).
  destruct (Prim2SF f) as [s | s | | s m e]; intros Hlo Hhi.
  - reflexivity.
  - destruct s; reflexivity.
  - discriminate Hhi.
  - unfold SFeqb, SFcompare. rewrite Z.compare_refl.
    change (Pos.compare_cont Eq m m) with (Pos.compare m m). rewrite Pos.compare_refl.
    destruct s; reflexivity.
Qed.

Lemma plain_field_names : Forall plain_key field_names.
Proof. repeat constructor; intros rest; reflexivity. Qed.

(** The text of a record whose floats lie in their documented ranges,
    with any text after it: the reader finds the six items, and then
    accepts the text after the closing brace only if it is whitespace. *)
Lemma loads_serialized (float_repr : float -> string) (float_of_string : string -> float)
  (s : ControllerState) (extra : string) :
  in_range s = true ->
  reads_back float_repr float_of_string (throttle s) ->
  reads_back float_repr float_of_string (brake s) ->
  reads_back float_repr float_of_string (steer s) ->
  isascii (serialize_controller_state float_repr s) = true
  /\ loads float_of_string (serialize_controller_state float_repr s ++ extra)
     = match skip_ws extra with
       | EmptyString => Parsed (_asdict s) EmptyString
       | _ => Malformed
       end.
Proof.
  intros Hr Ht Hb Hs. unfold in_range in Hr. rewrite !andb_true_iff in Hr.
  destruct Hr as (((((Ht0 & Ht1) & Hb0) & Hb1) & Hs0) & Hs1).
  destruct s as [t b st hb rv rs]. simpl in *.
  assert (Et : floatstr float_repr t = float_repr t)
    by (apply floatstr_in_range; [rewrite Ht0; apply orb_true_r | exact Ht1]).
  assert (Eb : floatstr float_repr b = float_repr b)
    by (apply floatstr_in_range; [rewrite Hb0; apply orb_true_r | exact Hb1]).
  assert (Es : floatstr float_repr st = float_repr st)
    by (apply floatstr_in_range; [rewrite Hs0; reflexivity | exact Hs1]).
  pose (q := "034"%char).
  pose (t6 := fun tail => "reset" ++ String q (String ":" (String " "
                (dumps_value float_repr (JBool rs) ++ String "}" tail)))).
  pose (t5 := fun tail => "reverse" ++ String q (String ":" (String " "
                (dumps_value float_repr (JBool rv)
                 ++ String "," (String " " (String q (t6 tail))))))).
  pose (t4 := fun tail => "hand_brake" ++ String q (String ":" (String " "
                (dumps_value float_repr (JBool hb)
                 ++ String "," (String " " (String q (t5 tail))))))).
  pose (t3 := fun tail => "steer" ++ String q (String ":" (String " "
                (float_repr st ++ String "," (String " " (String q (t4 tail))))))).
  pose (t2 := fun tail => "brake" ++ String q (String ":" (String " "
                (float_repr b ++ String "," (String " " (String q (t3 tail))))))).
  pose (t1 := fun tail => "throttle" ++ String q (String ":" (String " "
                (float_repr t ++ String "," (String " " (String q (t2 tail))))))).
  assert (Htext : forall tail,
             serialize_controller_state float_repr
               {| throttle := t; brake := b; steer := st;
                  hand_brake := hb; reverse := rv; reset := rs |} ++ tail
             = String "{" (String q (t1 tail))).
  { intros tail. unfold serialize_controller_state, dumps, _asdict. cbn [join_items].
    unfold dumps_item. cbn [fst snd throttle brake steer hand_brake reverse reset].
    cbn [dumps_value]. rewrite Et, Eb, Es.
    change (if hb then "true" else "false") with (dumps_value float_repr (JBool hb)).
    change (if rv then "true" else "false") with (dumps_value float_repr (JBool rv)).
    change (if rs then "true" else "false") with (dumps_value float_repr (JBool rs)).
    subst t1 t2 t3 t4 t5 t6 q. cbv beta.
    generalize (dumps_value float_repr (JBool hb)) (dumps_value float_repr (JBool rv))
               (dumps_value float_repr (JBool rs)) (float_repr t) (float_repr b)
               (float_repr st).
    intros x1 x2 x3 x4 x5 x6.
    cbn [String.append]. rewrite !string_app_assoc. cbn [String.append]. reflexivity. }
  assert (Hascii : isascii (serialize_controller_state float_repr
                              {| throttle := t; brake := b; steer := st;
                                 hand_brake := hb; reverse := rv; reset := rs |}) = true).
  { rewrite <- (string_app_nil_r (serialize_controller_state _ _)), Htext.
    destruct Ht as [At _], Hb as [Ab _], Hs as [As _].
    subst t1 t2 t3 t4 t5 t6 q. cbv beta. cbn [String.append].
    repeat (simpl isascii; rewrite ?isascii_app, ?At, ?Ab, ?As).
    destruct hb, rv, rs; reflexivity. }
  split; [exact Hascii|]. rewrite Htext.
  assert (Hfuel : exists n, String.length (String q (t1 extra))
                            = S (S (S (S (S (S n)))))).
  { subst t1. eexists. cbn [String.length String.append]. reflexivity. }
  destruct Hfuel as [n Hfuel].
  pose proof plain_field_names as Hkeys. unfold field_names in Hkeys.
  repeat match goal with
         | H : Forall _ (_ :: _) |- _ => inversion H; subst; clear H
         end.
  change (loads float_of_string (String "{" (String q (t1 extra))))
    with (match members float_of_string (String.length (String q (t1 extra)))
                  (t1 extra) [] with
          | Parsed d rest =>
              match skip_ws rest with
              | EmptyString => Parsed d EmptyString
              | _ => Malformed
              end
          | r => r
          end).
  rewrite Hfuel. subst t1 t2 t3 t4 t5 t6 q. cbv beta.
  rewrite (members_float float_repr float_of_string) by assumption.
  rewrite (members_float float_repr float_of_string) by assumption.
  rewrite (members_float float_repr float_of_string) by assumption.
  rewrite (members_bool float_repr float_of_string) by assumption.
  rewrite (members_bool float_repr float_of_string) by assumption.
  rewrite (members_bool_last float_repr float_of_string) by assumption.
  reflexivity.
Qed.

(** C3. For a state whose floats lie in their documented ranges, and a
    [float.__repr__] and [float()] that read its three floats back,
    deserializing the serialization returns the state, which is equal to
    itself under [==]. *)
Theorem C3_round_trip (float_repr : float -> string) (float_of_string : string -> float)
  (s : ControllerState) :
  in_range s = true ->
  reads_back float_repr float_of_string (throttle s) ->
  reads_back float_repr float_of_string (brake s) ->
  reads_back float_repr float_of_string (steer s) ->
  deserialize_controller_state float_of_string
    (serialize_controller_state float_repr s) = Decoded s
  /\ ControllerState_eqb s s = true.
Proof.
  intros Hr Ht Hb Hs.
  destruct (loads_serialized float_repr float_of_string s EmptyString Hr Ht Hb Hs)
    as [Hascii Hloads].
  rewrite string_app_nil_r in Hloads. cbn [skip_ws] in Hloads.
  unfold in_range in Hr. rewrite !andb_true_iff in Hr.
  destruct Hr as (((((Ht0 & Ht1) & Hb0) & Hb1) & Hs0) & Hs1).
  split.
  - unfold deserialize_controller_state. rewrite Hascii, Hloads.
    destruct s as [t b st hb rv rs]. cbn [negb]. vm_compute. reflexivity.
  - unfold ControllerState_eqb.
    rewrite !Bool.eqb_reflx, !andb_true_r.
    rewrite !float_eqb_refl_in_range; try assumption; try reflexivity.
    + rewrite Hs0. reflexivity.
    + rewrite Hb0. apply orb_true_r.
    + rewrite Ht0. apply orb_true_r.
Qed.

Lemma C3_witness :
  deserialize_controller_state table_float
    (serialize_controller_state table_repr
       {| throttle := 0.5; brake := 0; steer := -0.25;
          hand_brake := true; reverse := false; reset := false |})
  = Decoded {| throttle := 0.5; brake := 0; steer := -0.25;
               hand_brake := true; reverse := false; reset := false |}.
Proof.
  apply (C3_round_trip table_repr table_float
           {| throttle := 0.5; brake := 0; steer := -0.25;
              hand_brake := true; reverse := false; reset := false |}).
  - reflexivity.
  - split; [reflexivity|]. split; [reflexivity|].
    exists "0", ".5", EmptyString. split; [reflexivity|].
    split; [left; discriminate | intros rest; reflexivity].
  - split; [reflexivity|]. split; [reflexivity|].
    exists "0", ".0", EmptyString. split; [reflexivity|].
    split; [left; discriminate | intros rest; reflexivity].
  - split; [reflexivity|]. split; [reflexivity|].
    exists "-0", ".25", EmptyString. split; [reflexivity|].
    split; [left; discriminate | intros rest; reflexivity].
Defined.

End WireProofs.


Section SensorProofs.

Import sensor.

(** ** Shutdown of the frame relay *)

Section Shutdown.

Context {Image Webp : Type}.
Variable encode : Image -> Webp.

Implicit Types (p : pipeline Image Webp) (a : action Image).

Lemma step_stopped a p : stopped p -> stopped (step encode a p).
Proof.
  unfold stopped. intros H. destruct a; simpl.
  - reflexivity.
  - destruct (callback_thread p); exact H.
  - unfold run_callback. destruct (callback_thread p) as [|pc image]; [exact H|].
    destruct (put_step _ _ _ _) as [q pc']. exact H.
  - unfold run_fill. destruct (fill_thread p) as [| | img | pc w |]; simpl; try exact H.
    + destruct (Queue.get_nowait _) as [[img q]|e]; exact H.
    + destruct (put_step _ _ _ _) as [q pc']. exact H.
  - unfold run_send. destruct (send_thread p) as [| | w | | e]; simpl; try exact H.
    destruct (Queue.get_nowait _) as [[w q]|e]; exact H.
Qed.

Lemma step_fill a p :
  stopped p ->
  (fill_rank (fill_thread (step encode a p))
   <= fill_rank (fill_thread p) - match a with RunFill => 1 | _ => 0 end)%nat
  /\ exists extra,
       converted (step encode a p) = converted p ++ extra
       /\ (length extra + fill_pending (fill_thread (step encode a p))
           <= fill_pending (fill_thread p))%nat.
Proof.
  unfold stopped. intros H.
  assert (Hsame : forall q, fill_thread q = fill_thread p -> converted q = converted p ->
            (fill_rank (fill_thread q) <= fill_rank (fill_thread p) - 0)%nat
            /\ exists extra, converted q = converted p ++ extra
                 /\ (length extra + fill_pending (fill_thread q)
                     <= fill_pending (fill_thread p))%nat).
  { intros q -> ->. split; [lia|]. exists []. rewrite app_nil_r. simpl. split; [reflexivity | lia]. }
  destruct a; simpl step.
  - apply Hsame; reflexivity.
  - destruct (callback_thread p); apply Hsame; reflexivity.
  - unfold run_callback. destruct (callback_thread p) as [|pc image]; [apply Hsame; reflexivity|].
    destruct (put_step _ _ _ _) as [q pc']. apply Hsame; reflexivity.
  - unfold run_fill. destruct (fill_thread p) as [| | img | pc w |] eqn:E; simpl.
    + rewrite H. simpl. split; [lia|]. exists []. rewrite app_nil_r. simpl. split; [reflexivity | lia].
    + destruct (Queue.get_nowait _) as [[img q]|e]; simpl;
        (split; [lia|]); exists []; rewrite app_nil_r; simpl; split; try reflexivity; lia.
    + split; [lia|]. exists [img]. simpl. split; [reflexivity | lia].
    + rewrite H. destruct pc; simpl.
      * split; [lia|]. exists []. rewrite app_nil_r. simpl. split; [reflexivity | lia].
      * destruct (Queue.put_nowait _ _); simpl;
          (split; [lia|]); exists []; rewrite app_nil_r; simpl; split; try reflexivity; lia.
      * destruct (Queue.get_nowait _) as [[x q]|e]; simpl;
          (split; [lia|]); exists []; rewrite app_nil_r; simpl; split; try reflexivity; lia.
    + rewrite E. simpl. split; [lia|]. exists []. rewrite app_nil_r. simpl. split; [reflexivity | lia].
  - unfold run_send. destruct (send_thread p) as [| | w | | e]; simpl;
      try (apply Hsame; reflexivity).
    destruct (Queue.get_nowait _) as [[w q]|e]; apply Hsame; reflexivity.
Qed.


Lemma step_send a p :
  stopped p ->
  (send_rank (send_thread (step encode a p))
   <= send_rank (send_thread p) - match a with RunSend _ => 1 | _ => 0 end)%nat
  /\ exists extra,
       datagrams (step encode a p) = datagrams p ++ extra
       /\ (length extra + send_pending (send_thread (step encode a p))
           <= send_pending (send_thread p))%nat.
Proof.
  unfold stopped. intros H.
  assert (Hsame : forall q : pipeline Image Webp, send_thread q = send_thread p -> datagrams q = datagrams p ->
            (send_rank (send_thread q) <= send_rank (send_thread p) - 0)%nat
            /\ exists extra, datagrams q = datagrams p ++ extra
                 /\ (length extra + send_pending (send_thread q)
                     <= send_pending (send_thread p))%nat).
  { intros q -> ->. split; [lia|]. exists []. rewrite app_nil_r. simpl. split; [reflexivity | lia]. }
  destruct a; simpl step.
  - apply Hsame; reflexivity.
  - destruct (callback_thread p); apply Hsame; reflexivity.
  - unfold run_callback. destruct (callback_thread p) as [|pc image]; [apply Hsame; reflexivity|].
    destruct (put_step _ _ _ _) as [q pc']. apply Hsame; reflexivity.
  - unfold run_fill. destruct (fill_thread p) as [| | img | pc w |]; simpl;
      try (apply Hsame; reflexivity).
    + destruct (Queue.get_nowait _) as [[img q]|e]; apply Hsame; reflexivity.
    + destruct (put_step _ _ _ _) as [q pc']. apply Hsame; reflexivity.
  - unfold run_send. destruct (send_thread p) as [| | w | | e] eqn:E; simpl.
    + rewrite H. simpl. split; [lia|]. exists []. rewrite app_nil_r. simpl. split; [reflexivity | lia].
    + destruct (Queue.get_nowait _) as [[w q]|e]; simpl;
        (split; [lia|]); exists []; rewrite app_nil_r; simpl; split; try reflexivity; lia.
    + split; [destruct answer as [u|[]]; simpl; lia|].
      eexists. split; [reflexivity|]. destruct answer as [u|[]]; simpl; lia.
    + rewrite E. simpl. split; [lia|]. exists []. rewrite app_nil_r. simpl. split; [reflexivity | lia].
    + rewrite E. simpl. split; [lia|]. exists []. rewrite app_nil_r. simpl. split; [reflexivity | lia].
Qed.

(** Once the flag is set, a callback thread at the head of its loop stays
    there, and the raw-image queue only loses items. *)
Lemma step_callback a p :
  stopped p -> callback_at_head (callback_thread p) = true ->
  callback_at_head (callback_thread (step encode a p)) = true
  /\ exists k,
       Queue.items (_carla_images (self (step encode a p)))
       = skipn k (Queue.items (_carla_images (self p))).
Proof.
  unfold stopped. intros H Hc.
  assert (Hsame : forall q : pipeline Image Webp, callback_thread q = callback_thread p ->
            _carla_images (self q) = _carla_images (self p) ->
            callback_at_head (callback_thread q) = true
            /\ exists k, Queue.items (_carla_images (self q))
                         = skipn k (Queue.items (_carla_images (self p)))).
  { intros q -> ->. split; [exact Hc|]. exists 0%nat. reflexivity. }
  destruct a; simpl step.
  - apply Hsame; reflexivity.
  - destruct (callback_thread p) eqn:E; [|apply Hsame; [exact E | reflexivity]].
    simpl. split; [reflexivity|]. exists 0%nat. reflexivity.
  - unfold run_callback. destruct (callback_thread p) as [|pc image] eqn:E;
      [apply Hsame; [exact E | reflexivity]|].
    destruct pc; try discriminate Hc. simpl. rewrite H. simpl.
    split; [reflexivity|]. exists 0%nat. reflexivity.
  - unfold run_fill. destruct (fill_thread p) as [| | img | pc w |]; simpl;
      try (apply Hsame; reflexivity).
    + unfold Queue.get_nowait.
      destruct (Queue.items (_carla_images (self p))) as [|x l] eqn:El; simpl;
        (split; [exact Hc|]).
      * exists 0%nat. rewrite El. reflexivity.
      * exists 1%nat. reflexivity.
    + destruct (put_step _ _ _ _) as [q pc']. apply Hsame; reflexivity.
  - unfold run_send. destruct (send_thread p) as [| | w | | e]; simpl;
      try (apply Hsame; reflexivity).
    destruct (Queue.get_nowait _) as [[w q]|e]; apply Hsame; reflexivity.
Qed.

Lemma run_stopped (schedule : list (action Image)) p :
  stopped p -> stopped (run encode schedule p).
Proof.
  revert p. induction schedule as [|a rest IH]; intros p H; [exact H|].
  simpl. apply IH, step_stopped, H.
Qed.

Lemma run_fill_bound (schedule : list (action Image)) p :
  stopped p ->
  (fill_rank (fill_thread (run encode schedule p))
   <= fill_rank (fill_thread p)
      - fill_turns schedule)%nat
  /\ exists extra,
       converted (run encode schedule p) = converted p ++ extra
       /\ (length extra <= fill_pending (fill_thread p))%nat.
Proof.
  revert p. induction schedule as [|a rest IH]; intros p H.
  - unfold fill_turns, send_turns. simpl. split; [lia|].
    exists []. rewrite app_nil_r. simpl. split; [reflexivity | lia].
  - change (run encode (a :: rest) p) with (run encode rest (step encode a p)).
    destruct (IH _ (step_stopped a p H)) as (Hr & extra2 & He2 & Hl2).
    destruct (step_fill a p H) as (Hr1 & extra1 & He1 & Hl1).
    split.
    + unfold fill_turns, send_turns in *. simpl List.filter. destruct a; simpl length; lia.
    + exists (extra1 ++ extra2). rewrite He2, He1, <- app_assoc, length_app.
      split; [reflexivity | lia].
Qed.

Lemma run_send_bound (schedule : list (action Image)) p :
  stopped p ->
  (send_rank (send_thread (run encode schedule p))
   <= send_rank (send_thread p)
      - send_turns schedule)%nat
  /\ exists extra,
       datagrams (run encode schedule p) = datagrams p ++ extra
       /\ (length extra <= send_pending (send_thread p))%nat.
Proof.
  revert p. induction schedule as [|a rest IH]; intros p H.
  - unfold fill_turns, send_turns. simpl. split; [lia|].
    exists []. rewrite app_nil_r. simpl. split; [reflexivity | lia].
  - change (run encode (a :: rest) p) with (run encode rest (step encode a p)).
    destruct (IH _ (step_stopped a p H)) as (Hr & extra2 & He2 & Hl2).
    destruct (step_send a p H) as (Hr1 & extra1 & He1 & Hl1).
    split.
    + unfold fill_turns, send_turns in *. simpl List.filter. destruct a; simpl length; lia.
    + exists (extra1 ++ extra2). rewrite He2, He1, <- app_assoc, length_app.
      split; [reflexivity | lia].
Qed.

Lemma run_callback_bound (schedule : list (action Image)) p :
  stopped p -> callback_at_head (callback_thread p) = true ->
  exists k,
    Queue.items (_carla_images (self (run encode schedule p)))
    = skipn k (Queue.items (_carla_images (self p))).
Proof.
  revert p. induction schedule as [|a rest IH]; intros p H Hc.
  - exists 0%nat. reflexivity.
  - change (run encode (a :: rest) p) with (run encode rest (step encode a p)).
    destruct (step_callback a p H Hc) as (Hc1 & k1 & Hk1).
    destruct (IH _ (step_stopped a p H) Hc1) as (k2 & Hk2).
    exists (k1 + k2)%nat. rewrite Hk2, Hk1, skipn_skipn. f_equal. lia.
Qed.

End Shutdown.

Lemma put_steps_put_dropping_oldest {A} (fuel n : nat) (stop : bool) (q q' : Queue.t A)
  (x : A) :
  put_dropping_oldest fuel stop q x = Some q' -> (3 * fuel <= n)%nat ->
  put_steps n stop q x (Some AtWhile) = (q', None).
Proof.
  revert q n. induction fuel as [|fuel IH]; intros q n H Hn; [discriminate|].
  destruct n as [|[|[|n]]]; try lia.
  simpl in H. destruct stop.
  - injection H as <-. reflexivity.
  - simpl. destruct (Queue.put_nowait q x) as [q1|e].
    + injection H as <-. destruct n; reflexivity.
    + simpl. destruct (Queue.get_nowait q) as [[y q1]|e']; apply IH; try exact H; lia.
Qed.

(** C9 (as the code has it). With the flag set: the frame callback returns
    at once and leaves the raw-image queue as it is, and while frames keep
    coming the queue gets no item; the flag stays set; each worker finishes
    the turn of its loop it is in, which can still make one encode or one
    send when the worker is past the test of the flag, and none when it is
    at the test; and it has returned after four statements of its own (the
    encode stage) or three (the send stage). *)
Theorem C9_after_stop {Image Webp : Type} (encode : Image -> Webp)
  (p : pipeline Image Webp) (schedule : list (action Image)) (fuel : nat) (image : Image) :
  _stop_event (self p) = true ->
  let p' := run encode schedule p in
  option_map _carla_images (_add_image_to_carla_images_queue (S fuel) (self p) image)
    = Some (_carla_images (self p))
  /\ _stop_event (self p') = true
  /\ (callback_at_head (callback_thread p) = true ->
      exists k, Queue.items (_carla_images (self p'))
                = skipn k (Queue.items (_carla_images (self p))))
  /\ (exists extra, converted p' = converted p ++ extra
                    /\ (length extra <= fill_pending (fill_thread p))%nat)
  /\ (exists extra, datagrams p' = datagrams p ++ extra
                    /\ (length extra <= send_pending (send_thread p))%nat)
  /\ (fill_thread p = FillWhile -> converted p' = converted p)
  /\ (send_thread p = SendWhile -> datagrams p' = datagrams p)
  /\ ((4 <= fill_turns schedule)%nat -> fill_thread p' = FillReturned)
  /\ ((3 <= send_turns schedule)%nat ->
      send_thread p' = SendReturned \/ exists e, send_thread p' = SendDied e).
Proof.
  intros H p'.
  destruct (run_fill_bound encode schedule p H) as (Hfr & extra1 & He1 & Hl1).
  destruct (run_send_bound encode schedule p H) as (Hsr & extra2 & He2 & Hl2).
  fold p' in Hfr, He1, Hsr, He2.
  split; [unfold _add_image_to_carla_images_queue; simpl; rewrite H; reflexivity|].
  split; [apply run_stopped; exact H|].
  split; [apply run_callback_bound; exact H|].
  split; [exists extra1; auto|]. split; [exists extra2; auto|].
  split.
  { intros E. rewrite E in Hl1. simpl in Hl1. destruct extra1; [|simpl in Hl1; lia].
    rewrite He1, app_nil_r. reflexivity. }
  split.
  { intros E. rewrite E in Hl2. simpl in Hl2. destruct extra2; [|simpl in Hl2; lia].
    rewrite He2, app_nil_r. reflexivity. }
  split.
  - intros Ht. assert (Hle : (fill_rank (fill_thread p) <= 4)%nat)
      by (destruct (fill_thread p) as [| | |[]|]; simpl; lia).
    destruct (fill_thread p') as [| | |[]|]; simpl in Hfr; try lia. reflexivity.
  - intros Ht. assert (Hle : (send_rank (send_thread p) <= 3)%nat)
      by (destruct (send_thread p); simpl; lia).
    destruct (send_thread p') as [| | | |e]; simpl in Hsr; try lia; eauto.
Qed.

Lemma C9_witness :
  converted (run id [Listen 1%nat; RunCallback; RunFill; RunSend (Ok tt)]
               (run id [SetStop] (started sensor2))) = []
  /\ Queue.items
       (_carla_images
          (self (run id [Listen 1%nat; RunCallback; RunFill; RunSend (Ok tt)]
                   (run id [SetStop] (started sensor2))))) = [].
Proof.
  destruct (C9_after_stop id (run id [SetStop] (started sensor2))
              [Listen 1%nat; RunCallback; RunFill; RunSend (Ok tt)] 0 1%nat eq_refl)
    as (_ & _ & Hq & _ & _ & Hc & _).
  split; [apply Hc; reflexivity|].
  destruct (Hq eq_refl) as [k Hk]. rewrite Hk. simpl. destruct k; reflexivity.
Defined.

(** The claim as the spec words it, no encode and no send once the flag is
    set, fails for a worker that had passed its test of the flag: the
    encode stage tests the flag, the flag is set, and the stage still gets
    the frame from the queue and encodes it. *)
Lemma C9_counterexample :
  ~ (forall before after : list (action nat),
       let p := run id before (started sensor2) in
       _stop_event (self p) = true ->
       converted (run id after p) = converted p
       /\ datagrams (run id after p) = datagrams p).
Proof.
  intros H.
  specialize (H [Listen 7%nat; RunCallback; RunCallback; RunFill; SetStop]
                [RunFill; RunFill] eq_refl).
  destruct H as [H _]. vm_compute in H. discriminate H.
Qed.

End SensorProofs.

(** * Further properties *)

Section SensorExtras.

Import sensor.

(** ** The running pipeline *)

Section Pipeline.

Context {Image Webp : Type}.
Variable encode : Image -> Webp.

Implicit Types (p : pipeline Image Webp) (a : action Image).

(** One statement of the drop-oldest loop keeps a queue within its
    capacity. *)
Lemma put_step_bounded {A} (n : nat) (stop : bool) (q : Queue.t A) (x : A) (pc : put_pc) :
  (1 <= n)%nat -> Queue.maxsize q = Z.of_nat n -> (length (Queue.items q) <= n)%nat ->
  Queue.maxsize (fst (put_step stop q x pc)) = Z.of_nat n
  /\ (length (Queue.items (fst (put_step stop q x pc))) <= n)%nat.
Proof.
  intros Hn Hm Hl. destruct pc; simpl.
  - destruct stop; simpl; auto.
  - unfold Queue.put_nowait, Queue.full, Queue.qsize. rewrite Hm.
    destruct (Z.ltb_spec 0 (Z.of_nat n)); [|lia]. simpl.
    destruct (Z.leb_spec (Z.of_nat n) (Z.of_nat (length (Queue.items q)))); simpl.
    + auto.
    + split; [reflexivity|]. rewrite length_app. simpl. lia.
  - unfold Queue.get_nowait. destruct (Queue.items q) as [|y l] eqn:E; simpl.
    + rewrite E. simpl. split; [exact Hm | lia].
    + split; [exact Hm|]. simpl in Hl. lia.
Qed.

Lemma get_nowait_bounded {A} (n : nat) (q q' : Queue.t A) (x : A) :
  Queue.get_nowait q = Ok (x, q') ->
  Queue.maxsize q' = Queue.maxsize q
  /\ Queue.items q = x :: Queue.items q'.
Proof.
  unfold Queue.get_nowait. destruct (Queue.items q) as [|y l]; [discriminate|].
  intros [= <- <-]. simpl. auto.
Qed.

Lemma step_queues_bounded (n : nat) a p :
  (1 <= n)%nat -> queues_bounded n p -> queues_bounded n (step encode a p).
Proof.
  intros Hn (M1 & M2 & L1 & L2). unfold queues_bounded. destruct a; simpl step.
  - simpl. auto.
  - destruct (callback_thread p); simpl; auto.
  - unfold run_callback. destruct (callback_thread p) as [|pc image]; [auto|].
    pose proof (put_step_bounded n (_stop_event (self p)) _ image pc Hn M1 L1) as [H1 H2].
    destruct (put_step _ _ _ _) as [q pc']. simpl in *. auto.
  - unfold run_fill. destruct (fill_thread p) as [| | img | pc w |].
    + simpl. auto.
    + destruct (Queue.get_nowait _) as [[img q]|e] eqn:E; simpl; [|auto].
      destruct (get_nowait_bounded n _ _ _ E) as [H1 H2]. rewrite H2 in L1. simpl in L1.
      repeat split; try assumption; try lia; try congruence.
    + simpl. auto.
    + pose proof (put_step_bounded n (_stop_event (self p)) _ w pc Hn M2 L2) as [H1 H2].
      destruct (put_step _ _ _ _) as [q pc']. simpl in *. auto.
    + auto.
  - unfold run_send. destruct (send_thread p) as [| | w | | e].
    + simpl. auto.
    + destruct (Queue.get_nowait _) as [[w q]|e] eqn:E; simpl; [|auto].
      destruct (get_nowait_bounded n _ _ _ E) as [H1 H2]. rewrite H2 in L2. simpl in L2.
      repeat split; try assumption; try lia; try congruence.
    + simpl. auto.
    + auto.
    + auto.
Qed.

(** X1. Whatever the threads do and in whatever order, neither queue of a
    started sensor of capacity [n >= 1] ever holds more than [n] items. *)
Theorem X1_queues_bounded (n : nat) (host : string) (port : Z)
  (schedule : list (action Image)) :
  (1 <= n)%nat ->
  queues_bounded n (run encode schedule (started (Sensor_init (Z.of_nat n) host port))).
Proof.
  intros Hn.
  set (p0 := started (Sensor_init (Image := Image) (Webp := Webp) (Z.of_nat n) host port)).
  assert (H0 : queues_bounded n p0) by (repeat split; simpl; lia).
  clearbody p0. revert p0 H0.
  induction schedule as [|a rest IH]; intros p Hp; [exact Hp|].
  simpl. apply IH, step_queues_bounded; assumption.
Qed.

End Pipeline.

Lemma X1_witness :
  queues_bounded 2
    (run id [Listen 1%nat; RunCallback; RunCallback; Listen 2%nat; RunCallback; RunCallback;
             Listen 3%nat; RunCallback; RunCallback; RunCallback; RunCallback; RunCallback]
       (started sensor2)).
Proof. apply (X1_queues_bounded id 2 "host" 9000). lia. Defined.

Section Order.

Context {Image Webp : Type}.
Variable encode : Image -> Webp.

Implicit Types (p : pipeline Image Webp) (a : action Image).

Ltac peel :=
  repeat first
    [ reflexivity
    | apply sublist_nil_l
    | apply sublist_inserts_r; reflexivity
    | apply sublist_cons; reflexivity
    | apply sublist_app; [reflexivity|]
    | apply sublist_skip ].

Lemma step_frames_in_flight a p :
  frames_in_flight (step encode a p)
  `sublist_of` frames_in_flight p ++ match a with Listen image => [image] | _ => [] end.
Proof.
  unfold frames_in_flight. destruct a; simpl step.
  - simpl. rewrite app_nil_r. reflexivity.
  - destruct (callback_thread p) eqn:E; simpl; rewrite ?E.
    + rewrite !app_nil_r, <- !app_assoc. reflexivity.
    + apply sublist_inserts_r. reflexivity.
  - rewrite app_nil_r. unfold run_callback.
    destruct (callback_thread p) as [|pc image] eqn:E; [rewrite E; reflexivity|].
    destruct pc; simpl.
    + destruct (_stop_event (self p)); simpl; peel.
    + unfold Queue.put_nowait. destruct (Queue.full _); simpl; [peel|].
      rewrite app_nil_r. reflexivity.
    + unfold Queue.get_nowait.
      destruct (Queue.items (_carla_images (self p))) as [|y l] eqn:El; simpl; rewrite ?El; peel.
  - rewrite app_nil_r. unfold run_fill.
    destruct (fill_thread p) as [| | img | pc w |] eqn:E; simpl; rewrite ?E.
    + destruct (_stop_event (self p)); reflexivity.
    + unfold Queue.get_nowait.
      destruct (Queue.items (_carla_images (self p))) as [|y l] eqn:El; simpl; rewrite ?El;
        reflexivity.
    + rewrite <- !app_assoc. reflexivity.
    + destruct (put_step _ _ _ _) as [q [pc'|]]; reflexivity.
    + reflexivity.
  - rewrite app_nil_r. unfold run_send.
    destruct (send_thread p) as [| | w | | e]; simpl; try reflexivity.
    destruct (Queue.get_nowait _) as [[w q]|e]; reflexivity.
Qed.

Lemma step_payloads_in_flight a p :
  payloads_in_flight p `sublist_of` map encode (converted p) ->
  payloads_in_flight (step encode a p) `sublist_of` map encode (converted (step encode a p)).
Proof.
  intros H.
  assert (Hdrop : forall l, l `sublist_of` payloads_in_flight p ->
                            l `sublist_of` map encode (converted p))
    by (intros l Hl; etransitivity; [exact Hl | exact H]).
  unfold payloads_in_flight in *. destruct a; simpl step.
  - exact H.
  - destruct (callback_thread p); exact H.
  - unfold run_callback. destruct (callback_thread p) as [|pc image]; [exact H|].
    destruct (put_step _ _ _ _) as [q pc']. exact H.
  - unfold run_fill. destruct (fill_thread p) as [| | img | pc w |] eqn:E; simpl.
    + apply Hdrop. rewrite ?E. destruct (_stop_event (self p)); reflexivity.
    + destruct (Queue.get_nowait _) as [[img q]|e]; simpl; apply Hdrop; rewrite ?E; reflexivity.
    + rewrite map_app. simpl. rewrite ?E in H. rewrite app_nil_r in H.
      rewrite !app_assoc. apply sublist_app; [|reflexivity].
      rewrite <- !app_assoc. exact H.
    + destruct pc; simpl.
      * destruct (_stop_event (self p)); simpl; apply Hdrop; peel.
      * unfold Queue.put_nowait. destruct (Queue.full _); simpl; apply Hdrop; [peel|].
        rewrite app_nil_r. reflexivity.
      * unfold Queue.get_nowait.
        destruct (Queue.items (_webp_bytes (self p))) as [|y l] eqn:El; simpl;
          apply Hdrop; rewrite ?El; peel.
    + rewrite ?E. exact H.
  - unfold run_send. destruct (send_thread p) as [| | w | | e] eqn:E; simpl.
    + apply Hdrop. rewrite ?E. destruct (_stop_event (self p)); reflexivity.
    + unfold Queue.get_nowait.
      destruct (Queue.items (_webp_bytes (self p))) as [|y l] eqn:El; simpl;
        apply Hdrop; rewrite ?El; reflexivity.
    + apply Hdrop. rewrite ?E, map_app. simpl. rewrite <- !app_assoc.
      destruct answer as [u|[]]; reflexivity.
    + rewrite ?E. exact H.
    + rewrite ?E. exact H.
Qed.

Lemma step_addressed (host : string) (port : Z) a p :
  addressed host port p -> addressed host port (step encode a p).
Proof.
  intros (Hh & Hp & Hd). unfold addressed. destruct a; simpl step.
  - simpl. auto.
  - destruct (callback_thread p); simpl; auto.
  - unfold run_callback. destruct (callback_thread p) as [|pc image]; [auto|].
    destruct (put_step _ _ _ _) as [q pc']. simpl. auto.
  - unfold run_fill. destruct (fill_thread p) as [| | img | pc w |]; simpl; auto.
    + destruct (Queue.get_nowait _) as [[img q]|e]; simpl; auto.
    + destruct (put_step _ _ _ _) as [q pc']. simpl. auto.
  - unfold run_send. destruct (send_thread p) as [| | w | | e]; simpl; auto.
    + destruct (Queue.get_nowait _) as [[w q]|e]; simpl; auto.
    + repeat split; try assumption. apply Forall_app. split; [exact Hd|].
      constructor; [|constructor]. simpl. congruence.
Qed.

Lemma run_frames_in_flight (schedule : list (action Image)) p :
  frames_in_flight (run encode schedule p)
  `sublist_of` frames_in_flight p ++ listened schedule.
Proof.
  revert p. induction schedule as [|a rest IH]; intros p.
  - simpl. rewrite app_nil_r. reflexivity.
  - change (run encode (a :: rest) p) with (run encode rest (step encode a p)).
    etransitivity; [apply IH|].
    replace (listened (a :: rest))
      with (match a with Listen image => [image] | _ => [] end ++ listened rest)
      by (destruct a; reflexivity).
    rewrite app_assoc. apply sublist_app; [|reflexivity].
    apply step_frames_in_flight.
Qed.

Lemma run_payloads_in_flight (schedule : list (action Image)) p :
  payloads_in_flight p `sublist_of` map encode (converted p) ->
  payloads_in_flight (run encode schedule p)
  `sublist_of` map encode (converted (run encode schedule p)).
Proof.
  revert p. induction schedule as [|a rest IH]; intros p H; [exact H|].
  apply IH, step_payloads_in_flight, H.
Qed.

Lemma run_addressed (host : string) (port : Z) (schedule : list (action Image)) p :
  addressed host port p -> addressed host port (run encode schedule p).
Proof.
  revert p. induction schedule as [|a rest IH]; intros p H; [exact H|].
  apply IH, step_addressed, H.
Qed.

(** X2. Whatever the schedule, a started sensor encodes frames that the
    frame source delivered, in the order of delivery and each at most once;
    the payloads it hands to the sender are encodings of frames it encoded,
    in that order and each at most once; and every datagram is addressed to
    the host and the port of the sensor. *)
Theorem X2_relay_order (queue_size : Z) (host : string) (port : Z)
  (schedule : list (action Image)) :
  let p := run encode schedule (started (Sensor_init queue_size host port)) in
  converted p `sublist_of` listened schedule
  /\ map fst (datagrams p) `sublist_of` map encode (converted p)
  /\ Forall (fun d => snd d = (host, port)) (datagrams p).
Proof.
  intros p. split; [|split].
  - etransitivity;
      [|apply (run_frames_in_flight schedule (started (Sensor_init queue_size host port)))].
    unfold frames_in_flight. apply sublist_inserts_r. reflexivity.
  - etransitivity;
      [|apply (run_payloads_in_flight schedule (started (Sensor_init queue_size host port)));
        reflexivity].
    unfold payloads_in_flight. apply sublist_inserts_r. reflexivity.
  - apply (run_addressed host port schedule (started (Sensor_init queue_size host port))).
    repeat split. constructor.
Qed.

End Order.

Section Unbounded.

Context {Image Webp : Type}.
Variable encode : Image -> Webp.

Implicit Types (p : pipeline Image Webp) (a : action Image) (self : Sensor Image Webp).

Lemma put_dropping_oldest_unbounded {A} (fuel : nat) (q : Queue.t A) (x : A) :
  Queue.maxsize q <= 0 ->
  put_dropping_oldest (S fuel) false q x
  = Some (Queue.mk (Queue.maxsize q) (Queue.items q ++ [x])).
Proof.
  intros H. simpl. unfold Queue.put_nowait, Queue.full.
  destruct (Z.ltb_spec 0 (Queue.maxsize q)); [lia|]. reflexivity.
Qed.

(** X3. A queue size of zero or less makes the raw-image queue unbounded:
    with the flag clear every frame delivered is kept, behind the ones
    already there, and none is dropped. *)
Theorem X3_unbounded_queue (fuel : nat) self (images : list Image) :
  _stop_event self = false ->
  Queue.maxsize (_carla_images self) <= 0 ->
  deliver (S fuel) self images
  = Some (set_carla_images
            (Queue.mk (Queue.maxsize (_carla_images self))
                      (Queue.items (_carla_images self) ++ images)) self).
Proof.
  revert self. induction images as [|image rest IH]; intros self Hstop Hmax.
  - simpl. rewrite app_nil_r. destruct self as [qs h pt st [m l] w]. reflexivity.
  - cbn [deliver]. unfold _add_image_to_carla_images_queue.
    rewrite Hstop, put_dropping_oldest_unbounded by exact Hmax.
    rewrite IH by assumption. simpl. rewrite <- app_assoc. reflexivity.
Qed.

(** What one statement keeps of the send stage while the flag is clear:
    the worker has not returned, and if it is dead, a call of
    [send_datagram] raised what killed it, which is not [Full]. *)
Lemma step_send_alive (done : list (action Image)) a p :
  match a with SetStop => False | _ => True end ->
  _stop_event (self p) = false ->
  send_thread p <> SendReturned ->
  (forall e, send_thread p = SendDied e -> e <> Full /\ In (RunSend (Raise e)) done) ->
  _stop_event (self (step encode a p)) = false
  /\ send_thread (step encode a p) <> SendReturned
  /\ (forall e, send_thread (step encode a p) = SendDied e ->
       e <> Full /\ In (RunSend (Raise e)) (done ++ [a])).
Proof.
  intros Ha Hs Hr Hd.
  assert (Hd' : forall e, send_thread p = SendDied e ->
                          e <> Full /\ In (RunSend (Raise e)) (done ++ [a])).
  { intros e He. destruct (Hd e He) as [H1 H2]. split; [exact H1|].
    apply in_or_app. left. exact H2. }
  destruct a; simpl step; [contradiction| | | |].
  - destruct (callback_thread p); auto.
  - unfold run_callback. destruct (callback_thread p) as [|pc image]; [auto|].
    destruct (put_step _ _ _ _) as [q pc']. simpl. auto.
  - unfold run_fill. destruct (fill_thread p) as [| | img | pc w |]; simpl; auto.
    + destruct (Queue.get_nowait _) as [[img q]|e]; simpl; auto.
    + destruct (put_step _ _ _ _) as [q pc']. simpl. auto.
  - unfold run_send. destruct (send_thread p) as [| | w | | e0] eqn:E; simpl.
    + rewrite Hs. repeat split; try assumption; try discriminate.
    + destruct (Queue.get_nowait _) as [[w q]|e0]; simpl;
        repeat split; try assumption; try discriminate.
    + split; [exact Hs|].
      destruct answer as [u|e0]; [repeat split; discriminate|].
      destruct e0; split; try discriminate; intros e [= <-];
        (split; [discriminate | apply in_or_app; right; left; reflexivity]).
    + contradiction.
    + rewrite E. auto.
Qed.

(** X4. The send stage survives a full sender queue.  As long as nothing
    sets the flag, the flag stays clear and the send worker never returns,
    whatever the other threads do; if it is dead, some call of
    [send_datagram] raised the exception that killed it, and that was not
    [Full]: after a call that returns or raises [Full] the worker goes on
    with its loop. *)
Theorem X4_send_stage_survives_full (queue_size : Z) (host : string) (port : Z)
  (schedule : list (action Image)) :
  sets_stop schedule = false ->
  let p := run encode schedule (started (Sensor_init queue_size host port)) in
  _stop_event (self p) = false
  /\ send_thread p <> SendReturned
  /\ (forall e, send_thread p = SendDied e ->
       e <> Full /\ In (RunSend (Raise e)) schedule)
  /\ (Forall (fun a => forall e, a = RunSend (Raise e) -> e = Full) schedule ->
       send_thread p = SendWhile \/ send_thread p = SendGet
       \/ exists webp_bytes, send_thread p = SendCall webp_bytes).
Proof.
  intros Hns p.
  assert (Hgen : forall (rest done : list (action Image)) p0,
             sets_stop rest = false ->
             _stop_event (self p0) = false ->
             send_thread p0 <> SendReturned ->
             (forall e, send_thread p0 = SendDied e ->
                        e <> Full /\ In (RunSend (Raise e)) done) ->
             _stop_event (self (run encode rest p0)) = false
             /\ send_thread (run encode rest p0) <> SendReturned
             /\ (forall e, send_thread (run encode rest p0) = SendDied e ->
                  e <> Full /\ In (RunSend (Raise e)) (done ++ rest))).
  { clear. induction rest as [|a rest IH]; intros done p0 Hns Hs Hr Hd.
    - simpl. rewrite app_nil_r. auto.
    - simpl in Hns. apply orb_false_iff in Hns as [Ha Hrest].
      change (run encode (a :: rest) p0) with (run encode rest (step encode a p0)).
      replace (done ++ a :: rest) with ((done ++ [a]) ++ rest)
        by (rewrite <- app_assoc; reflexivity).
      assert (Ha' : match a with SetStop => False | _ => True end)
        by (destruct a; try exact I; discriminate Ha).
      destruct (step_send_alive done a p0 Ha' Hs Hr Hd) as (H1 & H2 & H3).
      apply IH; assumption. }
  destruct (Hgen schedule [] (started (Sensor_init queue_size host port)) Hns eq_refl)
    as (H1 & H2 & H3); [discriminate | intros e He; discriminate He |].
  fold p in H1, H2, H3. simpl in H3.
  repeat split; try assumption; try (apply H3; assumption).
  intros Hall. destruct (send_thread p) as [| | w | | e] eqn:E; eauto.
  - contradiction.
  - destruct (H3 e eq_refl) as [Hne Hin]. rewrite List.Forall_forall in Hall.
    exfalso. apply Hne. apply (Hall _ Hin). reflexivity.
Qed.

End Unbounded.

Lemma X3_witness :
  option_map (fun s => Queue.items (_carla_images s))
    (deliver 1 (Sensor_init (Image := nat) (Webp := nat) 0 "host" 9000)
       [1%nat; 2%nat; 3%nat])
  = Some [1%nat; 2%nat; 3%nat].
Proof.
  rewrite (X3_unbounded_queue 0 (Sensor_init (Image := nat) (Webp := nat) 0 "host" 9000)
             [1%nat; 2%nat; 3%nat]); [reflexivity | reflexivity | simpl; lia].
Defined.

Lemma X4_witness :
  send_thread
    (run id [Listen 1%nat; RunCallback; RunCallback;
             RunFill; RunFill; RunFill; RunFill; RunFill;
             RunSend (Ok tt); RunSend (Ok tt); RunSend (Raise Full)]
       (started sensor2)) = SendWhile
  /\ datagrams
       (run id [Listen 1%nat; RunCallback; RunCallback;
                RunFill; RunFill; RunFill; RunFill; RunFill;
                RunSend (Ok tt); RunSend (Ok tt); RunSend (Raise Full)]
          (started sensor2)) = [(1%nat, ("host"%string, 9000))].
Proof.
  destruct (X4_send_stage_survives_full id 2 "host" 9000
              [Listen 1%nat; RunCallback; RunCallback;
               RunFill; RunFill; RunFill; RunFill; RunFill;
               RunSend (Ok tt); RunSend (Ok tt); RunSend (Raise Full)] eq_refl)
    as (_ & _ & _ & H).
  split; [|reflexivity].
  destruct H as [H | [H | [w H]]].
  - repeat constructor; intros e [= <-]; reflexivity.
  - exact H.
  - discriminate H.
  - discriminate H.
Defined.

(** ** The pixel transforms *)

Section Reshape.

Context {A : Type}.
Implicit Types (l : list A).

Lemma length_chunks (n count : nat) l : length (chunks n count l) = count.
Proof. revert l. induction count as [|c IH]; intros l; simpl; [reflexivity|]. rewrite IH. reflexivity. Qed.

Lemma lookup_chunks (n count i : nat) l :
  (i < count)%nat -> chunks n count l !! i = Some (firstn n (skipn (i * n) l)).
Proof.
  revert i l. induction count as [|c IH]; intros i l Hi; [lia|].
  destruct i as [|i]; simpl; [reflexivity|].
  rewrite IH by lia. rewrite skipn_skipn. do 3 f_equal. lia.
Qed.

Lemma concat_chunks (n count : nat) l :
  length l = (count * n)%nat -> concat (chunks n count l) = l.
Proof.
  revert l. induction count as [|c IH]; intros l Hl; simpl.
  - destruct l; [reflexivity | discriminate].
  - rewrite IH; [apply firstn_skipn|]. rewrite length_skipn. lia.
Qed.

Lemma Forall_length_chunks (n count : nat) l :
  length l = (count * n)%nat -> Forall (fun c => length c = n) (chunks n count l).
Proof.
  revert l. induction count as [|c IH]; intros l Hl; simpl; constructor.
  - rewrite length_firstn. nia.
  - apply IH. rewrite length_skipn. lia.
Qed.

Lemma concat_concat_chunks (n count : nat) (rows : list (list A)) :
  Forall (fun row => length row = (count * n)%nat) rows ->
  concat (concat (map (chunks n count) rows)) = concat rows.
Proof.
  induction 1 as [|row rows Hrow _ IH]; [reflexivity|].
  simpl. rewrite concat_app, IH, concat_chunks by exact Hrow. reflexivity.
Qed.

End Reshape.

(** X5. [_carla_image_to_bgra_array] raises [ValueError] unless the buffer
    holds four bytes for each of the [height * width] pixels; when it does,
    the array has [height] rows of [width] pixels of four bytes, and read
    row after row it is the buffer. *)
Theorem X5_bgra_array (image : carla_Image) :
  (length (raw_data image) <> (height image * width image * 4)%nat ->
   _carla_image_to_bgra_array image = Raise ValueError)
  /\ (length (raw_data image) = (height image * width image * 4)%nat ->
      exists array,
        _carla_image_to_bgra_array image = Ok array
        /\ length array = height image
        /\ Forall (fun row => length row = width image
                              /\ Forall (fun pixel => length pixel = 4%nat) row) array
        /\ concat (concat array) = raw_data image).
Proof.
  unfold _carla_image_to_bgra_array, reshape3. split.
  - intros H. apply Nat.eqb_neq in H. rewrite H. reflexivity.
  - intros H. rewrite H, Nat.eqb_refl. eexists. split; [reflexivity|].
    assert (Hrows : length (raw_data image) = (height image * (width image * 4))%nat) by lia.
    split; [rewrite length_map; apply length_chunks|]. split.
    + apply Forall_map. eapply Forall_impl; [apply Forall_length_chunks, Hrows|].
      intros row Hrow. split; [apply length_chunks|].
      apply Forall_length_chunks. exact Hrow.
    + rewrite concat_concat_chunks; [apply concat_chunks; exact Hrows|].
      apply Forall_length_chunks. exact Hrows.
Qed.

Lemma X5_witness :
  _carla_image_to_bgra_array
    {| width := 1; height := 1; raw_data := [Byte.x01; Byte.x02; Byte.x03] |}
  = Raise ValueError.
Proof.
  apply (X5_bgra_array {| width := 1; height := 1;
                          raw_data := [Byte.x01; Byte.x02; Byte.x03] |}).
  simpl. lia.
Defined.

(** The pixel at row [y] and column [x] of a reshaped buffer is the slice
    of [depth] elements at [(y * d1 + x) * depth]. *)
Lemma reshape3_pixel {A} (d0 d1 depth y x : nat) (l : list A) array :
  reshape3 d0 d1 depth l = Ok array -> (y < d0)%nat -> (x < d1)%nat ->
  array !! y ≫= (fun row => row !! x)
  = Some (firstn depth (skipn ((y * d1 + x) * depth) l)).
Proof.
  unfold reshape3. destruct (length l =? d0 * d1 * depth)%nat eqn:E; [|discriminate].
  intros [= <-] Hy Hx. rewrite list_lookup_fmap, lookup_chunks by exact Hy. simpl.
  rewrite lookup_chunks by exact Hx. f_equal.
  rewrite skipn_firstn_comm, firstn_firstn, skipn_skipn.
  replace (Nat.min depth (d1 * depth - x * depth)) with depth by nia.
  do 2 f_equal. lia.
Qed.

(** X6. For a buffer of the right size, the pixel of the RGB array at row
    [y] and column [x] holds the red, green and blue bytes, in that order,
    of the four bytes (blue, green, red, alpha) at offset
    [4 * (y * width + x)] of the buffer; the array has [height] rows of
    [width] pixels.  A buffer of another size is a [ValueError]. *)
Theorem X6_rgb_array (image : carla_Image) :
  (length (raw_data image) <> (height image * width image * 4)%nat ->
   _carla_image_to_rgb_array image = Raise ValueError)
  /\ (length (raw_data image) = (height image * width image * 4)%nat ->
      exists array,
        _carla_image_to_rgb_array image = Ok array
        /\ length array = height image
        /\ Forall (fun row => length row = width image) array
        /\ forall y x b g r a,
             (y < height image)%nat -> (x < width image)%nat ->
             firstn 4 (skipn (4 * (y * width image + x)) (raw_data image)) = [b; g; r; a] ->
             array !! y ≫= (fun row => row !! x) = Some [r; g; b]).
Proof.
  unfold _carla_image_to_rgb_array. split.
  - intros H. unfold _carla_image_to_bgra_array, reshape3.
    apply Nat.eqb_neq in H. rewrite H. reflexivity.
  - intros H. destruct (_carla_image_to_bgra_array image) as [bgra|e] eqn:E;
      [|unfold _carla_image_to_bgra_array, reshape3 in E;
        rewrite H, Nat.eqb_refl in E; discriminate E].
    assert (Hshape : length bgra = height image
                     /\ Forall (fun row => length row = width image) bgra).
    { unfold _carla_image_to_bgra_array, reshape3 in E.
      rewrite H, Nat.eqb_refl in E. injection E as <-.
      split; [rewrite length_map; apply length_chunks|].
      apply Forall_map, Forall_forall. intros row _. apply length_chunks. }
    destruct Hshape as [Hlen Hrows].
    eexists. split; [reflexivity|]. split; [rewrite length_map; exact Hlen|]. split.
    + apply Forall_map. eapply Forall_impl; [exact Hrows|].
      intros row Hrow. simpl. rewrite length_map. exact Hrow.
    + intros y x b g r a Hy Hx Hpx.
      pose proof (reshape3_pixel _ _ _ y x _ _ E Hy Hx) as Hp.
      replace ((y * width image + x) * 4)%nat with (4 * (y * width image + x))%nat in Hp by lia.
      rewrite Hpx in Hp. rewrite list_lookup_fmap.
      destruct (bgra !! y) as [row|]; [|discriminate Hp]. simpl in *.
      rewrite list_lookup_fmap, Hp. reflexivity.
Qed.

Lemma X6_witness :
  exists array,
    _carla_image_to_rgb_array
      {| width := 2; height := 1;
         raw_data := [Byte.x01; Byte.x02; Byte.x03; Byte.xff;
                      Byte.x11; Byte.x12; Byte.x13; Byte.xff] |} = Ok array
    /\ array !! 0%nat ≫= (fun row => row !! 1%nat) = Some [Byte.x13; Byte.x12; Byte.x11].
Proof.
  destruct (X6_rgb_array
              {| width := 2; height := 1;
                 raw_data := [Byte.x01; Byte.x02; Byte.x03; Byte.xff;
                              Byte.x11; Byte.x12; Byte.x13; Byte.xff] |}) as [_ H].
  destruct (H eq_refl) as (array & E & _ & _ & Hpx).
  exists array. split; [exact E|].
  apply (Hpx 0%nat 1%nat Byte.x11 Byte.x12 Byte.x13 Byte.xff); [simpl; lia | simpl; lia | reflexivity].
Defined.

End SensorExtras.

Section DecodeErrors.

Import controller Json.
Local Open Scope string_scope.

(** ** Decoding what is not a wire record *)






End DecodeErrors.

Section DerivedValues.

Import controller.
Local Open Scope py_scope.

(** ** What the adapter derives from events within the interface *)

Lemma grid_round2_fixed : forallb PyFloat.round2_fixed PyFloat.normalized_grid = true.
Proof. vm_compute. reflexivity. Qed.

(** X8. Rounding to two decimals a value between -1 and 1 gives a value
    between -1 and 1 that rounding again leaves as it is, bit for bit: the
    second [round] that the derivation applies to the steer axis does
    nothing to what the handler stored. *)
Theorem X8_round_idempotent (v : float) :
  PyFloat.normalized v = true ->
  PyFloat.round2 (PyFloat.round2 v) = PyFloat.round2 v
  /\ PyFloat.normalized (PyFloat.round2 v) = true.
Proof.
  intros Hn. pose proof (py_round2_normalized v Hn) as Hin.
  pose proof grid_round2_fixed as Hall. rewrite forallb_forall in Hall.
  specialize (Hall _ Hin). unfold PyFloat.round2_fixed in Hall.
  apply andb_true_iff in Hall as [H1 H2]. apply FloatAxioms.Leibniz.eqb_spec in H1.
  split; assumption.
Qed.

Lemma X8_witness :
  PyFloat.round2 (PyFloat.round2 0.123) = PyFloat.round2 0.123.
Proof. apply (X8_round_idempotent 0.123). reflexivity. Defined.

Lemma grid_derived_in_range : forallb derived_in_range PyFloat.normalized_grid = true.
Proof. vm_compute. reflexivity. Qed.

Lemma grid_throttle_ordered :
  forallb (fun a => forallb (throttle_ordered a) PyFloat.normalized_grid)
          PyFloat.normalized_grid = true.
Proof. vm_compute. reflexivity. Qed.

Section Derived.

Context {D : Type}.
Implicit Types (self : _GamepadController D) (raw : RawControllerState).

Lemma derived_on_grid_in_range raw self self' cs :
  (forall k v, axis_data raw !! k = Some (Some v) -> In v PyFloat.normalized_grid) ->
  _handle_callback raw self = (self', Ok cs) ->
  in_range cs = true /\ steer_clear_of_deadzone cs = true.
Proof.
  intros Hg H.
  destruct (_handle_callback_inv _ _ _ _ H)
    as (a5 & a4 & a0 & b0 & b11 & b12 & b6 & cb & H5 & H4 & H0 & G0 & G11 & G12 & G6 & Hcb).
  rewrite (_handle_callback_ok _ _ _ _ _ _ _ _ _ _ H5 H4 H0 G0 G11 G12 G6 Hcb) in H.
  injection H as _ <-. unfold in_range, steer_clear_of_deadzone. simpl.
  pose proof grid_derived_in_range as Hall. rewrite forallb_forall in Hall.
  assert (Hgrid : forall k a, axis_data raw !! k = Some a ->
            match a with
            | Some v => derived_in_range v = true
            | None => True
            end).
  { intros k [v|] Hk; [|exact I]. apply Hall, (Hg k). exact Hk. }
  pose proof (Hgrid _ _ H5) as E5. pose proof (Hgrid _ _ H4) as E4.
  pose proof (Hgrid _ _ H0) as E0. unfold derived_in_range in *.
  destruct a5 as [v5|], a4 as [v4|], a0 as [v0|];
    repeat match goal with
           | E : _ = true |- _ => cbv zeta in E; rewrite !andb_true_iff in E
           end;
    repeat match goal with
           | E : _ /\ _ |- _ => destruct E
           end;
    split; rewrite ?andb_true_iff; repeat split; try assumption; reflexivity.
Qed.

(** X10. Of two derivations whose throttle axes hold values stored from
    event values between -1 and 1, the one with the smaller axis value has
    the smaller or equal throttle. *)
Theorem X10_throttle_monotone raw1 raw2 self1 self2 self1' self2'
  (cs1 cs2 : ControllerState) (v w : float) :
  PyFloat.normalized v = true -> PyFloat.normalized w = true ->
  axis_data raw1 !! 5 = Some (Some (PyFloat.round2 v)) ->
  axis_data raw2 !! 5 = Some (Some (PyFloat.round2 w)) ->
  _handle_callback raw1 self1 = (self1', Ok cs1) ->
  _handle_callback raw2 self2 = (self2', Ok cs2) ->
  (PyFloat.round2 v <=? PyFloat.round2 w)%float = true ->
  (throttle cs1 <=? throttle cs2)%float = true.
Proof.
  intros Hv Hw A1 A2 H1 H2 Hle.
  destruct (_handle_callback_inv _ _ _ _ H1)
    as (a5 & a4 & a0 & b0 & b11 & b12 & b6 & cb & H5 & H4 & H0 & G0 & G11 & G12 & G6 & Hcb).
  rewrite (_handle_callback_ok _ _ _ _ _ _ _ _ _ _ H5 H4 H0 G0 G11 G12 G6 Hcb) in H1.
  injection H1 as _ <-. rewrite A1 in H5. injection H5 as <-.
  destruct (_handle_callback_inv _ _ _ _ H2)
    as (c5 & c4 & c0 & d0 & d11 & d12 & d6 & cb2 & J5 & J4 & J0 & K0 & K11 & K12 & K6 & Jcb).
  rewrite (_handle_callback_ok _ _ _ _ _ _ _ _ _ _ J5 J4 J0 K0 K11 K12 K6 Jcb) in H2.
  injection H2 as _ <-. rewrite A2 in J5. injection J5 as <-. simpl.
  pose proof grid_throttle_ordered as Hall. rewrite forallb_forall in Hall.
  specialize (Hall _ (py_round2_normalized v Hv)). rewrite forallb_forall in Hall.
  specialize (Hall _ (py_round2_normalized w Hw)). unfold throttle_ordered in Hall.
  rewrite Hle in Hall. exact Hall.
Qed.

End Derived.

Lemma X10_witness :
  (PyFloat.round2 ((PyFloat.round2 (-0.5) + 1.0) / 2.0)
   <=? PyFloat.round2 ((PyFloat.round2 0.25 + 1.0) / 2.0))%float = true.
Proof.
  apply (X10_throttle_monotone
           (after_axis_event 5 (-0.5)) (after_axis_event 5 0.25)
           (new_adapter _set_controller_state) (new_adapter _set_controller_state)
           (new_adapter _set_controller_state) (new_adapter _set_controller_state)
           {| throttle := PyFloat.round2 ((PyFloat.round2 (-0.5) + 1.0) / 2.0);
              brake := 0; steer := 0; hand_brake := false; reverse := false; reset := false |}
           {| throttle := PyFloat.round2 ((PyFloat.round2 0.25 + 1.0) / 2.0);
              brake := 0; steer := 0; hand_brake := false; reverse := false; reset := false |}
           (-0.5)%float 0.25%float); reflexivity.
Defined.

(** The adapter with the recording callback: whatever an event does, the
    axis values stay on the grid and every state recorded is in range. *)
Lemma handle_event_in_range (ev : event)
  (self self' : _GamepadController (list ControllerState))
  (log log' : list ControllerState) (r : result unit) :
  _callback self = Some recording ->
  axes_on_grid (_handler self) ->
  Forall (fun cs => in_range cs = true /\ steer_clear_of_deadzone cs = true) log ->
  normalized_event ev = true ->
  handle_event ev (self, log) = ((self', log'), r) ->
  _callback self' = Some recording
  /\ axes_on_grid (_handler self')
  /\ Forall (fun cs => in_range cs = true /\ steer_clear_of_deadzone cs = true) log'.
Proof.
  intros Hcb Hg Hlog Hn H. unfold handle_event in H.
  destruct (store_event (_handler self) ev) as [h|] eqn:Hst;
    [|injection H as <- <- _; auto].
  pose proof (axes_on_grid_store _ _ _ Hg Hn Hst) as Hg'.
  unfold _callback_wrapper in H.
  destruct (_handle_callback (raw_state h) (set_handler h self)) as [s1 [cs|e]] eqn:Hd.
  - destruct (_handle_callback_state _ _ _ _ Hd) as [b ->].
    destruct (derived_on_grid_in_range (raw_state h) _ _ _ Hg' Hd) as [Hr Hz].
    simpl in H. rewrite Hcb in H.
    destruct (eq_optional cs (_last_controller_state self));
      injection H as <- <- _; simpl; repeat split; try assumption.
    unfold recording. apply Forall_app. split; [exact Hlog|]. repeat constructor; assumption.
  - destruct (_handle_callback_state _ _ _ _ Hd) as [b ->].
    injection H as <- <- _. simpl. auto.
Qed.

(** X9. Whatever events with axis values between -1 and 1 an adapter
    handles, every state it hands to its callback has its throttle and its
    brake between 0 and 1 and its steer between -1 and 1, and a steer that
    is zero or beyond the deadzone. *)
Theorem X9_emitted_states_in_range (na nb nh : nat) (evs : list event)
  (self : _GamepadController (list ControllerState)) (log : list ControllerState)
  (r : result unit) :
  forallb normalized_event evs = true ->
  handle_events evs (_GamepadController_init na nb nh (Some recording), []) = ((self, log), r) ->
  Forall (fun cs => in_range cs = true /\ steer_clear_of_deadzone cs = true) log.
Proof.
  intros Hn H.
  set (s0 := _GamepadController_init na nb nh (Some recording)) in H.
  assert (H0 : _callback s0 = Some recording /\ axes_on_grid (_handler s0)
               /\ Forall (fun cs => in_range cs = true /\ steer_clear_of_deadzone cs = true)
                         (@nil ControllerState)).
  { split; [reflexivity|]. split; [apply axes_on_grid_init | constructor]. }
  clearbody s0. revert s0 H0 H. generalize (@nil ControllerState).
  induction evs as [|ev rest IH]; intros log0 s0 (Hc & Hg & Hl) H.
  - injection H as <- <- _. exact Hl.
  - simpl in Hn. apply andb_true_iff in Hn as [Hn1 Hn2].
    simpl in H. unfold bind in H.
    destruct (handle_event ev (s0, log0)) as [[s1 log1] r1] eqn:He.
    pose proof (handle_event_in_range _ _ _ _ _ _ Hc Hg Hl Hn1 He) as H1.
    destruct r1 as [[]|e].
    + eapply (IH Hn2); [exact H1 | exact H].
    + injection H as <- <- _. apply H1.
Qed.

Lemma X9_witness :
  Forall (fun cs => in_range cs = true /\ steer_clear_of_deadzone cs = true)
    (snd (fst (handle_events [JOYAXISMOTION 0 0.1; JOYAXISMOTION 5 0.9]
                 (_GamepadController_init 6 13 1 (Some recording), [])))).
Proof.
  apply (X9_emitted_states_in_range 6 13 1 [JOYAXISMOTION 0 0.1; JOYAXISMOTION 5 0.9]
           (fst (fst (handle_events [JOYAXISMOTION 0 0.1; JOYAXISMOTION 5 0.9]
                        (_GamepadController_init 6 13 1 (Some recording), []))))
           _
           (snd (handle_events [JOYAXISMOTION 0 0.1; JOYAXISMOTION 5 0.9]
                   (_GamepadController_init 6 13 1 (Some recording), [])))).
  - reflexivity.
  - vm_compute. reflexivity.
Defined.

End DerivedValues.

Section Emission.

Import controller.
Local Open Scope py_scope.

(** ** What the adapter emits over a run of events *)

Lemma adjacent_differ_snoc (log : list ControllerState) (cs : ControllerState) :
  adjacent_differ log -> eq_optional cs (last log) = false ->
  adjacent_differ (log ++ [cs]).
Proof.
  induction log as [|a [|b rest] IH]; intros Hadj Hne.
  - exact I.
  - simpl in *. auto.
  - destruct Hadj as [Hab Hrest]. split; [exact Hab|]. apply IH; [exact Hrest | exact Hne].
Qed.

(** X11. Whatever events an adapter handles, and whether or not one of
    them ends the run with an exception: no state it hands to its callback
    equals the state it handed over just before, it makes at most one call
    for each event stored, and the state it keeps as last emitted is the
    last one it handed over. *)
Theorem X11_no_repeated_emission (na nb nh : nat) (evs : list event) :
  let w := fst (handle_events evs (_GamepadController_init na nb nh (Some recording), [])) in
  adjacent_differ (snd w)
  /\ _last_controller_state (fst w) = last (snd w)
  /\ (length (snd w) <= length (List.filter stored evs))%nat.
Proof.
  set (s0 := _GamepadController_init na nb nh (Some recording)).
  assert (H0 : _callback s0 = Some recording /\ adjacent_differ []
               /\ _last_controller_state s0 = last (@nil ControllerState)) by (repeat split).
  assert (Hgen : forall evs (s : _GamepadController (list ControllerState)) log,
             _callback s = Some recording -> adjacent_differ log ->
             _last_controller_state s = last log ->
             let w := fst (handle_events evs (s, log)) in
             adjacent_differ (snd w) /\ _last_controller_state (fst w) = last (snd w)
             /\ (length (snd w) <= length log + length (List.filter stored evs))%nat).
  { clear. induction evs as [|ev rest IH]; intros s log Hc Ha Hl.
    - simpl. repeat split; try assumption. lia.
    - cbn [handle_events]. unfold bind.
      destruct (handle_event ev (s, log)) as [[s1 log1] r1] eqn:He.
      destruct (handle_event_cases _ _ _ _ _ _ recording Hc He)
        as (Hc1 & [[-> Hl1] | (cs & -> & Hst & -> & Hne & Hl1)]).
      + assert (Hrest : (length (List.filter stored rest)
                         <= length (List.filter stored (ev :: rest)))%nat)
          by (simpl; destruct (stored ev); simpl; lia).
        destruct r1 as [[]|e].
        * specialize (IH s1 log Hc1 Ha (eq_trans Hl1 Hl)). cbv zeta in IH.
          destruct IH as (I1 & I2 & I3). repeat split; try assumption. lia.
        * simpl. repeat split; try assumption; [congruence | lia].
      + assert (Ha1 : adjacent_differ (recording cs log))
          by (apply adjacent_differ_snoc; [exact Ha | rewrite <- Hl; exact Hne]).
        assert (Hl2 : _last_controller_state s1 = last (recording cs log))
          by (unfold recording; rewrite last_snoc; exact Hl1).
        specialize (IH s1 (recording cs log) Hc1 Ha1 Hl2). cbv zeta in IH.
        destruct IH as (I1 & I2 & I3). repeat split; try assumption.
        assert (Hlen : length (recording cs log) = S (length log))
          by (unfold recording; rewrite length_app; simpl; lia).
        rewrite Hlen in I3. cbn [List.filter]. rewrite Hst. cbn [length]. lia. }
  intros w. destruct (Hgen evs s0 [] (proj1 H0) I eq_refl) as (G1 & G2 & G3).
  repeat split; assumption.
Qed.

(** X12. The publisher's [_controller_state] is at all times the state its
    adapter emitted last ([None] before the first emission), whatever
    events it handles and however the run ends; its address is never
    touched. *)
Theorem X12_publisher_holds_last_emitted (host : string) (port : Z) (na nb nh : nat)
  (evs : list event) :
  let self := fst (GamepadController_handle_events evs
                     (GamepadController_init host port na nb nh)) in
  _controller_state self = _last_controller_state (_gamepad_controller self)
  /\ _host self = host /\ _port self = port.
Proof.
  intros self.
  destruct (publisher_in_step evs (GamepadController_init host port na nb nh)
              eq_refl eq_refl) as (_ & Hl & Hh & Hp).
  auto.
Qed.

(** ** The gear across events *)

Section Gear.

Context {D : Type}.
Implicit Types (self : _GamepadController D) (raw : RawControllerState) (d : D).

(** What the derivation leaves in [_reverse], also when it raises. *)
Lemma _handle_callback_reverse raw self self' (r : result ControllerState) :
  _handle_callback raw self = (self', r) ->
  _reverse self' = _reverse self
  \/ (button_data raw !! 11 = Some true /\ _reverse self' = false)
  \/ (button_data raw !! 12 = Some true /\ _reverse self' = true).
Proof.
  destruct self as [cb h rv l].
  unfold _handle_callback, bind, lift, subscript.
  repeat match goal with
         | |- context [ match ?d !! ?k with _ => _ end ] => destruct (d !! k)
         end.
  all: repeat match goal with
         | |- context [ if ?b then _ else _ ] => destruct b
         end.
  all: destruct cb; cbv [check_callable bind gets ret raise set_reverse modify
                         with_reverse _callback _handler _reverse
                         _last_controller_state].
  all: intros H; inversion H; subst; simpl; auto.
Qed.

(** The wrapper leaves the handler alone, and [_reverse] as the derivation
    left it. *)
Lemma _callback_wrapper_adapter raw self d self' d' (r : result unit) :
  _callback_wrapper raw (self, d) = ((self', d'), r) ->
  _handler self' = _handler self
  /\ _reverse self' = _reverse (fst (_handle_callback raw self)).
Proof.
  unfold _callback_wrapper.
  destruct (_handle_callback raw self) as [s1 [cs|e]] eqn:Hd;
    destruct (_handle_callback_state _ _ _ _ Hd) as [b ->]; simpl.
  - destruct (eq_optional cs (_last_controller_state self));
      [|destruct (_callback self)]; intros [= <- <- <-]; auto.
  - intros [= <- <- <-]. auto.
Qed.

Lemma handle_event_gear (b : bool) (ev : event) self d self' d' (r : result unit) :
  let button := if b then 11 else 12 in
  handle_event ev (self, d) = ((self', d'), r) ->
  ev <> JOYBUTTONDOWN button ->
  _reverse self = b -> _button_data (_handler self) !! button <> Some true ->
  _reverse self' = b /\ _button_data (_handler self') !! button <> Some true.
Proof.
  intros button H Hev Hrev Hup. unfold handle_event in H.
  destruct (store_event (_handler self) ev) as [h|] eqn:Hst;
    [|injection H as <- <- <-; auto].
  assert (Hh : _button_data h !! button <> Some true).
  { destruct ev as [a v|k|k|a v|]; simpl in Hst; try discriminate Hst;
      injection Hst as <-; simpl; try exact Hup.
    - rewrite lookup_insert_ne; [exact Hup|]. intros ->. apply Hev. reflexivity.
    - rewrite lookup_insert. case_decide; [discriminate | exact Hup]. }
  destruct (_callback_wrapper_adapter _ _ _ _ _ _ H) as [E1 E2].
  simpl in E1. rewrite E1. split; [|exact Hh].
  rewrite E2.
  destruct (_handle_callback (raw_state h) (set_handler h self)) as [s1 r1] eqn:Hd.
  destruct (_handle_callback_reverse _ _ _ _ Hd) as [E | [[G E] | [G E]]];
    simpl in *; rewrite E; try exact Hrev.
  - destruct b; [|reflexivity]. exfalso. apply Hh. exact G.
  - destruct b; [reflexivity|]. exfalso. apply Hh. exact G.
Qed.

End Gear.

(** X13. The gear changes only when the button of the other gear goes
    down.  With reverse selected and button 11 not held, any run of events
    without a press of button 11 leaves reverse selected; with forward
    selected and button 12 not held, any run without a press of button 12
    leaves forward selected.  This holds event by event, also for an event
    whose handling raises. *)
Theorem X13_gear_kept {D : Type} (b : bool) (evs : list event)
  (self : _GamepadController D) (d : D) :
  let button := if b then 11 else 12 in
  _reverse self = b ->
  _button_data (_handler self) !! button <> Some true ->
  Forall (fun ev => ev <> JOYBUTTONDOWN button) evs ->
  _reverse (fst (fst (handle_events evs (self, d)))) = b.
Proof.
  intros button Hrev Hup Hall. revert self d Hrev Hup.
  induction Hall as [|ev rest Hev Hrest IH]; intros self d Hrev Hup.
  - exact Hrev.
  - cbn [handle_events]. unfold bind.
    destruct (handle_event ev (self, d)) as [[s1 d1] r1] eqn:He.
    destruct (handle_event_gear b _ _ _ _ _ _ He Hev Hrev Hup) as [Hrev1 Hup1].
    destruct r1 as [[]|e]; [apply IH; assumption | exact Hrev1].
Qed.

Lemma X13_witness :
  _reverse (fst (fst (handle_events
                        [JOYBUTTONUP 12; JOYAXISMOTION 5 0.5; JOYBUTTONDOWN 0; OtherEvent]
                        (fst (handle_event (JOYBUTTONDOWN 12) (new_adapter counting, 0%nat))))))
  = true.
Proof.
  pose (w := fst (handle_event (JOYBUTTONDOWN 12) (new_adapter counting, 0%nat))).
  change (_reverse (fst (fst (handle_events
            [JOYBUTTONUP 12; JOYAXISMOTION 5 0.5; JOYBUTTONDOWN 0; OtherEvent]
            (fst w, snd w)))) = true).
  apply (X13_gear_kept true).
  - vm_compute. reflexivity.
  - vm_compute. discriminate.
  - repeat constructor; discriminate.
Defined.

(** ** A joystick without the entries the derivation reads *)

Lemma dict_of_range_lookup_None {V} (n : nat) (v : V) (k : Z) :
  Z.of_nat n <= k -> dict_of_range n v !! k = None.
Proof.
  intros Hk. unfold dict_of_range. apply not_elem_of_list_to_map_1.
  intros Hin. apply list_elem_of_fmap in Hin. destruct Hin as ([k' v'] & -> & Hin).
  apply list_elem_of_In, in_map_iff in Hin. destruct Hin as (i & [= <- _] & Hi).
  apply in_seq in Hi. simpl in Hk. lia.
Qed.

Lemma _handle_callback_missing {D} (raw : RawControllerState) (self : _GamepadController D) :
  missing_entry raw ->
  exists b, _handle_callback raw self = (with_reverse b self, Raise KeyError).
Proof.
  destruct self as [cb h rv l].
  unfold missing_entry, _handle_callback, bind, lift, subscript.
  repeat match goal with
         | |- context [ match ?d !! ?k with _ => _ end ] => destruct (d !! k)
         end.
  all: repeat match goal with
         | |- context [ if ?b then _ else _ ] => destruct b
         end.
  all: cbv [check_callable bind gets ret raise set_reverse modify
            with_reverse _callback _handler _reverse _last_controller_state].
  all: intros H; try (eexists; reflexivity).
  all: exfalso; repeat (destruct H as [H|H]; [discriminate H|]); discriminate H.
Qed.

(** X14. On a joystick with at most four axes or at most eleven buttons,
    handling events raises [KeyError] at the first event that the handler
    stores: the event is stored, the derivation subscripts an entry the
    dicts do not have, the callback is not called and no state is ever
    emitted. *)
Theorem X14_small_joystick {D : Type} (na nb nh : nat)
  (cb : option (ControllerState -> D -> D)) (evs : list event) (d : D) :
  (na <= 4 \/ nb <= 11)%nat -> existsb stored evs = true ->
  exists self',
    handle_events evs (_GamepadController_init na nb nh cb, d) = ((self', d), Raise KeyError)
    /\ _last_controller_state self' = None.
Proof.
  intros Hsmall. induction evs as [|ev rest IH]; intros Hst; [discriminate Hst|].
  cbn [handle_events]. unfold bind.
  destruct (stored ev) eqn:Hev.
  - clear IH Hst. unfold handle_event. cbn [_handler _GamepadController_init].
    destruct (store_event (ControllerEventHandler_init na nb nh) ev) as [h|] eqn:Hs;
      [|destruct ev; discriminate].
    assert (Hm : missing_entry (raw_state h)).
    { unfold missing_entry.
      destruct Hsmall as [Ha | Hb].
      - assert (H5 : _axis_data (ControllerEventHandler_init na nb nh) !! 5 = None)
          by (apply dict_of_range_lookup_None; lia).
        assert (H4 : _axis_data (ControllerEventHandler_init na nb nh) !! 4 = None)
          by (apply dict_of_range_lookup_None; lia).
        destruct ev as [a v|k|k|a v|]; simpl in Hs; try discriminate Hs;
          injection Hs as <-; cbn [raw_state axis_data _axis_data]; auto.
        destruct (decide (a = 5)) as [->|Hne].
        + right. left. rewrite lookup_insert_ne by discriminate. exact H4.
        + left. rewrite lookup_insert_ne by exact Hne. exact H5.
      - assert (H11 : _button_data (ControllerEventHandler_init na nb nh) !! 11 = None)
          by (apply dict_of_range_lookup_None; lia).
        assert (H12 : _button_data (ControllerEventHandler_init na nb nh) !! 12 = None)
          by (apply dict_of_range_lookup_None; lia).
        destruct ev as [a v|k|k|a v|]; simpl in Hs; try discriminate Hs;
          injection Hs as <-; cbn [raw_state button_data _button_data]; auto 10.
        + destruct (decide (k = 11)) as [->|Hne].
          * do 5 right. left. rewrite lookup_insert_ne by discriminate. exact H12.
          * do 4 right. left. rewrite lookup_insert_ne by exact Hne. exact H11.
        + destruct (decide (k = 11)) as [->|Hne].
          * do 5 right. left. rewrite lookup_insert_ne by discriminate. exact H12.
          * do 4 right. left. rewrite lookup_insert_ne by exact Hne. exact H11. }
    unfold _callback_wrapper.
    destruct (_handle_callback_missing (raw_state h)
                (set_handler h (_GamepadController_init na nb nh cb)) Hm) as [b ->].
    eexists. split; reflexivity.
  - simpl in Hst. rewrite Hev in Hst. simpl in Hst.
    destruct ev; try discriminate Hev. simpl. apply IH. exact Hst.
Qed.

Lemma X14_witness :
  exists self',
    handle_events [OtherEvent; JOYAXISMOTION 0 0.5; JOYBUTTONDOWN 0]
      (_GamepadController_init 4 16 1 (Some counting), 0%nat)
    = ((self', 0%nat), Raise KeyError)
    /\ _last_controller_state self' = None.
Proof.
  apply (X14_small_joystick 4 16 1 (Some counting)
           [OtherEvent; JOYAXISMOTION 0 0.5; JOYBUTTONDOWN 0] 0%nat).
  - left. lia.
  - reflexivity.
Defined.

(** ** The state emitted last is the current one *)

Lemma handle_event_emitted {D} (ev : event) (self self' : _GamepadController D) (d d' : D) :
  handle_event ev (self, d) = ((self', d'), Ok tt) ->
  stored ev = true \/ _last_controller_state self <> None ->
  _last_controller_state self' <> None.
Proof.
  intros H Hor. unfold handle_event in H.
  destruct (store_event (_handler self) ev) as [h|] eqn:Hst.
  - unfold _callback_wrapper in H.
    destruct (_handle_callback (raw_state h) (set_handler h self)) as [s1 [cs|e]] eqn:Hd;
      [|discriminate H].
    destruct (eq_optional cs (_last_controller_state s1)) eqn:E.
    + injection H as <- <-. destruct (_last_controller_state s1); [discriminate | discriminate E].
    + destruct (_callback s1); [|discriminate H]. injection H as <- <-. discriminate.
  - injection H as <- <-. destruct Hor as [Hs | Hl]; [|exact Hl].
    destruct ev; discriminate.
Qed.

(** X15. The state emitted last is never stale.  After a run of events
    within the interface that is handled without exception and holds at
    least one stored event, the adapter has emitted, and deriving from what
    its handler holds now returns a state equal to the one it emitted last
    and changes nothing. *)
Theorem X15_emitted_is_current {D : Type} (na nb nh : nat)
  (cb : option (ControllerState -> D -> D)) (evs : list event)
  (self : _GamepadController D) (d0 d : D) :
  forallb normalized_event evs = true ->
  existsb stored evs = true ->
  handle_events evs (_GamepadController_init na nb nh cb, d0) = ((self, d), Ok tt) ->
  exists cs last,
    _handle_callback (raw_state (_handler self)) self = (self, Ok cs)
    /\ _last_controller_state self = Some last
    /\ ControllerState_eqb cs last = true.
Proof.
  intros Hn Hst H.
  pose proof (settled_handle_events _ _ _ _ _ (settled_init na nb nh cb) Hn H) as [_ Hs].
  assert (Hlast : _last_controller_state self <> None).
  { clear Hs Hn. revert H Hst.
    generalize (_GamepadController_init na nb nh cb) as s. revert d0.
    assert (Hkeep : forall evs (s : _GamepadController D) d0,
               handle_events evs (s, d0) = ((self, d), Ok tt) ->
               _last_controller_state s <> None -> _last_controller_state self <> None).
    { clear. induction evs as [|ev rest IH]; intros s d0 H Hl.
      - injection H as <- <-. exact Hl.
      - cbn [handle_events] in H. unfold bind in H.
        destruct (handle_event ev (s, d0)) as [[s1 d1] [[]|e]] eqn:He; [|discriminate H].
        apply (IH _ _ H). apply (handle_event_emitted _ _ _ _ _ He). right. exact Hl. }
    induction evs as [|ev rest IH]; intros d0 s H Hst; [discriminate Hst|].
    cbn [handle_events] in H. unfold bind in H.
    destruct (handle_event ev (s, d0)) as [[s1 d1] [[]|e]] eqn:He; [|discriminate H].
    simpl in Hst. destruct (stored ev) eqn:Hev.
    - apply (Hkeep _ _ _ H). apply (handle_event_emitted _ _ _ _ _ He). left. exact Hev.
    - apply (IH _ _ H). exact Hst. }
  destruct Hs as [Hnone | (cs & Hd & E)]; [contradiction|].
  destruct (_last_controller_state self) as [l|] eqn:El; [|discriminate E].
  exists cs, l. auto.
Qed.

Lemma X15_witness :
  exists cs last,
    _handle_callback
      (raw_state (_handler (fst (fst (handle_events
         [JOYAXISMOTION 5 0.5; JOYBUTTONDOWN 12; JOYHATMOTION 0 (1, 0)]
         (new_adapter counting, 0%nat))))))
      (fst (fst (handle_events
         [JOYAXISMOTION 5 0.5; JOYBUTTONDOWN 12; JOYHATMOTION 0 (1, 0)]
         (new_adapter counting, 0%nat))))
    = (fst (fst (handle_events
         [JOYAXISMOTION 5 0.5; JOYBUTTONDOWN 12; JOYHATMOTION 0 (1, 0)]
         (new_adapter counting, 0%nat))), Ok cs)
    /\ _last_controller_state (fst (fst (handle_events
         [JOYAXISMOTION 5 0.5; JOYBUTTONDOWN 12; JOYHATMOTION 0 (1, 0)]
         (new_adapter counting, 0%nat)))) = Some last
    /\ ControllerState_eqb cs last = true.
Proof.
  apply (X15_emitted_is_current 6 13 1 (Some counting)
           [JOYAXISMOTION 5 0.5; JOYBUTTONDOWN 12; JOYHATMOTION 0 (1, 0)]
           _ 0%nat
           (snd (fst (handle_events
              [JOYAXISMOTION 5 0.5; JOYBUTTONDOWN 12; JOYHATMOTION 0 (1, 0)]
              (new_adapter counting, 0%nat))))).
  - reflexivity.
  - reflexivity.
  - vm_compute. reflexivity.
Defined.

End Emission.
